(** * AI-Agents backend: extraction, execution loop, sessions and artifact store

    A shallow embedding of the parts of [backend/agents/base_agent.py],
    [backend/api/routes.py] and [backend/artifacts/artifact_manager.py]
    that the specification talks about, followed by the properties proved
    about them.

    Conventions.
    - A Python [str] is a [string]; its characters are the code points below
      256.  The whitespace class is the one CPython uses both for [\s] in a
      [str] pattern and for [str.strip()] ([Py_UNICODE_ISSPACE]), restricted
      to that range.
    - A [Dict[str, Any]] whose identity matters lives in a heap of dict
      objects and is named by its address; a dict whose iteration order
      matters is an association list in insertion order.
    - [uuid.uuid4()] and the wall clock are read from the [World]. *)

From Stdlib Require Import String Ascii List ZArith Lia Bool Arith.
From Stdlib Require Import Sorting.Sorted Sorting.Permutation.
From Stdlib Require Import Numbers.DecimalString.
From stdpp Require Import base option gmap strings fin_maps.
Import ListNotations.

Local Open Scope string_scope.
Local Open Scope list_scope.

(* ===================================================================== *)
(** * Python text *)
(* ===================================================================== *)

Module Py.

(** The double quote, U+0022. *)
Definition dquote : ascii := "034"%char.
Definition DQ : string := String dquote EmptyString.

(** [Py_UNICODE_ISSPACE] on the code points below 256:
    TAB, LF, VT, FF, CR, FS, GS, RS, US, SPACE, NEL and NBSP. *)
Definition is_space (c : ascii) : bool :=
  let n := nat_of_ascii c in
  (((9 <=? n) && (n <=? 13)) || ((28 <=? n) && (n <=? 32))
   || (n =? 133) || (n =? 160))%nat.

(** The class of every character but the double quote. *)
Definition not_dquote (c : ascii) : bool := negb (Ascii.eqb c dquote).

(** The class [.] under [re.DOTALL]. *)
Definition any_char (_ : ascii) : bool := true.

(** Truthiness of a [str]. *)
Definition truthy (s : string) : bool :=
  match s with EmptyString => false | String _ _ => true end.

(** [a or b] on strings. *)
Definition str_or (a b : string) : string := if truthy a then a else b.

Fixpoint lstrip (s : string) : string :=
  match s with
  | EmptyString => EmptyString
  | String c s' => if is_space c then lstrip s' else s
  end.

Fixpoint rstrip (s : string) : string :=
  match s with
  | EmptyString => EmptyString
  | String c s' =>
      match rstrip s' with
      | EmptyString => if is_space c then EmptyString else String c EmptyString
      | r => String c r
      end
  end.

(** [s.strip()] *)
Definition strip (s : string) : string := rstrip (lstrip s).

(** [str(n)] for a non-negative [int]. *)
Definition str_of_nat (n : nat) : string :=
  NilEmpty.string_of_uint (Nat.to_uint n).

(** All characters of [s] satisfy [p]. *)
Fixpoint all_chars (p : ascii -> bool) (s : string) : bool :=
  match s with
  | EmptyString => true
  | String c s' => p c && all_chars p s'
  end.

(** [s.startswith(p)] *)
Fixpoint startswith (p s : string) : bool :=
  match p, s with
  | EmptyString, _ => true
  | String a p', String b s' => Ascii.eqb a b && startswith p' s'
  | String _ _, EmptyString => false
  end.

(** [p in s] *)
Fixpoint contains (p s : string) : bool :=
  startswith p s ||
  match s with
  | EmptyString => false
  | String _ s' => contains p s'
  end.

(** [c.lower()] on the code points below 256: A to Z, and the Latin-1
    capitals U+00C0 to U+00DE but for the multiplication sign. *)
Definition lower_char (c : ascii) : ascii :=
  let n := nat_of_ascii c in
  if (((65 <=? n) && (n <=? 90))
      || ((192 <=? n) && (n <=? 222) && negb (n =? 215)))%nat
  then ascii_of_nat (n + 32) else c.

(** [s.lower()] *)
Fixpoint lower (s : string) : string :=
  match s with
  | EmptyString => EmptyString
  | String c s' => String (lower_char c) (lower s')
  end.

(** [s.replace(a, b)] for single characters [a] and [b]. *)
Fixpoint replace_char (a b : ascii) (s : string) : string :=
  match s with
  | EmptyString => EmptyString
  | String c s' => String (if Ascii.eqb c a then b else c) (replace_char a b s')
  end.

(** [s.endswith(c)] for a single character. *)
Fixpoint ends_with_char (c : ascii) (s : string) : bool :=
  match s with
  | EmptyString => false
  | String d EmptyString => Ascii.eqb d c
  | String _ s' => ends_with_char c s'
  end.

(** [os.path.join(a, b)] on a POSIX system. *)
Definition path_join (a b : string) : string :=
  if startswith "/" b then b
  else if negb (truthy a) || ends_with_char "/" a then a ++ b
  else a ++ "/" ++ b.

End Py.

(* ===================================================================== *)
(** * The fragment of [re] used by the agent *)
(* ===================================================================== *)

(** A pattern is run by a backtracking matcher, as in CPython's [sre]:
    every construct takes the continuation that matches the rest of the
    pattern, tries its alternatives in priority order and returns the
    first overall success. *)

Module Re.

Section Combinators.
Context {R : Type}.

(** What is left of the pattern, run on what is left of the input. *)
Definition cont : Type := string -> option R.

(** A literal. *)
Fixpoint lit (p : string) (k : cont) (s : string) : option R :=
  match p with
  | EmptyString => k s
  | String a p' =>
      match s with
      | String b s' => if Ascii.eqb a b then lit p' k s' else None
      | EmptyString => None
      end
  end.

(** [(C+)] greedy: as many characters of the class as possible first,
    giving one back at a time while the continuation fails. The
    continuation receives the text matched. *)
Fixpoint plus_greedy (cls : ascii -> bool) (k : string -> cont)
         (s : string) : option R :=
  match s with
  | EmptyString => None
  | String c s' =>
      if cls c then
        match plus_greedy cls (fun m => k (String c m)) s' with
        | Some r => Some r
        | None => k (String c EmptyString) s'
        end
      else None
  end.

(** [(C*?)] lazy: the continuation first, one more character of the
    class only when it fails. *)
Fixpoint star_lazy (cls : ascii -> bool) (k : string -> cont)
         (s : string) : option R :=
  match k EmptyString s with
  | Some r => Some r
  | None =>
      match s with
      | EmptyString => None
      | String c s' =>
          if cls c then star_lazy cls (fun m => k (String c m)) s'
          else None
      end
  end.

(** [(?:G)?] greedy, for a group [G] holding one capture: with the
    group first, without it when that fails. A capture that took no
    part in the match is reported as the empty string, as
    [re.findall] does. *)
Definition opt_greedy (g : (string -> cont) -> cont) (k : string -> cont)
           (s : string) : option R :=
  match g k s with
  | Some r => Some r
  | None => k EmptyString s
  end.

End Combinators.

(** A compiled pattern: on success, the captures and the input left
    after the match. *)
Definition pattern (G : Type) : Type := string -> option (G * string).

Section Scan.
Context {G : Type} (p : pattern G).

(** The scan shared by [findall] and [sub]: try the pattern at every
    position from left to right and resume after a match. [skip]
    counts the characters of the current match still to be passed.
    (Matches are never empty for the pattern used here.) *)
Fixpoint findall_from (skip : nat) (s : string) : list G :=
  match s with
  | EmptyString =>
      match skip, p EmptyString with
      | O, Some (g, _) => [g]
      | _, _ => []
      end
  | String c s' =>
      match skip with
      | S n => findall_from n s'
      | O =>
          match p s with
          | Some (g, rest) =>
              g :: findall_from (String.length s - String.length rest - 1) s'
          | None => findall_from 0 s'
          end
      end
  end.

(** [re.findall(p, s)] *)
Definition findall (s : string) : list G := findall_from 0 s.

Fixpoint sub_from (repl : string) (skip : nat) (s : string) : string :=
  match s with
  | EmptyString =>
      match skip, p EmptyString with
      | O, Some _ => repl
      | _, _ => EmptyString
      end
  | String c s' =>
      match skip with
      | S n => sub_from repl n s'
      | O =>
          match p s with
          | Some (_, rest) =>
              repl ++ sub_from repl (String.length s - String.length rest - 1) s'
          | None => String c (sub_from repl 0 s')
          end
      end
  end.

(** [re.sub(p, repl, s)] for a replacement without escapes. *)
Definition sub (repl s : string) : string := sub_from repl 0 s.

End Scan.

End Re.

(** The four captures of the artifact pattern, in group order. *)
Record TagGroups := mkGroups {
  g_type : string;
  g_language : string;
  g_title : string;
  g_content : string
}.

(** One attribute of the opening tag, [\s+NAME=Q([^Q]+)Q], where Q stands
    for the double quote. *)
Definition attribute {R : Type} (name : string) (k : string -> Re.cont (R:=R))
  : Re.cont (R:=R) :=
  Re.plus_greedy Py.is_space (fun _ =>
  Re.lit (name ++ "=" ++ Py.DQ) (
  Re.plus_greedy Py.not_dquote (fun v =>
  Re.lit Py.DQ (k v)))).

(** The pattern of [_process_response], compiled with [re.DOTALL]:
    [<artifact\s+type=Q([^Q]+)Q(?:\s+language=Q([^Q]+)Q)?(?:\s+title=Q([^Q]+)Q)?>(.*?)</artifact>] *)
Definition artifact_pattern : Re.pattern TagGroups :=
  Re.lit "<artifact" (
  attribute "type" (fun g1 =>
  Re.opt_greedy (attribute "language") (fun g2 =>
  Re.opt_greedy (attribute "title") (fun g3 =>
  Re.lit ">" (
  Re.star_lazy Py.any_char (fun g4 =>
  Re.lit "</artifact>" (fun rest =>
  Some (mkGroups g1 g2 g3 g4, rest)))))))).

Definition placeholder : string := "[Artifact created]".

(* ===================================================================== *)
(** * The world outside the program *)
(* ===================================================================== *)

(** A JSON-like value, as held in a [Dict[str, Any]]. *)
Inductive PyVal :=
| VNone
| VBool (b : bool)
| VInt (z : Z)
| VStr (s : string).

(** The contents of a dict object with string keys. *)
Abbreviation Dict := (gmap string PyVal).

(** What the program reads from its environment, and the dict objects it
    shares by reference. The k-th call of [uuid.uuid4()] yields
    [uuid_src k]; the k-th reading of the clock yields [clock_src k]
    (an instant, in milliseconds). *)
Record World := mkWorld {
  uuid_src : nat -> string;
  uuid_drawn : nat;
  clock_src : nat -> Z;
  clock_reads : nat;
  heap : gmap nat Dict
}.

(** Computations that read and change the world. *)
Definition M (A : Type) : Type := World -> A * World.

#[export] Instance M_ret : MRet M := fun A (a : A) w => (a, w).
#[export] Instance M_bind : MBind M :=
  fun A B (f : A -> M B) (m : M A) w => let '(a, w') := m w in f a w'.

(** [str(uuid.uuid4())] *)
Definition uuid4 : M string := fun w =>
  (uuid_src w (uuid_drawn w),
   mkWorld (uuid_src w) (S (uuid_drawn w)) (clock_src w) (clock_reads w) (heap w)).

(** [datetime.now()], and [time.time()] in milliseconds. *)
Definition now : M Z := fun w =>
  (clock_src w (clock_reads w),
   mkWorld (uuid_src w) (uuid_drawn w) (clock_src w) (S (clock_reads w)) (heap w)).

(** A new dict object holding [d]. *)
Definition new_dict (d : Dict) : M nat := fun w =>
  let a := fresh (dom (heap w)) in
  (a, mkWorld (uuid_src w) (uuid_drawn w) (clock_src w) (clock_reads w)
              (<[a := d]> (heap w))).

(** The contents of the dict object at [a]. *)
Definition deref (w : World) (a : nat) : option Dict := heap w !! a.

(** [d.update(m)] on the dict object at [a]: the keys of [m] are written
    into the object itself. *)
Definition dict_update (a : nat) (m : Dict) : M unit := fun w =>
  (tt, mkWorld (uuid_src w) (uuid_drawn w) (clock_src w) (clock_reads w)
               (alter (fun d => m ∪ d) a (heap w))).

(** A raised [Exception]; [exn_text e] is [str(e)]. *)
Record Exn := mkExn { exn_text : string }.

(* ===================================================================== *)
(** * base_agent.py *)
(* ===================================================================== *)

Inductive StepType := THOUGHT | ACTION | OBSERVATION | FINAL_ANSWER | ERROR.

Definition StepType_value (t : StepType) : string :=
  match t with
  | THOUGHT => "thought"
  | ACTION => "action"
  | OBSERVATION => "observation"
  | FINAL_ANSWER => "final_answer"
  | ERROR => "error"
  end.

Definition StepType_eqb (a b : StepType) : bool :=
  match a, b with
  | THOUGHT, THOUGHT | ACTION, ACTION | OBSERVATION, OBSERVATION
  | FINAL_ANSWER, FINAL_ANSWER | ERROR, ERROR => true
  | _, _ => false
  end.

Record ExecutionStep := mkStep {
  step_id : string;
  step_type : StepType;
  step_content : string;
  step_tool_name : option string;
  step_tool_input : option nat;
  step_tool_output : option string;
  step_timestamp : Z;
  step_duration_ms : option Z
}.

(** [ExecutionStep(type=t, content=c)]: the id and the timestamp come
    from the default factories, in field order. *)
Definition ExecutionStep_new (t : StepType) (c : string) : M ExecutionStep :=
  i ← uuid4;
  ts ← now;
  mret (mkStep i t c None None None ts None).

(** The dict built by [ExecutionStep.to_dict]. *)
Record StepDict := mkStepDict {
  sd_id : string;
  sd_type : string;
  sd_content : string;
  sd_tool_name : option string;
  sd_tool_input : option nat;
  sd_tool_output : option string;
  sd_timestamp : Z;
  sd_duration_ms : option Z
}.

Definition ExecutionStep_to_dict (s : ExecutionStep) : StepDict :=
  mkStepDict (step_id s) (StepType_value (step_type s)) (step_content s)
             (step_tool_name s) (step_tool_input s)
             (match step_tool_output s with
              | Some o => if Py.truthy o then Some o else None
              | None => None
              end)
             (step_timestamp s) (step_duration_ms s).

(** An [Artifact] object. [art_metadata] is the address of its metadata
    dict. *)
Record Artifact := mkArtifact {
  art_id : string;
  art_type : string;
  art_title : string;
  art_content : string;
  art_language : option string;
  art_metadata : nat;
  art_created_at : Z
}.

(** [Artifact(type=.., title=.., content=.., language=..)]: id, metadata
    and created_at come from the default factories, in field order. *)
Definition Artifact_new (type title content : string) (language : option string)
  : M Artifact :=
  i ← uuid4;
  md ← new_dict ∅;
  ts ← now;
  mret (mkArtifact i type title content language md ts).

(** The dict built by [Artifact.to_dict]. Its metadata entry is the
    metadata object of the artifact itself, not a copy of it. *)
Record ArtifactDict := mkArtifactDict {
  ad_id : string;
  ad_type : string;
  ad_title : string;
  ad_content : string;
  ad_language : option string;
  ad_metadata : nat;
  ad_created_at : Z
}.

Definition Artifact_to_dict (a : Artifact) : ArtifactDict :=
  mkArtifactDict (art_id a) (art_type a) (art_title a) (art_content a)
                 (art_language a) (art_metadata a) (art_created_at a).

Record AgentResponse := mkResponse {
  resp_session_id : string;
  resp_success : bool;
  resp_message : string;
  resp_steps : list ExecutionStep;
  resp_artifacts : list Artifact;
  resp_total_duration_ms : Z;
  resp_iteration_count : nat
}.

(** What [self.agent.run(user_message)] does: it returns a response whose
    [content] is a [str] or [None], or it raises. *)
Inductive RunOutcome :=
| Returns (content : option string)
| Raises (e : Exn).

(** What iterating [self.agent.run(user_message, stream=True)] does: the
    chunks it hands out ([None] for a chunk without content), then
    normal exhaustion or an exception. *)
Record StreamOutcome := mkStream {
  stream_chunks : list (option string);
  stream_failure : option Exn
}.

(** The state of a [BaseAgent] instance, with the hosted model it
    delegates to. *)
Record BaseAgent := mkAgent {
  agent_run : string -> RunOutcome;
  agent_run_stream : string -> StreamOutcome;
  current_session_id : option string;
  execution_steps : list ExecutionStep;
  artifacts : list Artifact
}.

Definition set_session (self : BaseAgent) (sid : string) : BaseAgent :=
  mkAgent (agent_run self) (agent_run_stream self) (Some sid) [] [].

Definition append_step (self : BaseAgent) (s : ExecutionStep) : BaseAgent :=
  mkAgent (agent_run self) (agent_run_stream self) (current_session_id self)
          (execution_steps self ++ [s]) (artifacts self).

Definition append_artifact (self : BaseAgent) (a : Artifact) : BaseAgent :=
  mkAgent (agent_run self) (agent_run_stream self) (current_session_id self)
          (execution_steps self) (artifacts self ++ [a]).

(** [session_id or str(uuid.uuid4())] *)
Definition session_id_or_fresh (session_id : option string) : M string :=
  match session_id with
  | Some s => if Py.truthy s then mret s else uuid4
  | None => uuid4
  end.

(** The body of the loop [for match in matches] of [_process_response]. *)
Definition extract_one (self : BaseAgent) (m : TagGroups) : M BaseAgent :=
  artifact ← Artifact_new
      (g_type m)
      (Py.str_or (g_title m)
                 ("Artifact " ++ Py.str_of_nat (List.length (artifacts self) + 1)))
      (Py.strip (g_content m))
      (if Py.truthy (g_language m) then Some (g_language m) else None);
  mret (append_artifact self artifact).

Fixpoint extract_all (matches : list TagGroups) (self : BaseAgent) : M BaseAgent :=
  match matches with
  | [] => mret self
  | m :: rest => self' ← extract_one self m; extract_all rest self'
  end.

Definition _process_response (self : BaseAgent) (response : string)
  : M (BaseAgent * string) :=
  let matches := Re.findall artifact_pattern response in
  self' ← extract_all matches self;
  let clean_response := Re.sub artifact_pattern placeholder response in
  mret (self', clean_response).

(** [re.findall] applied to [None]. *)
Definition TypeError_not_a_string : Exn :=
  mkExn "expected string or bytes-like object, got 'NoneType'".

(** [_run_react_loop]: either the final message, or the exception that
    left it; the agent state reached is returned in both cases. *)
Definition _run_react_loop (self : BaseAgent) (user_message : string)
  : M (BaseAgent * (Exn + string)) :=
  thought ← ExecutionStep_new THOUGHT ("Analyzing request: " ++ user_message);
  let self := append_step self thought in
  match agent_run self user_message with
  | Raises e => mret (self, inl e)
  | Returns None => mret (self, inl TypeError_not_a_string)
  | Returns (Some content) =>
      '(self, final_message) ← _process_response self content;
      final ← ExecutionStep_new FINAL_ANSWER final_message;
      mret (append_step self final, inr final_message)
  end.

Definition count_actions (steps : list ExecutionStep) : nat :=
  List.length (List.filter (fun s => StepType_eqb (step_type s) ACTION) steps).

Definition execute (self : BaseAgent) (user_message : string)
           (session_id : option string) : M (BaseAgent * AgentResponse) :=
  start_time ← now;
  sid ← session_id_or_fresh session_id;
  let self := set_session self sid in
  '(self, outcome) ← _run_react_loop self user_message;
  match outcome with
  | inr response =>
      end_time ← now;
      mret (self,
            mkResponse sid true response (execution_steps self) (artifacts self)
                       (end_time - start_time)
                       (count_actions (execution_steps self)))
  | inl e =>
      end_time ← now;
      err ← ExecutionStep_new ERROR (exn_text e);
      let self := append_step self err in
      mret (self,
            mkResponse sid false ("Error during execution: " ++ exn_text e)
                       (execution_steps self) (artifacts self)
                       (end_time - start_time)
                       (count_actions (execution_steps self)))
  end.

(** ** The streaming path *)

(** The dicts yielded by [stream_execute], by their [type] entry. *)
Inductive Event :=
| EvStart (session_id : string) (timestamp : Z)
| EvStep (step : StepDict)
| EvToken (content : string)
| EvArtifact (artifact : ArtifactDict)
| EvComplete (session_id : string) (success : bool) (total_duration_ms : Z)
| EvError (message : string).

(** [_stream_agent_response]: the contents of the chunks that have one,
    and how the iteration ended. *)
Definition _stream_agent_response (self : BaseAgent) (user_message : string)
  : list string * option Exn :=
  let o := agent_run_stream self user_message in
  (List.concat
     (List.map (fun c => match c with
                         | Some t => if Py.truthy t then [t] else []
                         | None => []
                         end) (stream_chunks o)),
   stream_failure o).

(** [response_content] after [response_content += chunk] for every chunk. *)
Definition accumulate (chunks : list string) : string :=
  List.fold_left (fun acc chunk => (acc ++ chunk)%string) chunks EmptyString.

(** The events a consumer receives when it runs the generator to its end. *)
Definition stream_execute (self : BaseAgent) (user_message : string)
           (session_id : option string) : M (BaseAgent * list Event) :=
  start_time ← now;
  sid ← session_id_or_fresh session_id;
  let self := set_session self sid in
  started ← now;
  thought_step ← ExecutionStep_new THOUGHT ("Analyzing request: " ++ user_message);
  let self := append_step self thought_step in
  let opening := [EvStart sid started; EvStep (ExecutionStep_to_dict thought_step)] in
  let '(chunks, failure) := _stream_agent_response self user_message in
  let response_content := accumulate chunks in
  let tokens := List.map EvToken chunks in
  match failure with
  | Some e => mret (self, opening ++ tokens ++ [EvError (exn_text e)])
  | None =>
      '(self, final_message) ← _process_response self response_content;
      let found := List.map (fun a => EvArtifact (Artifact_to_dict a)) (artifacts self) in
      final_step ← ExecutionStep_new FINAL_ANSWER final_message;
      let self := append_step self final_step in
      end_time ← now;
      mret (self,
            opening ++ tokens ++ found ++
            [EvStep (ExecutionStep_to_dict final_step);
             EvComplete sid true (end_time - start_time)])
  end.

(* ===================================================================== *)
(** * routes.py *)
(* ===================================================================== *)

Record Message := mkMessage {
  msg_role : string;
  msg_content : string;
  msg_timestamp : Z
}.

(** One entry of the module-level [sessions] dict. *)
Record Session := mkSession {
  sess_id : string;
  sess_created_at : Z;
  sess_messages : list Message;
  sess_artifacts : list ArtifactDict;
  sess_last_activity : option Z
}.

Definition add_message (m : Message) (s : Session) : Session :=
  mkSession (sess_id s) (sess_created_at s) (sess_messages s ++ [m])
            (sess_artifacts s) (sess_last_activity s).

Definition add_artifacts (l : list ArtifactDict) (s : Session) : Session :=
  mkSession (sess_id s) (sess_created_at s) (sess_messages s)
            (sess_artifacts s ++ l) (sess_last_activity s).

Definition set_last_activity (t : Z) (s : Session) : Session :=
  mkSession (sess_id s) (sess_created_at s) (sess_messages s)
            (sess_artifacts s) (Some t).

(** The request model [ChatMessage]. *)
Record ChatMessage := mkChatMessage {
  cm_content : string;
  cm_session_id : option string;
  cm_context : option nat
}.

Record ChatResponse := mkChatResponse {
  cr_session_id : string;
  cr_message : string;
  cr_success : bool;
  cr_artifacts : list ArtifactDict;
  cr_steps : list StepDict;
  cr_duration_ms : Z
}.

(** The module state of [routes.py]: the [sessions] dict and the shared
    agent instance. *)
Record Server := mkServer {
  sessions : gmap string Session;
  agent : BaseAgent
}.

(** The handler of POST /chat. Nothing inside its [try] block raises
    ([execute] catches what the model raises), so the handler always
    reaches its [return]. *)
Definition chat (srv : Server) (message : ChatMessage) : M (Server * ChatResponse) :=
  session_id ← session_id_or_fresh (cm_session_id message);
  ss ← match sessions srv !! session_id with
       | Some _ => mret (sessions srv)
       | None =>
           created ← now;
           mret (<[session_id := mkSession session_id created [] [] None]> (sessions srv))
       end;
  asked ← now;
  let ss := alter (add_message (mkMessage "user" (cm_content message) asked)) session_id ss in
  '(agent', response) ← execute (agent srv) (cm_content message) (Some session_id);
  answered ← now;
  let ss := alter (add_message (mkMessage "assistant" (resp_message response) answered))
                  session_id ss in
  let ss := alter (add_artifacts (List.map Artifact_to_dict (resp_artifacts response)))
                  session_id ss in
  active ← now;
  let ss := alter (set_last_activity active) session_id ss in
  mret (mkServer ss agent',
        mkChatResponse session_id (resp_message response) (resp_success response)
                       (List.map Artifact_to_dict (resp_artifacts response))
                       (List.map ExecutionStep_to_dict (resp_steps response))
                       (resp_total_duration_ms response)).

(** [content: str = Field(..., min_length=1, max_length=10000)] *)
Definition content_min_length : Z := 1.
Definition content_max_length : Z := 10000.

(** [len(content)] *)
Definition content_length (message : ChatMessage) : Z :=
  Z.of_nat (String.length (cm_content message)).

Definition ChatMessage_validate (message : ChatMessage) : bool :=
  (content_min_length <=? content_length message)%Z
  && (content_length message <=? content_max_length)%Z.

Inductive HTTPResult :=
| OK (body : ChatResponse)
| UnprocessableEntity.

(** POST /api/chat as the framework serves it: the body is validated
    against [ChatMessage] first, and the handler runs only on a valid one. *)
Definition post_chat (srv : Server) (body : ChatMessage) : M (Server * HTTPResult) :=
  if ChatMessage_validate body then
    '(srv', r) ← chat srv body;
    mret (srv', OK r)
  else mret (srv, UnprocessableEntity).

(* ===================================================================== *)
(** * artifact_manager.py *)
(* ===================================================================== *)

(** A Python dict with string keys, in insertion order. *)
Module OrderedDict.
Section Ops.
Context {V : Type}.

Fixpoint get (k : string) (d : list (string * V)) : option V :=
  match d with
  | [] => None
  | (k', v) :: d' => if String.eqb k k' then Some v else get k d'
  end.

(** [d[k] = v]: an existing key keeps its place. *)
Fixpoint set (k : string) (v : V) (d : list (string * V)) : list (string * V) :=
  match d with
  | [] => [(k, v)]
  | (k', v') :: d' =>
      if String.eqb k k' then (k, v) :: d' else (k', v') :: set k v d'
  end.

(** [del d[k]] *)
Fixpoint del (k : string) (d : list (string * V)) : list (string * V) :=
  match d with
  | [] => []
  | (k', v') :: d' => if String.eqb k k' then d' else (k', v') :: del k d'
  end.

Definition values (d : list (string * V)) : list V := List.map snd d.
End Ops.
End OrderedDict.

(** [sorted(l, key=key, reverse=True)]: descending, elements with equal
    keys in their original order. *)
Section SortedReverse.
Context {A : Type} (key : A -> Z).

Fixpoint insert_desc (x : A) (l : list A) : list A :=
  match l with
  | [] => [x]
  | y :: l' => if (key x <? key y)%Z then y :: insert_desc x l' else x :: l
  end.

Definition sorted_reverse (l : list A) : list A :=
  List.fold_right insert_desc [] l.
End SortedReverse.

Record ArtifactData := mkData {
  data_id : string;
  data_type : string;
  data_title : string;
  data_content : string;
  data_language : option string;
  data_session_id : option string;
  data_metadata : nat;
  data_created_at : Z;
  data_updated_at : Z
}.

(** The dict built by [ArtifactData.to_dict]. *)
Record ArtifactDataDict := mkDataDict {
  dd_id : string;
  dd_type : string;
  dd_title : string;
  dd_content : string;
  dd_language : option string;
  dd_session_id : option string;
  dd_metadata : nat;
  dd_created_at : Z;
  dd_updated_at : Z
}.

Definition ArtifactData_to_dict (a : ArtifactData) : ArtifactDataDict :=
  mkDataDict (data_id a) (data_type a) (data_title a) (data_content a)
             (data_language a) (data_session_id a) (data_metadata a)
             (data_created_at a) (data_updated_at a).

(** The dict returned by [export_session]. *)
Record SessionExport := mkExport {
  session_id : string;
  artifact_count : nat;
  exported_artifacts : list ArtifactDataDict;
  exported_at : Z
}.

(** What the dict returned by [export_session] holds under a key. *)
Inductive ExportValue :=
| ESessionId (s : string)
| ECount (n : nat)
| EArtifacts (l : list ArtifactDataDict)
| EInstant (z : Z).

(** The dict literal returned by [export_session], as Python holds it: its
    keys in the order of the literal, each with its value. The record
    [SessionExport] is the same dict read key by key. *)
Definition SessionExport_items (e : SessionExport) : list (string * ExportValue) :=
  [("session_id", ESessionId (session_id e));
   ("artifact_count", ECount (artifact_count e));
   ("artifacts", EArtifacts (exported_artifacts e));
   ("exported_at", EInstant (exported_at e))].

Module ArtifactManager.

(** [self.artifacts] *)
Definition t : Type := list (string * ArtifactData).

Definition with_content (a : ArtifactData) (c : string) : ArtifactData :=
  mkData (data_id a) (data_type a) (data_title a) c (data_language a)
         (data_session_id a) (data_metadata a) (data_created_at a) (data_updated_at a).

Definition with_title (a : ArtifactData) (x : string) : ArtifactData :=
  mkData (data_id a) (data_type a) x (data_content a) (data_language a)
         (data_session_id a) (data_metadata a) (data_created_at a) (data_updated_at a).

Definition with_updated_at (a : ArtifactData) (x : Z) : ArtifactData :=
  mkData (data_id a) (data_type a) (data_title a) (data_content a) (data_language a)
         (data_session_id a) (data_metadata a) (data_created_at a) x.

(** [metadata or {}]: the dict object passed in when it is non-empty,
    a new empty one otherwise. *)
Definition metadata_or_new (metadata : option nat) : M nat := fun w =>
  match metadata with
  | Some a =>
      match deref w a with
      | Some d => if decide (d = ∅) then new_dict ∅ w else (a, w)
      | None => new_dict ∅ w
      end
  | None => new_dict ∅ w
  end.

Definition create (self : t) (artifact_type title content : string)
           (language session_id : option string) (metadata : option nat)
  : M (t * ArtifactData) :=
  md ← metadata_or_new metadata;
  i ← uuid4;
  created ← now;
  updated ← now;
  let artifact :=
    mkData i artifact_type title content language session_id md created updated in
  mret (OrderedDict.set i artifact self, artifact).

Definition get (self : t) (artifact_id : string) : option ArtifactData :=
  OrderedDict.get artifact_id self.

Definition update (self : t) (artifact_id : string)
           (content title : option string) (metadata : option Dict)
  : M (t * option ArtifactData) :=
  match OrderedDict.get artifact_id self with
  | None => mret (self, None)
  | Some artifact =>
      let artifact :=
        match content with Some c => with_content artifact c | None => artifact end in
      let artifact :=
        match title with Some x => with_title artifact x | None => artifact end in
      _ ← match metadata with
          | Some m => dict_update (data_metadata artifact) m
          | None => mret tt
          end;
      refreshed ← now;
      let artifact := with_updated_at artifact refreshed in
      mret (OrderedDict.set artifact_id artifact self, Some artifact)
  end.

Definition delete (self : t) (artifact_id : string) : t * bool :=
  match OrderedDict.get artifact_id self with
  | Some _ => (OrderedDict.del artifact_id self, true)
  | None => (self, false)
  end.

(** [a.session_id == session_id] *)
Definition in_session (session_id : string) (a : ArtifactData) : bool :=
  match data_session_id a with
  | Some x => String.eqb x session_id
  | None => false
  end.

Definition list_all (self : t) (session_id : option string) : list ArtifactData :=
  let artifacts := OrderedDict.values self in
  let artifacts :=
    match session_id with
    | Some x => if Py.truthy x then List.filter (in_session x) artifacts else artifacts
    | None => artifacts
    end in
  sorted_reverse data_created_at artifacts.

Definition export_session (self : t) (session_id : string) : M SessionExport :=
  let artifacts := list_all self (Some session_id) in
  stamp ← now;
  mret (mkExport session_id (List.length artifacts)
                 (List.map ArtifactData_to_dict artifacts) stamp).

(** [a.type == artifact_type] *)
Definition has_type (artifact_type : string) (a : ArtifactData) : bool :=
  String.eqb (data_type a) artifact_type.

Definition list_by_type (self : t) (artifact_type : string) : list ArtifactData :=
  List.filter (has_type artifact_type) (OrderedDict.values self).

Definition clear_session (self : t) (session_id : string) : t * nat :=
  let artifacts_to_delete :=
    List.map fst (List.filter (fun item => in_session session_id (snd item)) self) in
  (List.fold_left (fun d aid => OrderedDict.del aid d) artifacts_to_delete self,
   List.length artifacts_to_delete).

(** The table of [_get_code_extension]. *)
Definition code_extensions : list (string * string) :=
  [("python", ".py"); ("javascript", ".js"); ("typescript", ".ts");
   ("java", ".java"); ("cpp", ".cpp"); ("c", ".c"); ("csharp", ".cs");
   ("go", ".go"); ("rust", ".rs"); ("ruby", ".rb"); ("php", ".php");
   ("swift", ".swift"); ("kotlin", ".kt"); ("html", ".html"); ("css", ".css");
   ("sql", ".sql"); ("shell", ".sh"); ("bash", ".sh"); ("powershell", ".ps1");
   ("yaml", ".yaml"); ("json", ".json"); ("xml", ".xml")].

Definition _get_code_extension (language : option string) : string :=
  let key := match language with
             | Some l => if Py.truthy l then Py.lower l else EmptyString
             | None => EmptyString
             end in
  default ".txt" (OrderedDict.get key code_extensions).

(** The table of [save_to_file], for an artifact in [language]. *)
Definition extensions (language : option string) : list (string * string) :=
  [("code", _get_code_extension language); ("document", ".md"); ("html", ".html");
   ("chart", ".json"); ("table", ".csv"); ("text", ".txt")].

(** The extension [save_to_file] gives to an artifact. *)
Definition extension_of (a : ArtifactData) : string :=
  default ".txt" (OrderedDict.get (data_type a) (extensions (data_language a))).

(** The file name [save_to_file] gives to an artifact. *)
Definition filename_of (a : ArtifactData) : string :=
  (data_id a ++ "_" ++ Py.replace_char " " "_" (data_title a) ++ extension_of a)%string.

End ArtifactManager.

(* ===================================================================== *)
(** * Files *)
(* ===================================================================== *)

(** The files of the machine: their contents by path, and the paths that
    [open(path, "w")] refuses, with the exception it raises for them. *)
Record FileSystem := mkFS {
  fs_files : gmap string string;
  fs_refused : string -> option Exn
}.

(** [with open(path, "w", encoding="utf-8") as f: f.write(content)] *)
Definition write_file (path content : string) (fs : FileSystem) : Exn + FileSystem :=
  match fs_refused fs path with
  | Some e => inl e
  | None => inr (mkFS (<[path := content]> (fs_files fs)) (fs_refused fs))
  end.

(** [ArtifactManager.save_to_file], for a manager whose storage directory
    is [storage_dir]: the path written, [None] for an unknown id, or the
    exception of the write. *)
Definition save_to_file (storage_dir : string) (self : ArtifactManager.t)
           (artifact_id : string) (fs : FileSystem)
  : (Exn + option string) * FileSystem :=
  match ArtifactManager.get self artifact_id with
  | None => (inr None, fs)
  | Some artifact =>
      let filepath := Py.path_join storage_dir (ArtifactManager.filename_of artifact) in
      match write_file filepath (data_content artifact) fs with
      | inl e => (inl e, fs)
      | inr fs' => (inr (Some filepath), fs')
      end
  end.

(* ===================================================================== *)
(** * More of base_agent.py and routes.py *)
(* ===================================================================== *)

(** [BaseAgent.add_artifact] *)
Definition add_artifact (self : BaseAgent) (artifact_type title content : string)
           (language : option string) (metadata : option nat)
  : M (BaseAgent * Artifact) :=
  md ← ArtifactManager.metadata_or_new metadata;
  i ← uuid4;
  ts ← now;
  let artifact := mkArtifact i artifact_type title content language md ts in
  mret (append_artifact self artifact, artifact).

(** The answer of a route that can raise [HTTPException(404)]. *)
Inductive Reply (A : Type) : Type :=
| Found (body : A)
| NotFound (detail : string).
Arguments Found {A} body.
Arguments NotFound {A} detail.

Definition get_session (srv : Server) (session_id : string) : Reply Session :=
  match sessions srv !! session_id with
  | Some s => Found s
  | None => NotFound "Session not found"
  end.

Definition delete_session (srv : Server) (session_id : string)
  : Server * Reply (string * string) :=
  match sessions srv !! session_id with
  | Some _ =>
      (mkServer (delete session_id (sessions srv)) (agent srv),
       Found ("deleted", session_id))
  | None => (srv, NotFound "Session not found")
  end.

Definition get_session_artifacts (srv : Server) (session_id : string)
  : Reply (list ArtifactDict) :=
  match sessions srv !! session_id with
  | Some s => Found (sess_artifacts s)
  | None => NotFound "Session not found"
  end.

(** The loop of [get_artifact]: the first artifact with the id. *)
Fixpoint find_artifact (artifact_id : string) (l : list ArtifactDict)
  : option ArtifactDict :=
  match l with
  | [] => None
  | a :: rest =>
      if String.eqb (ad_id a) artifact_id then Some a else find_artifact artifact_id rest
  end.

Definition get_artifact (srv : Server) (session_id artifact_id : string)
  : Reply ArtifactDict :=
  match sessions srv !! session_id with
  | None => NotFound "Session not found"
  | Some s =>
      match find_artifact artifact_id (sess_artifacts s) with
      | Some a => Found a
      | None => NotFound "Artifact not found"
      end
  end.

(* ===================================================================== *)
(** * websocket.py: the connection manager *)
(* ===================================================================== *)

(** The sockets of the server: the ones accepted, and the JSON messages
    sent on each, latest last. A socket is named by a number. *)
Record Network (F : Type) := mkNetwork {
  accepted : list nat;
  outbox : gmap nat (list F)
}.
Arguments mkNetwork {F} accepted outbox.
Arguments accepted {F} n.
Arguments outbox {F} n.

(** [await websocket.send_json(message)] *)
Definition send_json {F : Type} (websocket : nat) (message : F) (net : Network F)
  : Network F :=
  mkNetwork (accepted net)
            (<[websocket := (default [] (outbox net !! websocket) ++ [message])%list]>
               (outbox net)).

Record ConnectionManager := mkManager {
  active_connections : gmap string nat;
  agents : gmap string BaseAgent
}.

(** [create_general_agent()], for the hosted model it is bound to. *)
Definition create_general_agent (run : string -> RunOutcome)
           (run_stream : string -> StreamOutcome) : BaseAgent :=
  mkAgent run run_stream None [] [].

Definition connect {F : Type} (m : ConnectionManager) (websocket : nat)
           (session_id : string) (new_agent : BaseAgent) (net : Network F)
  : ConnectionManager * Network F :=
  (mkManager (<[session_id := websocket]> (active_connections m))
             (<[session_id := new_agent]> (agents m)),
   mkNetwork (accepted net ++ [websocket])%list (outbox net)).

Definition disconnect (m : ConnectionManager) (session_id : string)
  : ConnectionManager :=
  mkManager (delete session_id (active_connections m))
            (delete session_id (agents m)).

Definition send_message {F : Type} (m : ConnectionManager) (session_id : string)
           (message : F) (net : Network F) : Network F :=
  match active_connections m !! session_id with
  | Some websocket => send_json websocket message net
  | None => net
  end.

(* ===================================================================== *)
(** * The vocabulary of the specification *)
(* ===================================================================== *)

(** ** Artifact tags *)

(** A run of whitespace, at least one character long. *)
Definition blank (s : string) : bool := Py.truthy s && Py.all_chars Py.is_space s.

(** An attribute value: at least one character, none of them a double
    quote. *)
Definition attr_value (s : string) : bool :=
  Py.truthy s && Py.all_chars Py.not_dquote s.

(** The text of one attribute, followed by [tail]. *)
Definition render_attribute (sp name value tail : string) : string :=
  sp ++ name ++ "=" ++ Py.DQ ++ value ++ Py.DQ ++ tail.

(** A tag in the fixed attribute order. An optional attribute comes with
    the whitespace in front of it. *)
Record Tag := mkTag {
  tag_space : string;
  tag_type : string;
  tag_language : option (string * string);
  tag_title : option (string * string);
  tag_body : string
}.

Definition render_optional (name : string) (o : option (string * string))
           (tail : string) : string :=
  match o with
  | Some (sp, v) => render_attribute sp name v tail
  | None => tail
  end.

(** The text of a tag, followed by [tail]. *)
Definition render (t : Tag) (tail : string) : string :=
  "<artifact" ++
  render_attribute (tag_space t) "type" (tag_type t) (
  render_optional "language" (tag_language t) (
  render_optional "title" (tag_title t) (
  ">" ++ tag_body t ++ "</artifact>" ++ tail))).

Definition optional_ok (o : option (string * string)) : bool :=
  match o with
  | Some (sp, v) => blank sp && attr_value v
  | None => true
  end.

(** The body of a tag ends at the first closing tag. *)
Definition well_formed (t : Tag) : bool :=
  blank (tag_space t) && attr_value (tag_type t)
  && optional_ok (tag_language t) && optional_ok (tag_title t)
  && negb (Py.contains "</artifact>" (tag_body t)).

Definition optional_value (o : option (string * string)) : option string :=
  match o with Some (_, v) => Some v | None => None end.

(** The captures [re.findall] reports for a tag. *)
Definition groups_of (t : Tag) : TagGroups :=
  mkGroups (tag_type t)
           (default EmptyString (optional_value (tag_language t)))
           (default EmptyString (optional_value (tag_title t)))
           (tag_body t).

(** The first character of [s], if any, is outside the class. *)
Definition stops (cls : ascii -> bool) (s : string) : Prop :=
  match s with
  | EmptyString => True
  | String c _ => cls c = false
  end.

(** ** Worlds *)

(** Every dict object of [w] is still there, unchanged, in [w']. *)
Definition heap_extends (w w' : World) : Prop :=
  forall a d, heap w !! a = Some d -> heap w' !! a = Some d.

(** What [_process_response] does with the captures of one match, as a
    relation between the captures and the artifact. *)
Definition made_from (n : nat) (m : TagGroups) (a : Artifact) : Prop :=
  art_type a = g_type m
  /\ art_title a = Py.str_or (g_title m) ("Artifact " ++ Py.str_of_nat n)%string
  /\ art_content a = Py.strip (g_content m)
  /\ art_language a = (if Py.truthy (g_language m) then Some (g_language m) else None).

(** ** Turns *)

(** The exception that leaves [_run_react_loop], if any: the one raised
    by the model, or the [TypeError] of an extraction that is handed
    [None]. *)
Definition failure_of (o : RunOutcome) : option Exn :=
  match o with
  | Raises e => Some e
  | Returns None => Some TypeError_not_a_string
  | Returns (Some _) => None
  end.

#[export] Instance StepType_eq_dec : EqDecision StepType.
Proof. solve_decision. Defined.

(** The ACTION steps of a step list. *)
Definition action_steps (steps : list ExecutionStep) : list ExecutionStep :=
  List.filter (fun s => bool_decide (step_type s = ACTION)) steps.

(** ** Event sequences *)

Definition is_token (e : Event) : bool :=
  match e with EvToken _ => true | _ => false end.

Definition is_artifact (e : Event) : bool :=
  match e with EvArtifact _ => true | _ => false end.

Definition is_final_answer (e : Event) : bool :=
  match e with
  | EvStep d => String.eqb (sd_type d) (StepType_value FINAL_ANSWER)
  | _ => false
  end.

Definition is_complete (e : Event) : bool :=
  match e with EvComplete _ _ _ => true | _ => false end.

Definition is_error (e : Event) : bool :=
  match e with EvError _ => true | _ => false end.

(** Every event that satisfies [p] comes before every event that
    satisfies [q]. *)
Definition precede (p q : Event -> bool) (events : list Event) : Prop :=
  forall i j x y,
    nth_error events i = Some x -> nth_error events j = Some y ->
    p x = true -> q y = true -> (i < j)%nat.

(** The contents of the token events, in emission order. *)
Fixpoint token_contents (events : list Event) : list string :=
  match events with
  | [] => []
  | EvToken c :: rest => c :: token_contents rest
  | _ :: rest => token_contents rest
  end.

(** The artifacts of the artifact events, in emission order. *)
Fixpoint artifact_events (events : list Event) : list ArtifactDict :=
  match events with
  | [] => []
  | EvArtifact a :: rest => a :: artifact_events rest
  | _ :: rest => artifact_events rest
  end.

(** ** Sessions *)

(** The record a turn on [sid] starts from: the one in the registry, or
    a new one, created at [created], when there is none. *)
Definition session_at_start (srv : Server) (sid : string) (created : Z) : Session :=
  default (mkSession sid created [] [] None) (sessions srv !! sid).

(** ** Snapshots *)

(** What a reader of a stored snapshot sees: its entries, and under
    [metadata] the present contents of the dict object it refers to. *)
Record SnapshotView := mkView {
  sv_id : string;
  sv_type : string;
  sv_title : string;
  sv_content : string;
  sv_language : option string;
  sv_metadata : Dict;
  sv_created_at : Z
}.

Definition read_snapshot (w : World) (d : ArtifactDict) : option SnapshotView :=
  match deref w (ad_metadata d) with
  | Some md =>
      Some (mkView (ad_id d) (ad_type d) (ad_title d) (ad_content d)
                   (ad_language d) md (ad_created_at d))
  | None => None
  end.

(** The ways of updating an [Artifact] object: binding one of its
    attributes to another value (for [metadata]: to another dict
    object), and changing its metadata dict in place, as
    [artifact.metadata.update(...)] does. *)
Inductive ArtifactUpdate :=
| SetType (v : string)
| SetTitle (v : string)
| SetContent (v : string)
| SetLanguage (v : option string)
| SetMetadata (d : Dict)
| UpdateMetadata (d : Dict).

Definition apply_update (u : ArtifactUpdate) (a : Artifact) : M Artifact :=
  match u with
  | SetType v =>
      mret (mkArtifact (art_id a) v (art_title a) (art_content a)
                       (art_language a) (art_metadata a) (art_created_at a))
  | SetTitle v =>
      mret (mkArtifact (art_id a) (art_type a) v (art_content a)
                       (art_language a) (art_metadata a) (art_created_at a))
  | SetContent v =>
      mret (mkArtifact (art_id a) (art_type a) (art_title a) v
                       (art_language a) (art_metadata a) (art_created_at a))
  | SetLanguage v =>
      mret (mkArtifact (art_id a) (art_type a) (art_title a) (art_content a)
                       v (art_metadata a) (art_created_at a))
  | SetMetadata d =>
      md ← new_dict d;
      mret (mkArtifact (art_id a) (art_type a) (art_title a) (art_content a)
                       (art_language a) md (art_created_at a))
  | UpdateMetadata d =>
      _ ← dict_update (art_metadata a) d;
      mret a
  end.

(** The update changes the metadata dict itself. *)
Definition in_place (u : ArtifactUpdate) : bool :=
  match u with UpdateMetadata _ => true | _ => false end.

(** ** The artifact store *)

(** Later artifacts first. *)
Definition newest_first (l : list ArtifactData) : Prop :=
  StronglySorted (fun a b => (data_created_at b <= data_created_at a)%Z) l.

(** The artifacts of the store that belong to session [sid]. *)
Definition of_session (self : ArtifactManager.t) (sid : string) : list ArtifactData :=
  List.filter (ArtifactManager.in_session sid) (OrderedDict.values self).

(** [d.update(m)] read key by key: a key of [m] has the value [m] gives
    it, every other key keeps the value it had. *)
Definition merged (m old new : Dict) : Prop :=
  forall k, new !! k = match m !! k with
                       | Some v => Some v
                       | None => old !! k
                       end.

(** ** The scan of a text *)

(** A text cut into the tags matched in it and the characters between
    them. *)
Inductive Piece :=
| Plain (c : ascii)
| Hit (t : Tag).

Fixpoint original (ps : list Piece) : string :=
  match ps with
  | [] => EmptyString
  | Plain c :: ps' => String c (original ps')
  | Hit t :: ps' => render t (original ps')
  end.

Fixpoint cleaned (ps : list Piece) : string :=
  match ps with
  | [] => EmptyString
  | Plain c :: ps' => String c (cleaned ps')
  | Hit _ :: ps' => placeholder ++ cleaned ps'
  end.

Fixpoint hits (ps : list Piece) : list Tag :=
  match ps with
  | [] => []
  | Plain _ :: ps' => hits ps'
  | Hit t :: ps' => t :: hits ps'
  end.

(** [Scanned s ps]: [ps] cuts [s] at the matches of the artifact pattern
    taken from left to right without overlap: a character is plain when
    the pattern does not match where it stands, and a hit is a
    well-formed tag that the pattern matches exactly. *)
Inductive Scanned : string -> list Piece -> Prop :=
| Scanned_end : Scanned EmptyString []
| Scanned_plain c s ps :
    artifact_pattern (String c s) = None ->
    Scanned s ps ->
    Scanned (String c s) (Plain c :: ps)
| Scanned_hit t rest ps :
    well_formed t = true ->
    artifact_pattern (render t rest) = Some (groups_of t, rest) ->
    Scanned rest ps ->
    Scanned (render t rest) (Hit t :: ps).

(** What the specification says of the artifact built from the [n]-th
    tag of a turn ([n] counted from 1). *)
Definition built_from (n : nat) (t : Tag) (a : Artifact) : Prop :=
  art_type a = tag_type t
  /\ art_title a = default ("Artifact " ++ Py.str_of_nat n)%string
                           (optional_value (tag_title t))
  /\ art_content a = Py.strip (tag_body t)
  /\ art_language a = optional_value (tag_language t).

(** ** Tags with their attributes in any order *)

Record LooseTag := mkLoose {
  loose_attrs : list (string * string * string);
  loose_body : string
}.

Fixpoint render_attrs (attrs : list (string * string * string)) (tail : string)
  : string :=
  match attrs with
  | [] => tail
  | (sp, name, v) :: rest => render_attribute sp name v (render_attrs rest tail)
  end.

Definition render_loose (t : LooseTag) (tail : string) : string :=
  "<artifact" ++
  render_attrs (loose_attrs t) (">" ++ loose_body t ++ "</artifact>" ++ tail).

Inductive AttrName := AType | ALanguage | ATitle.

Definition attr_name (n : AttrName) : string :=
  match n with
  | AType => "type"
  | ALanguage => "language"
  | ATitle => "title"
  end.

Definition loose_attr_text (a : string * AttrName * string)
  : string * string * string :=
  let '(sp, n, v) := a in (sp, attr_name n, v).

Definition loose_attr_ok (a : string * AttrName * string) : bool :=
  let '(sp, _, v) := a in blank sp && attr_value v.

Definition AttrName_eqb (a b : AttrName) : bool :=
  match a, b with
  | AType, AType | ALanguage, ALanguage | ATitle, ATitle => true
  | _, _ => false
  end.

Definition loose_name (a : string * AttrName * string) : AttrName := snd (fst a).
Definition loose_value (a : string * AttrName * string) : string := snd a.

(** type, then optional language, then optional title. *)
Definition fixed_order (names : list AttrName) : bool :=
  match names with
  | [AType] | [AType; ALanguage] | [AType; ATitle]
  | [AType; ALanguage; ATitle] => true
  | _ => false
  end.

(** No character of [s] opens a tag. *)
Definition no_lt (s : string) : bool :=
  Py.all_chars (fun c => negb (Ascii.eqb c "<"%char)) s.

(** ** Well-formed stores *)

(** What makes an association list a dict of the artifact store: no id
    twice, and every artifact under its own id. *)
Definition store_ok (self : ArtifactManager.t) : Prop :=
  List.NoDup (List.map fst self)
  /\ Forall (fun item => fst item = data_id (snd item)) self.

(** The ids of the store, in insertion order. *)
Definition ids (self : ArtifactManager.t) : list string := List.map fst self.

(** ** Extracted artifacts *)

(** What an artifact says, apart from its id, its date and its metadata
    object. *)
Definition said (a : Artifact) : string * string * option string * string :=
  (art_type a, art_title a, art_language a, art_content a).

(** What a step says, apart from its id and its date. *)
Definition step_said (s : ExecutionStep) : StepType * string :=
  (step_type s, step_content s).

(** A type and a title that are not empty, a content without whitespace
    at either end, and a language that is absent or not empty. *)
Definition tidy (a : Artifact) : Prop :=
  Py.truthy (art_type a) = true
  /\ Py.truthy (art_title a) = true
  /\ Py.strip (art_content a) = art_content a
  /\ match art_language a with
     | Some l => Py.truthy l = true
     | None => True
     end.

(** What the artifacts built from the captures [ms] say, when [n]
    artifacts came before them. *)
Fixpoint announced (n : nat) (ms : list TagGroups)
  : list (string * string * option string * string) :=
  match ms with
  | [] => []
  | m :: rest =>
      (g_type m,
       Py.str_or (g_title m) ("Artifact " ++ Py.str_of_nat (n + 1))%string,
       (if Py.truthy (g_language m) then Some (g_language m) else None),
       Py.strip (g_content m))
      :: announced (n + 1) rest
  end.

(** The step that opens every turn. *)
Definition opening_thought (user_message : string) : StepType * string :=
  (THOUGHT, ("Analyzing request: " ++ user_message)%string).

(** What a stored snapshot says. *)
Definition snapshot_said (d : ArtifactDict) : string * string * option string * string :=
  (ad_type d, ad_title d, ad_language d, ad_content d).

(** What a message of a history says, apart from its date. *)
Definition spoken (m : Message) : string * string := (msg_role m, msg_content m).

(** ** Metadata passed by the caller *)

(** The dict object that [metadata or {}] keeps: the one passed in, when
    it is not empty. *)
Definition kept_metadata (metadata : option nat) (w : World) : option nat :=
  match metadata with
  | Some a =>
      match deref w a with
      | Some d => if decide (d = ∅) then None else Some a
      | None => None
      end
  | None => None
  end.

(** The artifacts of a list created at instant [z], in the order of the
    list. *)
Definition created_at_instant (z : Z) (l : list ArtifactData) : list ArtifactData :=
  List.filter (fun a => (data_created_at a =? z)%Z) l.

(** The artifacts [list_all] selects, in the order of the store. *)
Definition selected (self : ArtifactManager.t) (session_id : option string)
  : list ArtifactData :=
  match session_id with
  | Some x => if Py.truthy x then of_session self x else OrderedDict.values self
  | None => OrderedDict.values self
  end.

(** ** Sample inputs *)

Definition sample_world : World :=
  mkWorld (fun n => ("id-" ++ Py.str_of_nat n)%string) 0
          (fun n => (1000 + 10 * Z.of_nat n)%Z) 0 ∅.

Definition sample_agent (reply : RunOutcome) (chunks : StreamOutcome) : BaseAgent :=
  mkAgent (fun _ => reply) (fun _ => chunks) None [] [].

(** The example of the specification:
    before, a code artifact in python titled Demo, after. *)
Definition demo_text : string :=
  "before <artifact type=" ++ Py.DQ ++ "code" ++ Py.DQ
  ++ " language=" ++ Py.DQ ++ "python" ++ Py.DQ
  ++ " title=" ++ Py.DQ ++ "Demo" ++ Py.DQ
  ++ ">print(1)</artifact> after".

(** Two artifacts without a title. *)
Definition untitled_text : string :=
  "<artifact type=" ++ Py.DQ ++ "text" ++ Py.DQ ++ "> a </artifact> and "
  ++ "<artifact type=" ++ Py.DQ ++ "html" ++ Py.DQ ++ "><p>b</p></artifact>".

(** A message of [n] characters. *)
Fixpoint filler (n : nat) : string :=
  match n with
  | O => EmptyString
  | S k => String "a" (filler k)
  end.

Definition sample_server : Server :=
  mkServer ∅ (sample_agent (Returns (Some demo_text)) (mkStream [] None)).

(** The state after one turn on session s1 whose reply is the example
    text, the artifact it produced and the snapshot stored for it. *)
Definition after_demo_turn : Server * ChatResponse * World :=
  chat sample_server (mkChatMessage "hello" (Some "s1") None) sample_world.

Definition demo_artifact : Artifact :=
  mkArtifact "id-1" "code" "Demo" "print(1)" (Some "python") 0 1040.

Definition demo_snapshot : ArtifactDict := Artifact_to_dict demo_artifact.

(** A store with one artifact of session s1 whose metadata has the key
    author, in the world where its dict lives. *)
Definition stocked : ArtifactManager.t * World :=
  let '(md, w) := new_dict {[ "author" := VStr "atlas" ]} sample_world in
  let '(store, _, w) :=
    ArtifactManager.create [] "code" "First" "x = 1" (Some "python") (Some "s1")
                           (Some md) w in
  (store, w).

(** A store holding one artifact, of session s1, and a world in which
    its metadata dict, at address 0, has the key author. *)
Definition tiny_artifact : ArtifactData :=
  mkData "a1" "code" "First" "x = 1" (Some "python") (Some "s1") 0 5 5.

Definition tiny_store : ArtifactManager.t := [("a1", tiny_artifact)].

Definition tiny_world : World :=
  mkWorld (fun _ => "id") 0 (fun n => (100 + Z.of_nat n)%Z) 0
          {[ 0%nat := ({[ "author" := VStr "atlas" ]} : Dict) ]}.

(** A store of three artifacts, two of session s1 created at the same
    instant and one of session s2 created later. *)
Definition shelf : ArtifactManager.t :=
  [("a1", tiny_artifact);
   ("a2", mkData "a2" "document" "Notes" "# notes" None (Some "s2") 1 7 7);
   ("a3", mkData "a3" "code" "Second" "y = 2" (Some "Python") (Some "s1") 2 5 5)].

(** A tag with title before type. *)
Definition swapped_attrs : list (string * AttrName * string) :=
  [(" ", ATitle, "Demo"); (" ", AType, "code")].

(* ===================================================================== *)
(** * Facts about text *)
(* ===================================================================== *)

#[local] Arguments String.append !s1 s2 : simpl nomatch.
Local Open Scope string_scope.

Module StrFacts.

Lemma app_assoc (a b c : string) : ((a ++ b) ++ c)%string = (a ++ (b ++ c))%string.
Proof. induction a as [|x a IH]; simpl; [reflexivity|]. now rewrite IH. Qed.

Lemma app_nil_r (a : string) : (a ++ EmptyString)%string = a.
Proof. induction a as [|x a IH]; simpl; [reflexivity|]. now rewrite IH. Qed.

Lemma length_app (a b : string) :
  String.length (a ++ b) = (String.length a + String.length b)%nat.
Proof. induction a as [|x a IH]; simpl; [reflexivity|]. now rewrite IH. Qed.

Lemma all_chars_app p (a b : string) :
  Py.all_chars p (a ++ b) = Py.all_chars p a && Py.all_chars p b.
Proof.
  induction a as [|x a IH]; simpl; [reflexivity|].
  rewrite IH. now rewrite andb_assoc.
Qed.

Lemma startswith_split (p s : string) :
  Py.startswith p s = true -> exists s', s = (p ++ s')%string.
Proof.
  revert s. induction p as [|a p IH]; intros s H.
  - exists s. reflexivity.
  - destruct s as [|b s]; simpl in H; [discriminate|].
    apply andb_prop in H as [Hab Hp].
    apply Ascii.eqb_eq in Hab. subst b.
    destruct (IH _ Hp) as [s' ->]. exists s'. reflexivity.
Qed.

Lemma contains_split (p s : string) :
  Py.contains p s = true ->
  exists s1 s2, s = (s1 ++ p ++ s2)%string.
Proof.
  induction s as [|c s IH]; simpl; intros H.
  - rewrite orb_false_r in H. apply startswith_split in H as [s' ->].
    exists EmptyString, s'. reflexivity.
  - apply orb_prop in H as [H|H].
    + apply startswith_split in H as [s' ->].
      exists EmptyString, s'. reflexivity.
    + destruct (IH H) as (s1 & s2 & ->).
      exists (String c s1), s2. reflexivity.
Qed.

Lemma is_space_not_gt c : Py.is_space c = true -> Ascii.eqb ">"%char c = false.
Proof.
  intros H. destruct (Ascii.eqb_spec ">"%char c) as [<-|]; [|reflexivity].
  vm_compute in H. discriminate.
Qed.

Lemma truthy_app_l (a b : string) : Py.truthy a = true -> Py.truthy (a ++ b) = true.
Proof. destruct a; simpl; [discriminate|reflexivity]. Qed.

End StrFacts.

(* ===================================================================== *)
(** * Facts about the matcher *)
(* ===================================================================== *)

Module ReFacts.
Section Combinators.
Context {R : Type}.
Implicit Types (k : Re.cont (R:=R)) (r : R).

Lemma lit_app p k s : Re.lit p k (p ++ s) = k s.
Proof.
  induction p as [|a p IH]; simpl; [reflexivity|].
  now rewrite Ascii.eqb_refl.
Qed.

Lemma lit_cat p q k s : Re.lit (p ++ q) k s = Re.lit p (Re.lit q k) s.
Proof.
  revert s. induction p as [|a p IH]; intros s; simpl; [reflexivity|].
  destruct s as [|b s]; [reflexivity|].
  destruct (Ascii.eqb a b); [apply IH|reflexivity].
Qed.

Lemma lit_inv p k s r :
  Re.lit p k s = Some r -> exists s', s = (p ++ s')%string /\ k s' = Some r.
Proof.
  revert s. induction p as [|a p IH]; intros s H; simpl in H.
  - exists s. split; [reflexivity|assumption].
  - destruct s as [|b s]; [discriminate|].
    destruct (Ascii.eqb_spec a b) as [<-|]; [|discriminate].
    destruct (IH _ H) as (s' & -> & Hk).
    exists s'. split; [reflexivity|assumption].
Qed.

Lemma plus_greedy_inv cls (k : string -> Re.cont (R:=R)) s r :
  Re.plus_greedy cls k s = Some r ->
  exists m s', s = (m ++ s')%string /\ Py.truthy m = true
               /\ Py.all_chars cls m = true /\ k m s' = Some r.
Proof.
  revert k. induction s as [|c s IH]; intros k H; simpl in H; [discriminate|].
  destruct (cls c) eqn:Hc; [|discriminate].
  destruct (Re.plus_greedy cls (fun m => k (String c m)) s) as [r0|] eqn:Hin.
  - injection H as <-.
    destruct (IH _ Hin) as (m & s' & -> & _ & Hall & Hk).
    exists (String c m), s'. simpl. rewrite Hc, Hall. auto.
  - exists (String c EmptyString), s. simpl. rewrite Hc. auto.
Qed.

Lemma plus_greedy_stops cls (k : string -> Re.cont (R:=R)) s :
  stops cls s -> Re.plus_greedy cls k s = None.
Proof. destruct s as [|c s]; simpl; [reflexivity|]. now intros ->. Qed.

(** A greedy run followed by a literal that starts outside the class
    takes the whole run. *)
Lemma plus_greedy_then_lit cls a p (k : string -> Re.cont (R:=R)) m s :
  cls a = false ->
  Py.truthy m = true -> Py.all_chars cls m = true -> stops cls s ->
  Re.plus_greedy cls (fun v => Re.lit (String a p) (k v)) (m ++ s)
  = Re.lit (String a p) (k m) s.
Proof.
  intros Ha Hm Hall Hs. revert k.
  induction m as [|c m IH]; intros k; [discriminate|].
  simpl in Hall. apply andb_prop in Hall as [Hc Hall].
  change (String c m ++ s)%string with (String c (m ++ s)).
  cbn [Re.plus_greedy]. rewrite Hc.
  destruct m as [|c' m'].
  - change (EmptyString ++ s)%string with s.
    rewrite plus_greedy_stops by assumption. reflexivity.
  - rewrite (IH eq_refl Hall (fun v => k (String c v))).
    destruct (Re.lit (String a p) (k (String c (String c' m'))) s); [reflexivity|].
    simpl in Hall. apply andb_prop in Hall as [Hc' _].
    simpl. destruct (Ascii.eqb_spec a c') as [->|]; [congruence|reflexivity].
Qed.

(** A lazy run stops at the first place where the continuation
    succeeds. *)
Lemma star_lazy_inv cls (k : string -> Re.cont (R:=R)) s r :
  Re.star_lazy cls k s = Some r ->
  exists m s', s = (m ++ s')%string /\ Py.all_chars cls m = true
               /\ k m s' = Some r
               /\ forall m1 m2, m = (m1 ++ m2)%string -> Py.truthy m2 = true ->
                                k m1 (m2 ++ s') = None.
Proof.
  revert k. induction s as [|c s IH]; intros k H.
  - simpl in H. destruct (k EmptyString EmptyString) as [r0|] eqn:Hk; [|discriminate].
    injection H as <-. exists EmptyString, EmptyString.
    repeat split; auto.
    intros [|] [|]; simpl; discriminate.
  - simpl in H. destruct (k EmptyString (String c s)) as [r0|] eqn:Hk.
    + injection H as <-. exists EmptyString, (String c s).
      repeat split; auto.
      intros [|] [|]; simpl; discriminate.
    + destruct (cls c) eqn:Hc; [|discriminate].
      destruct (IH _ H) as (m & s' & -> & Hall & Hkm & Hmin).
      exists (String c m), s'. simpl. rewrite Hc, Hall.
      repeat split; auto.
      intros [|x m1] m2 E Hm2.
      * simpl in E. subst m2. simpl. exact Hk.
      * simpl in E. injection E as <- ->. now apply Hmin.
Qed.

End Combinators.
End ReFacts.

(** ** One attribute *)

Module AttrFacts.
Section Attribute.
Context {R : Type}.
Implicit Types (k : string -> Re.cont (R:=R)) (r : R).

Lemma blank_inv sp :
  blank sp = true -> Py.truthy sp = true /\ Py.all_chars Py.is_space sp = true.
Proof. unfold blank. intros H. now apply andb_prop in H. Qed.

Lemma attr_value_inv v :
  attr_value v = true ->
  Py.truthy v = true /\ Py.all_chars Py.not_dquote v = true.
Proof. unfold attr_value. intros H. now apply andb_prop in H. Qed.

(** After the whitespace, the attribute is decided by its name. *)
Lemma attribute_enter n k sp s :
  blank sp = true -> stops Py.is_space s ->
  attribute (attr_name n) k (sp ++ s)
  = Re.lit (attr_name n ++ "=" ++ Py.DQ)
           (Re.plus_greedy Py.not_dquote (fun v => Re.lit Py.DQ (k v))) s.
Proof.
  intros [Hne Hall]%blank_inv Hs. unfold attribute.
  set (K := Re.plus_greedy Py.not_dquote (fun v => Re.lit Py.DQ (k v))).
  destruct n.
  - exact (ReFacts.plus_greedy_then_lit Py.is_space "t" ("ype" ++ "=" ++ Py.DQ)
             (fun _ => K) sp s eq_refl Hne Hall Hs).
  - exact (ReFacts.plus_greedy_then_lit Py.is_space "l" ("anguage" ++ "=" ++ Py.DQ)
             (fun _ => K) sp s eq_refl Hne Hall Hs).
  - exact (ReFacts.plus_greedy_then_lit Py.is_space "t" ("itle" ++ "=" ++ Py.DQ)
             (fun _ => K) sp s eq_refl Hne Hall Hs).
Qed.

Lemma attr_name_stops n s : stops Py.is_space (attr_name n ++ s).
Proof. destruct n; reflexivity. Qed.

Lemma attribute_hit n k sp v tail :
  blank sp = true -> attr_value v = true ->
  attribute (attr_name n) k (render_attribute sp (attr_name n) v tail) = k v tail.
Proof.
  intros Hsp [Hne Hall]%attr_value_inv. unfold render_attribute.
  rewrite attribute_enter by (assumption || apply attr_name_stops).
  rewrite ReFacts.lit_cat, ReFacts.lit_app, ReFacts.lit_cat, !ReFacts.lit_app.
  etransitivity;
    [exact (ReFacts.plus_greedy_then_lit Py.not_dquote Py.dquote EmptyString
              k v (Py.DQ ++ tail) eq_refl Hne Hall eq_refl)|].
  apply (ReFacts.lit_app Py.DQ).
Qed.

Lemma attribute_miss n n' k sp v tail :
  n <> n' -> blank sp = true ->
  attribute (attr_name n) k (render_attribute sp (attr_name n') v tail) = None.
Proof.
  intros Hn Hsp. unfold render_attribute.
  rewrite attribute_enter by (assumption || apply attr_name_stops).
  destruct n, n'; try congruence; reflexivity.
Qed.

Lemma attribute_stops name k s :
  stops Py.is_space s -> attribute name k s = None.
Proof. intros Hs. unfold attribute. now apply ReFacts.plus_greedy_stops. Qed.

Lemma attribute_inv name k s r :
  attribute name k s = Some r ->
  exists sp v tail, s = render_attribute sp name v tail
                    /\ blank sp = true /\ attr_value v = true
                    /\ k v tail = Some r.
Proof.
  unfold attribute. intros H.
  apply ReFacts.plus_greedy_inv in H as (sp & s1 & -> & Hsp1 & Hsp2 & H).
  apply ReFacts.lit_inv in H as (s2 & -> & H).
  apply ReFacts.plus_greedy_inv in H as (v & s3 & -> & Hv1 & Hv2 & H).
  apply ReFacts.lit_inv in H as (tail & -> & H).
  exists sp, v, tail. unfold render_attribute, blank, attr_value.
  rewrite Hsp1, Hsp2, Hv1, Hv2. repeat split; try assumption.
  now rewrite !StrFacts.app_assoc.
Qed.

Lemma gt_blank (k : Re.cont (R:=R)) sp s :
  blank sp = true -> Re.lit ">" k (sp ++ s) = None.
Proof.
  intros [Hne Hall]%blank_inv. destruct sp as [|c sp]; [discriminate|].
  simpl in Hall. apply andb_prop in Hall as [Hc _].
  change (Re.lit ">" k (String c sp ++ s))
    with (if Ascii.eqb ">"%char c then k (sp ++ s) else None).
  now rewrite (StrFacts.is_space_not_gt c Hc).
Qed.

Lemma gt_attribute (k : Re.cont (R:=R)) sp name v tail :
  blank sp = true -> Re.lit ">" k (render_attribute sp name v tail) = None.
Proof. apply gt_blank. Qed.

End Attribute.
End AttrFacts.

(** ** The artifact pattern *)

Module PatternFacts.

Lemma optional_inv {R : Type} n (k : string -> Re.cont (R:=R)) s r :
  Re.opt_greedy (attribute (attr_name n)) k s = Some r ->
  exists o tail, s = render_optional (attr_name n) o tail
                 /\ optional_ok o = true
                 /\ k (default EmptyString (optional_value o)) tail = Some r.
Proof.
  unfold Re.opt_greedy. intros H.
  destruct (attribute (attr_name n) k s) as [r0|] eqn:E.
  - injection H as ->.
    apply AttrFacts.attribute_inv in E as (sp & v & tail & -> & Hsp & Hv & Hk).
    exists (Some (sp, v)), tail. simpl. rewrite Hsp, Hv. auto.
  - exists None, s. auto.
Qed.

(** A match is the text of a well-formed tag, and its captures are the
    parts of that tag. *)
Lemma match_sound s g rest :
  artifact_pattern s = Some (g, rest) ->
  exists t, well_formed t = true /\ s = render t rest /\ g = groups_of t.
Proof.
  unfold artifact_pattern. intros H.
  apply ReFacts.lit_inv in H as (s1 & -> & H).
  apply AttrFacts.attribute_inv in H as (sp & ty & s2 & -> & Hsp & Hty & H).
  apply (optional_inv ALanguage) in H as (ol & s3 & -> & Hol & H).
  apply (optional_inv ATitle) in H as (ot & s4 & -> & Hot & H).
  apply ReFacts.lit_inv in H as (s5 & -> & H).
  apply ReFacts.star_lazy_inv in H as (body & s6 & -> & _ & H & Hmin).
  apply ReFacts.lit_inv in H as (s7 & -> & H).
  injection H as <- <-.
  exists (mkTag sp ty ol ot body). split; [|split; reflexivity].
  unfold well_formed. simpl. rewrite Hsp, Hty, Hol, Hot. simpl.
  destruct (Py.contains "</artifact>" body) eqn:Hc; [|reflexivity].
  apply StrFacts.contains_split in Hc as (b1 & b2 & ->).
  specialize (Hmin b1 ("</artifact>" ++ b2) eq_refl eq_refl).
  rewrite StrFacts.app_assoc, ReFacts.lit_app in Hmin. discriminate.
Qed.

(** The pattern only matches where a [<] stands. *)
Lemma no_match_without_lt c s :
  c <> "<"%char -> artifact_pattern (String c s) = None.
Proof.
  intros Hc. unfold artifact_pattern.
  change (Re.lit "<artifact" ?k (String c s))
    with (if Ascii.eqb "<"%char c then Re.lit "artifact" k s else None).
  destruct (Ascii.eqb_spec "<"%char c); [congruence|reflexivity].
Qed.

Lemma no_match_at_closing s : artifact_pattern ("</artifact>" ++ s) = None.
Proof. reflexivity. Qed.

Lemma no_match_at_end : artifact_pattern EmptyString = None.
Proof. reflexivity. Qed.

(** The text of a tag is never empty: it starts with [<]. *)
Lemma render_cons t tail :
  exists x, render t tail = String "<" (x ++ tail).
Proof.
  unfold render, render_attribute.
  exists ("artifact" ++ tag_space t ++ "type" ++ "=" ++ Py.DQ ++ tag_type t ++ Py.DQ
          ++ render_optional "language" (tag_language t)
               (render_optional "title" (tag_title t)
                  (">" ++ tag_body t ++ "</artifact>"))).
  change ("<artifact" ++ ?x) with (String "<" ("artifact" ++ x)).
  f_equal.
  rewrite !StrFacts.app_assoc. do 7 f_equal.
  destruct (tag_language t) as [[sp1 v1]|], (tag_title t) as [[sp2 v2]|];
    unfold render_optional, render_attribute;
    rewrite ?StrFacts.app_assoc; reflexivity.
Qed.

End PatternFacts.

(** ** The scan *)

Module ScanFacts.

Section Skip.
Context {G : Type} (p : Re.pattern G).

Lemma findall_from_skip m s :
  Re.findall_from p (String.length m) (m ++ s) = Re.findall_from p 0 s.
Proof. induction m as [|c m IH]; simpl; [reflexivity|exact IH]. Qed.

Lemma sub_from_skip repl m s :
  Re.sub_from p repl (String.length m) (m ++ s) = Re.sub_from p repl 0 s.
Proof. induction m as [|c m IH]; simpl; [reflexivity|exact IH]. Qed.

(** Where the pattern matches nowhere inside a prefix, the prefix is
    copied and the scan goes on behind it. *)
Lemma findall_prefix x y :
  (forall x1 c x2, x = x1 ++ String c x2 -> p (String c (x2 ++ y)) = None) ->
  Re.findall p (x ++ y) = Re.findall p y.
Proof.
  unfold Re.findall. induction x as [|c x IH]; intros H; [reflexivity|].
  simpl. rewrite (H EmptyString c x eq_refl).
  apply IH. intros x1 d x2 ->. exact (H (String c x1) d x2 eq_refl).
Qed.

Lemma sub_prefix repl x y :
  (forall x1 c x2, x = x1 ++ String c x2 -> p (String c (x2 ++ y)) = None) ->
  Re.sub p repl (x ++ y) = x ++ Re.sub p repl y.
Proof.
  unfold Re.sub. induction x as [|c x IH]; intros H; [reflexivity|].
  simpl. rewrite (H EmptyString c x eq_refl). f_equal.
  apply IH. intros x1 d x2 ->. exact (H (String c x1) d x2 eq_refl).
Qed.

End Skip.

(** Every text has a scan, and [findall] and [sub] both follow it. *)
Lemma scan_exists s :
  exists ps, Scanned s ps /\ original ps = s
             /\ Re.findall artifact_pattern s = List.map groups_of (hits ps)
             /\ Re.sub artifact_pattern placeholder s = cleaned ps.
Proof.
  remember (String.length s) as n eqn:Hn.
  assert (String.length s <= n)%nat as Hle by lia. clear Hn.
  revert s Hle. induction n as [|n IH]; intros s Hle.
  - destruct s; [|simpl in Hle; lia].
    exists []. repeat split; constructor.
  - destruct s as [|c s].
    { exists []. repeat split; constructor. }
    destruct (artifact_pattern (String c s)) as [[g rest]|] eqn:Hm.
    + destruct (PatternFacts.match_sound _ _ _ Hm) as (t & Hwf & Hs & ->).
      destruct (PatternFacts.render_cons t rest) as (x & Hx).
      assert (c = "<"%char /\ s = x ++ rest) as [-> ->].
      { rewrite Hx in Hs. now injection Hs. }
      destruct (IH rest) as (ps & Hsc & Hor & Hfa & Hsu).
      { simpl in Hle. rewrite StrFacts.length_app in Hle. lia. }
      exists (Hit t :: ps).
      assert (String.length (String "<" (x ++ rest)) - String.length rest - 1
              = String.length x)%nat as Hskip.
      { simpl. rewrite StrFacts.length_app. lia. }
      split; [|split; [|split]].
      * rewrite Hs. constructor; [assumption| now rewrite <- Hs |assumption].
      * simpl. now rewrite Hor.
      * unfold Re.findall. cbn [Re.findall_from]. rewrite Hm, Hskip.
        rewrite findall_from_skip. simpl. f_equal. exact Hfa.
      * unfold Re.sub. cbn [Re.sub_from]. rewrite Hm, Hskip.
        rewrite sub_from_skip. cbn [cleaned]. f_equal. exact Hsu.
    + destruct (IH s) as (ps & Hsc & Hor & Hfa & Hsu).
      { simpl in Hle. lia. }
      exists (Plain c :: ps). split; [|split; [|split]].
      * now constructor.
      * simpl. now rewrite Hor.
      * unfold Re.findall. cbn [Re.findall_from]. rewrite Hm. exact Hfa.
      * unfold Re.sub. cbn [Re.sub_from cleaned]. rewrite Hm. f_equal. exact Hsu.
Qed.

End ScanFacts.

(* ===================================================================== *)
(** * Facts about the agent *)
(* ===================================================================== *)

Module WorldFacts.

Lemma heap_extends_refl w : heap_extends w w.
Proof. intros a d H. exact H. Qed.

Lemma heap_extends_trans w1 w2 w3 :
  heap_extends w1 w2 -> heap_extends w2 w3 -> heap_extends w1 w3.
Proof. intros H12 H23 a d H. apply H23, H12, H. Qed.

Lemma fresh_unused w : heap w !! fresh (dom (heap w)) = None.
Proof. apply (not_elem_of_dom (D:=gset nat)). apply is_fresh. Qed.

Lemma new_dict_extends d w : heap_extends w (snd (new_dict d w)).
Proof.
  intros a x H. simpl. rewrite lookup_insert_ne; [exact H|].
  intros <-. rewrite fresh_unused in H. discriminate.
Qed.

Lemma new_dict_lookup d w : heap (snd (new_dict d w)) !! fst (new_dict d w) = Some d.
Proof. simpl. apply lookup_insert_eq. Qed.

Lemma ExecutionStep_new_run t c w :
  ExecutionStep_new t c w =
  (mkStep (uuid_src w (uuid_drawn w)) t c None None None
          (clock_src w (clock_reads w)) None,
   mkWorld (uuid_src w) (S (uuid_drawn w)) (clock_src w) (S (clock_reads w)) (heap w)).
Proof. reflexivity. Qed.

Lemma Artifact_new_run ty ti co la w :
  Artifact_new ty ti co la w =
  (mkArtifact (uuid_src w (uuid_drawn w)) ty ti co la (fresh (dom (heap w)))
              (clock_src w (clock_reads w)),
   mkWorld (uuid_src w) (S (uuid_drawn w)) (clock_src w) (S (clock_reads w))
           (<[fresh (dom (heap w)) := ∅]> (heap w))).
Proof. reflexivity. Qed.

End WorldFacts.

Module ExtractFacts.

Lemma extract_one_artifacts self m w :
  exists a, artifacts (fst (extract_one self m w)) = (artifacts self ++ [a])%list
            /\ made_from (List.length (artifacts self) + 1) m a
            /\ heap (snd (extract_one self m w)) !! art_metadata a = Some ∅.
Proof.
  unfold extract_one, mbind, M_bind. rewrite WorldFacts.Artifact_new_run.
  eexists. split; [reflexivity|]. split.
  - repeat split.
  - simpl. apply lookup_insert_eq.
Qed.

Lemma extract_one_frame self m w :
  execution_steps (fst (extract_one self m w)) = execution_steps self
  /\ current_session_id (fst (extract_one self m w)) = current_session_id self
  /\ agent_run (fst (extract_one self m w)) = agent_run self
  /\ agent_run_stream (fst (extract_one self m w)) = agent_run_stream self
  /\ heap_extends w (snd (extract_one self m w))
  /\ (clock_reads w <= clock_reads (snd (extract_one self m w)))%nat.
Proof.
  unfold extract_one, mbind, M_bind. rewrite WorldFacts.Artifact_new_run.
  repeat split; [exact (WorldFacts.new_dict_extends ∅ w)|simpl; lia].
Qed.

Lemma extract_all_frame ms : forall self w,
  execution_steps (fst (extract_all ms self w)) = execution_steps self
  /\ current_session_id (fst (extract_all ms self w)) = current_session_id self
  /\ agent_run (fst (extract_all ms self w)) = agent_run self
  /\ agent_run_stream (fst (extract_all ms self w)) = agent_run_stream self
  /\ heap_extends w (snd (extract_all ms self w))
  /\ (clock_reads w <= clock_reads (snd (extract_all ms self w)))%nat.
Proof.
  induction ms as [|m ms IH]; intros self w.
  - repeat split; [apply WorldFacts.heap_extends_refl|simpl; lia].
  - cbn [extract_all]. unfold mbind, M_bind.
    destruct (extract_one_frame self m w) as (E1 & E2 & E3 & E4 & E5 & E6).
    destruct (extract_one self m w) as [self1 w1]. simpl in *.
    destruct (IH self1 w1) as (F1 & F2 & F3 & F4 & F5 & F6).
    rewrite F1, F2, F3, F4, E1, E2, E3, E4. repeat split; [|lia].
    eapply WorldFacts.heap_extends_trans; eassumption.
Qed.

(** The artifacts appended by the loop, one per match and in the order of
    the matches. *)
Lemma extract_all_artifacts ms : forall self w,
  exists created,
    artifacts (fst (extract_all ms self w)) = (artifacts self ++ created)%list
    /\ List.length created = List.length ms
    /\ (forall i m, nth_error ms i = Some m ->
         exists a, nth_error created i = Some a
                   /\ made_from (List.length (artifacts self) + i + 1) m a)
    /\ (forall a, In a created ->
         heap (snd (extract_all ms self w)) !! art_metadata a = Some ∅).
Proof.
  induction ms as [|m ms IH]; intros self w.
  - exists []. simpl. rewrite app_nil_r. repeat split; try easy.
    intros [|i] m; discriminate.
  - cbn [extract_all]. unfold mbind, M_bind.
    destruct (extract_one_artifacts self m w) as (a & Ea & Hmade & Hheap).
    destruct (extract_one self m w) as [self1 w1]. simpl in Ea, Hheap.
    destruct (IH self1 w1) as (created & Ec & Hlen & Hnth & Hmd).
    destruct (extract_all_frame ms self1 w1) as (_ & _ & _ & _ & Hext & _).
    exists (a :: created). rewrite Ec, Ea, <- app_assoc. simpl.
    split; [reflexivity|]. split; [now rewrite Hlen|]. split.
    + intros [|i] m' Hi; simpl in Hi.
      * injection Hi as <-. exists a. split; [reflexivity|].
        now rewrite Nat.add_0_r.
      * destruct (Hnth i m' Hi) as (a' & Ha' & Hm').
        exists a'. split; [assumption|].
        rewrite Ea, length_app in Hm'. simpl in Hm'.
        now replace (List.length (artifacts self) + S i + 1)%nat
          with (List.length (artifacts self) + 1 + i + 1)%nat by lia.
    + intros a' [<-|Hin]; [now apply Hext|now apply Hmd].
Qed.

Lemma process_response_run self response w :
  _process_response self response w =
  ((fst (extract_all (Re.findall artifact_pattern response) self w),
    Re.sub artifact_pattern placeholder response),
   snd (extract_all (Re.findall artifact_pattern response) self w)).
Proof.
  unfold _process_response, mbind, M_bind.
  now destruct (extract_all _ self w).
Qed.

End ExtractFacts.

(** ** Tags that are not in the fixed order *)

Module LooseFacts.

Section Attribute.
Context {R : Type}.
Implicit Types (k : string -> Re.cont (R:=R)).

Lemma attribute_at n k sp n' v tail :
  blank sp = true -> attr_value v = true ->
  attribute (attr_name n) k (render_attribute sp (attr_name n') v tail)
  = if AttrName_eqb n n' then k v tail else None.
Proof.
  intros Hsp Hv. destruct (AttrName_eqb n n') eqn:E.
  - assert (n = n') as <- by (destruct n, n'; congruence || discriminate).
    now apply AttrFacts.attribute_hit.
  - apply AttrFacts.attribute_miss; [|assumption].
    intros <-. destruct n; discriminate.
Qed.

Lemma optional_at n k sp n' v tail :
  blank sp = true -> attr_value v = true ->
  Re.opt_greedy (attribute (attr_name n)) k (render_attribute sp (attr_name n') v tail)
  = if AttrName_eqb n n' then
      match k v tail with
      | Some r => Some r
      | None => k EmptyString (render_attribute sp (attr_name n') v tail)
      end
    else k EmptyString (render_attribute sp (attr_name n') v tail).
Proof.
  intros Hsp Hv. unfold Re.opt_greedy. rewrite attribute_at by assumption.
  now destruct (AttrName_eqb n n').
Qed.

End Attribute.

Lemma pattern_names s :
  artifact_pattern s =
  Re.lit "<artifact" (
  attribute (attr_name AType) (fun g1 =>
  Re.opt_greedy (attribute (attr_name ALanguage)) (fun g2 =>
  Re.opt_greedy (attribute (attr_name ATitle)) (fun g3 =>
  Re.lit ">" (
  Re.star_lazy Py.any_char (fun g4 =>
  Re.lit "</artifact>" (fun rest =>
  Some (mkGroups g1 g2 g3 g4, rest)))))))) s.
Proof. reflexivity. Qed.

Ltac split_ok :=
  repeat match goal with
  | H : (_ && _) = true |- _ => apply andb_prop in H as [? ?]
  end.

Ltac run_pattern :=
  repeat first
    [ rewrite AttrFacts.gt_attribute by assumption
    | rewrite optional_at by assumption; cbn [AttrName_eqb]
    | rewrite attribute_at by assumption; cbn [AttrName_eqb]
    | progress cbv beta iota ].

(** The pattern does not match at a tag whose attributes are not type,
    then optional language, then optional title. *)
Lemma deviating_no_match attrs body tail :
  forallb loose_attr_ok attrs = true ->
  fixed_order (List.map loose_name attrs) = false ->
  artifact_pattern
    (render_loose (mkLoose (List.map loose_attr_text attrs) body) tail) = None.
Proof.
  intros Hok Hdev. rewrite pattern_names. unfold render_loose.
  cbn [loose_attrs loose_body]. rewrite ReFacts.lit_app.
  destruct attrs as [|[[sp1 n1] v1] [|[[sp2 n2] v2] [|[[sp3 n3] v3] [|[[sp4 n4] v4] l]]]];
    cbn [List.map loose_attr_text render_attrs forallb loose_attr_ok] in *;
    split_ok.
  - now apply AttrFacts.attribute_stops.
  - destruct n1; try discriminate Hdev; now run_pattern.
  - destruct n1, n2; try discriminate Hdev; now run_pattern.
  - destruct n1, n2, n3; try discriminate Hdev; now run_pattern.
  - destruct n1, n2, n3, n4; now run_pattern.
Qed.

End LooseFacts.

(** ** Tags in the fixed order *)

Module CompleteFacts.

Ltac peel H :=
  lazymatch goal with
  | |- Re.lit (String ?a ?p) ?k (String ?c ?s ++ ?t) = None =>
      change (Re.lit (String a p) k (String c s ++ t))
        with (if Ascii.eqb a c then Re.lit p k (s ++ t) else None);
      destruct (Ascii.eqb_spec a c) as [<-|]; [|reflexivity];
      first [ discriminate H | destruct s as [|? ?]; [reflexivity|] ]
  end.

(** The closing tag does not start inside a text that does not hold it. *)
Lemma closing_not_early {R : Type} (k : Re.cont (R:=R)) m rest :
  Py.truthy m = true ->
  Py.contains "</artifact>" m = false ->
  Re.lit "</artifact>" k (m ++ "</artifact>" ++ rest) = None.
Proof.
  intros Hm Hc. destruct m as [|c m]; [discriminate Hm|]. clear Hm.
  do 11 (try peel Hc).
Qed.

(** The lazy body ends at the first closing tag. *)
Lemma star_lazy_until {G : Type} (F : string -> G) body rest :
  Py.contains "</artifact>" body = false ->
  Re.star_lazy Py.any_char
    (fun g => Re.lit "</artifact>" (fun rest => Some (F g, rest)))
    (body ++ "</artifact>" ++ rest)
  = Some (F body, rest).
Proof.
  revert F. induction body as [|c body IH]; intros F Hc.
  - reflexivity.
  - assert (Py.contains "</artifact>" body = false) as Hc'.
    { simpl in Hc. apply orb_false_elim in Hc as [_ Hc]. exact Hc. }
    change (String c body ++ "</artifact>" ++ rest)
      with (String c (body ++ "</artifact>" ++ rest)).
    cbn [Re.star_lazy].
    change (String c (body ++ "</artifact>" ++ rest))
      with (String c body ++ "</artifact>" ++ rest).
    rewrite closing_not_early by (assumption || reflexivity).
    cbn [Py.any_char].
    exact (IH (fun g => F (String c g)) Hc').
Qed.

Lemma optional_stops {R : Type} name (k : string -> Re.cont (R:=R)) s :
  stops Py.is_space s ->
  Re.opt_greedy (attribute name) k s = k EmptyString s.
Proof.
  intros Hs. unfold Re.opt_greedy. now rewrite AttrFacts.attribute_stops.
Qed.

(** The pattern matches every well-formed tag, whatever follows it, and
    captures its parts. *)
Lemma match_complete t rest :
  well_formed t = true ->
  artifact_pattern (render t rest) = Some (groups_of t, rest).
Proof.
  unfold well_formed. intros Hwf.
  do 4 (apply andb_prop in Hwf as [Hwf ?]).
  rewrite LooseFacts.pattern_names.
  change (render t rest)
    with ("<artifact" ++
          render_attribute (tag_space t) (attr_name AType) (tag_type t)
            (render_optional (attr_name ALanguage) (tag_language t)
               (render_optional (attr_name ATitle) (tag_title t)
                  (">" ++ tag_body t ++ "</artifact>" ++ rest)))).
  rewrite ReFacts.lit_app, LooseFacts.attribute_at by assumption.
  cbn [AttrName_eqb]. unfold groups_of.
  destruct (tag_language t) as [[sp2 v2]|], (tag_title t) as [[sp3 v3]|];
    cbn [render_optional optional_ok optional_value default] in *;
    LooseFacts.split_ok;
    repeat first
      [ rewrite LooseFacts.optional_at by assumption; cbn [AttrName_eqb]
      | rewrite optional_stops by reflexivity ];
    rewrite (ReFacts.lit_app ">");
    rewrite star_lazy_until by (now apply negb_true_iff);
    reflexivity.
Qed.

End CompleteFacts.

Module PassFacts.

Lemma no_lt_app a b : no_lt (a ++ b) = no_lt a && no_lt b.
Proof. apply StrFacts.all_chars_app. Qed.

Lemma no_lt_blank sp : blank sp = true -> no_lt sp = true.
Proof.
  intros [_ H]%AttrFacts.blank_inv. unfold no_lt.
  induction sp as [|c sp IH]; [reflexivity|].
  simpl in *. apply andb_prop in H as [Hc H]. rewrite (IH H), andb_true_r.
  destruct (Ascii.eqb_spec c "<"%char) as [->|]; [discriminate Hc|reflexivity].
Qed.

Lemma render_attrs_app attrs a b :
  render_attrs attrs (a ++ b) = render_attrs attrs a ++ b.
Proof.
  induction attrs as [|[[sp n] v] attrs IH]; [reflexivity|].
  cbn [render_attrs]. unfold render_attribute. rewrite IH.
  now rewrite !StrFacts.app_assoc.
Qed.

Lemma no_lt_render_attrs attrs x :
  forallb loose_attr_ok attrs = true ->
  forallb (fun a => no_lt (loose_value a)) attrs = true ->
  no_lt x = true ->
  no_lt (render_attrs (List.map loose_attr_text attrs) x) = true.
Proof.
  intros Hok Hv Hx. induction attrs as [|[[sp n] v] attrs IH]; [exact Hx|].
  cbn [forallb loose_attr_ok loose_value snd] in Hok, Hv.
  apply andb_prop in Hok as [[Hsp _]%andb_prop Hok].
  apply andb_prop in Hv as [Hv Hvs].
  cbn [List.map loose_attr_text render_attrs]. unfold render_attribute.
  rewrite !no_lt_app, (no_lt_blank _ Hsp), Hv, (IH Hok Hvs).
  now destruct n.
Qed.

(** Characters that open no tag are copied, and the scan goes on. *)
Lemma scan_plain x y :
  no_lt x = true ->
  Re.findall artifact_pattern (x ++ y) = Re.findall artifact_pattern y
  /\ Re.sub artifact_pattern placeholder (x ++ y)
     = x ++ Re.sub artifact_pattern placeholder y.
Proof.
  intros Hx. induction x as [|c x IH]; [split; reflexivity|].
  cbn in Hx. apply andb_prop in Hx as [Hc Hx].
  destruct (IH Hx) as [IH1 IH2].
  assert (artifact_pattern (String c (x ++ y)) = None) as Hm.
  { apply PatternFacts.no_match_without_lt. intros ->. discriminate Hc. }
  unfold Re.findall, Re.sub in *. simpl. rewrite Hm. split; [exact IH1|].
  now rewrite IH2.
Qed.

Lemma scan_step c y :
  artifact_pattern (String c y) = None ->
  Re.findall artifact_pattern (String c y) = Re.findall artifact_pattern y
  /\ Re.sub artifact_pattern placeholder (String c y)
     = String c (Re.sub artifact_pattern placeholder y).
Proof. intros Hm. unfold Re.findall, Re.sub. simpl. now rewrite Hm. Qed.

(** A tag out of the fixed order, with no [<] in its values and body,
    goes through the scan as plain text. *)
Lemma deviating_scan attrs body pre post :
  forallb loose_attr_ok attrs = true ->
  fixed_order (List.map loose_name attrs) = false ->
  forallb (fun a => no_lt (loose_value a)) attrs = true ->
  no_lt body = true -> no_lt pre = true ->
  let t := mkLoose (List.map loose_attr_text attrs) body in
  Re.findall artifact_pattern (pre ++ render_loose t post)
  = Re.findall artifact_pattern post
  /\ Re.sub artifact_pattern placeholder (pre ++ render_loose t post)
     = pre ++ render_loose t (Re.sub artifact_pattern placeholder post).
Proof.
  intros Hok Hdev Hv Hb Hpre t.
  pose proof (LooseFacts.deviating_no_match attrs body post Hok Hdev) as Hm.
  fold t in Hm.
  set (inner := "artifact" ++ render_attrs (loose_attrs t) (">" ++ loose_body t)).
  assert (forall z, render_loose t z = String "<" (inner ++ String "<" ("/artifact>" ++ z))) as Ht.
  { intros z. unfold render_loose, inner.
    change ("</artifact>" ++ z) with (String "<" ("/artifact>" ++ z)).
    change (">" ++ loose_body t ++ ?u) with ((">" ++ loose_body t) ++ u).
    now rewrite render_attrs_app. }
  assert (no_lt inner = true) as Hin.
  { unfold inner. rewrite no_lt_app. apply andb_true_intro. split; [reflexivity|].
    apply no_lt_render_attrs; assumption. }
  rewrite Ht in Hm.
  destruct (scan_plain pre (render_loose t post) Hpre) as [F1 S1].
  rewrite F1, S1, !Ht.
  destruct (scan_step _ _ Hm) as [F2 S2]. rewrite F2, S2.
  destruct (scan_plain inner (String "<" ("/artifact>" ++ post)) Hin) as [F3 S3].
  rewrite F3, S3.
  destruct (scan_step "<" ("/artifact>" ++ post) (PatternFacts.no_match_at_closing post))
    as [F4 S4].
  rewrite F4, S4.
  destruct (scan_plain "/artifact>" post eq_refl) as [F5 S5].
  rewrite F5, S5. split; reflexivity.
Qed.

Lemma scanned_well_formed s ps :
  Scanned s ps -> Forall (fun t => well_formed t = true) (hits ps).
Proof. induction 1; simpl; auto. Qed.

Lemma built_from_groups n t a :
  well_formed t = true -> made_from n (groups_of t) a -> built_from n t a.
Proof.
  unfold well_formed, made_from, built_from, groups_of. simpl.
  intros Hwf (H1 & H2 & H3 & H4).
  repeat (apply andb_prop in Hwf as [Hwf ?]).
  repeat split; try assumption.
  - rewrite H2. destruct (tag_title t) as [[sp v]|]; simpl in *; [|reflexivity].
    match goal with H : blank sp && attr_value v = true |- _ =>
      apply andb_prop in H as [_ [Hv _]%AttrFacts.attr_value_inv] end.
    unfold Py.str_or. now rewrite Hv.
  - rewrite H4. destruct (tag_language t) as [[sp v]|]; simpl in *; [|reflexivity].
    match goal with H : blank sp && attr_value v = true |- _ =>
      apply andb_prop in H as [_ [Hv _]%AttrFacts.attr_value_inv] end.
    now rewrite Hv.
Qed.

End PassFacts.

(* ===================================================================== *)
(** * Artifact extraction *)
(* ===================================================================== *)

Example demo_extraction :
  let '(self, message, _) :=
    _process_response (sample_agent (Returns None) (mkStream [] None))
                      demo_text sample_world in
  message = "before [Artifact created] after"
  /\ List.map (fun a => (art_type a, art_title a, art_language a, art_content a))
              (artifacts self)
     = [("code", "Demo", Some "python", "print(1)")].
Proof. vm_compute. split; reflexivity. Qed.

Example untitled_extraction :
  let '(self, message, _) :=
    _process_response (sample_agent (Returns None) (mkStream [] None))
                      untitled_text sample_world in
  message = "[Artifact created] and [Artifact created]"
  /\ List.map (fun a => (art_type a, art_title a, art_language a, art_content a))
              (artifacts self)
     = [("text", "Artifact 1", None, "a"); ("html", "Artifact 2", None, "<p>b</p>")].
Proof. vm_compute. split; reflexivity. Qed.

(** C1. For every input text, [_process_response] returns the text in
    which every span matched by the artifact pattern is replaced, one for
    one, by the placeholder [[Artifact created]] and every other character
    is kept as it is; it appends to the artifact list of the agent exactly
    as many artifacts as the pattern has matches in the text. *)
Theorem extraction_replaces_each_match (self : BaseAgent) (response : string) (w : World) :
  exists (ps : list Piece) (created : list Artifact),
    Scanned response ps
    /\ original ps = response
    /\ snd (fst (_process_response self response w)) = cleaned ps
    /\ artifacts (fst (fst (_process_response self response w)))
       = (artifacts self ++ created)%list
    /\ List.length created = List.length (hits ps)
    /\ List.length (hits ps)
       = List.length (Re.findall artifact_pattern response).
Proof.
  destruct (ScanFacts.scan_exists response) as (ps & Hsc & Hor & Hfa & Hsu).
  destruct (ExtractFacts.extract_all_artifacts
              (Re.findall artifact_pattern response) self w)
    as (created & Hc & Hlen & _ & _).
  exists ps, created. rewrite ExtractFacts.process_response_run. simpl.
  rewrite Hfa in *. rewrite length_map in *.
  repeat split; assumption || reflexivity.
Qed.

(** C2. The artifacts built by [_process_response] follow the matched
    tags in their order: the artifact of a tag has the type attribute as
    its type, the title attribute as its title or else [Artifact n] with
    n its 1-based position among the artifacts of the turn, the stripped
    body as its content, and a language exactly when the tag has one. A
    tag whose attributes are in another order than type, language, title
    is not matched, and goes through as plain text. *)
Theorem artifacts_follow_tags_in_fixed_order :
  (forall (self : BaseAgent) (response : string) (w : World),
      exists (ps : list Piece) (created : list Artifact),
        Scanned response ps
        /\ artifacts (fst (fst (_process_response self response w)))
           = (artifacts self ++ created)%list
        /\ List.length created = List.length (hits ps)
        /\ forall i t, nth_error (hits ps) i = Some t ->
             exists a, nth_error created i = Some a
                       /\ built_from (List.length (artifacts self) + i + 1) t a)
  /\
  (forall (attrs : list (string * AttrName * string)) (body pre post : string)
          (self : BaseAgent) (w : World),
      forallb loose_attr_ok attrs = true ->
      fixed_order (List.map loose_name attrs) = false ->
      forallb (fun a => no_lt (loose_value a)) attrs = true ->
      no_lt body = true ->
      no_lt pre = true ->
      let t := mkLoose (List.map loose_attr_text attrs) body in
      let r := _process_response self post w in
      artifact_pattern (render_loose t post) = None
      /\ _process_response self (pre ++ render_loose t post) w
         = (fst (fst r), pre ++ render_loose t (snd (fst r)), snd r)).
Proof.
  split.
  - intros self response w.
    destruct (ScanFacts.scan_exists response) as (ps & Hsc & Hor & Hfa & Hsu).
    destruct (ExtractFacts.extract_all_artifacts
                (Re.findall artifact_pattern response) self w)
      as (created & Hc & Hlen & Hnth & _).
    exists ps, created. rewrite ExtractFacts.process_response_run. simpl.
    rewrite Hfa in *. rewrite length_map in Hlen.
    repeat split; try assumption.
    intros i t Hi.
    destruct (Hnth i (groups_of t)) as (a & Ha & Hmade).
    { now rewrite nth_error_map, Hi. }
    exists a. split; [assumption|].
    apply PassFacts.built_from_groups; [|assumption].
    pose proof (PassFacts.scanned_well_formed _ _ Hsc) as Hwf.
    rewrite List.Forall_forall in Hwf. apply Hwf. eapply nth_error_In, Hi.
  - intros attrs body pre post self w Hok Hdev Hv Hb Hpre t r.
    split; [now apply LooseFacts.deviating_no_match|].
    destruct (PassFacts.deviating_scan attrs body pre post Hok Hdev Hv Hb Hpre)
      as [Hf Hs].
    fold t in Hf, Hs. subst r.
    rewrite !ExtractFacts.process_response_run. simpl.
    now rewrite Hf, Hs.
Qed.

Lemma artifacts_follow_tags_in_fixed_order_witness :
  forallb loose_attr_ok swapped_attrs = true
  /\ fixed_order (List.map loose_name swapped_attrs) = false
  /\ forallb (fun a => no_lt (loose_value a)) swapped_attrs = true
  /\ no_lt "x" = true
  /\ no_lt "see " = true
  /\ artifact_pattern
       (render_loose (mkLoose (List.map loose_attr_text swapped_attrs) "x") " end")
     = None.
Proof.
  refine (conj eq_refl (conj eq_refl (conj eq_refl (conj eq_refl (conj eq_refl _))))).
  exact (proj1 (proj2 artifacts_follow_tags_in_fixed_order
                  swapped_attrs "x" "see " " end"
                  (sample_agent (Returns None) (mkStream [] None)) sample_world
                  eq_refl eq_refl eq_refl eq_refl eq_refl)).
Defined.

(* ===================================================================== *)
(** * The execution loop *)
(* ===================================================================== *)

Module ExecuteFacts.

Lemma session_id_or_fresh_world sid w :
  heap (snd (session_id_or_fresh sid w)) = heap w
  /\ clock_reads (snd (session_id_or_fresh sid w)) = clock_reads w
  /\ clock_src (snd (session_id_or_fresh sid w)) = clock_src w.
Proof.
  unfold session_id_or_fresh.
  destruct sid as [x|]; [destruct (Py.truthy x)|]; repeat split.
Qed.

Lemma session_id_or_fresh_given x w :
  Py.truthy x = true -> session_id_or_fresh (Some x) w = (x, w).
Proof. unfold session_id_or_fresh. now intros ->. Qed.

Lemma count_actions_spec steps :
  count_actions steps = List.length (action_steps steps).
Proof.
  unfold count_actions, action_steps. f_equal.
  apply List.filter_ext. intros s.
  destruct (step_type s); reflexivity.
Qed.

(** What a turn leaves behind, by the way the delegation ended. *)
Lemma execute_spec self user_message sid w self' resp w' :
  execute self user_message sid w = (self', resp, w') ->
  execution_steps self' = resp_steps resp
  /\ artifacts self' = resp_artifacts resp
  /\ agent_run self' = agent_run self
  /\ agent_run_stream self' = agent_run_stream self
  /\ resp_iteration_count resp = count_actions (resp_steps resp)
  /\ resp_session_id resp = fst (session_id_or_fresh sid (snd (now w)))
  /\ heap_extends w w'
  /\ (clock_reads w < clock_reads w')%nat
  /\ (forall a, In a (resp_artifacts resp) -> heap w' !! art_metadata a = Some ∅)
  /\ match failure_of (agent_run self user_message) with
     | Some e =>
         resp_success resp = false
         /\ resp_message resp = "Error during execution: " ++ exn_text e
         /\ resp_artifacts resp = []
         /\ exists thought err,
             resp_steps resp = [thought; err]
             /\ step_type thought = THOUGHT
             /\ step_type err = ERROR
             /\ step_content err = exn_text e
     | None =>
         resp_success resp = true
         /\ exists content thought final,
             agent_run self user_message = Returns (Some content)
             /\ resp_message resp = Re.sub artifact_pattern placeholder content
             /\ resp_steps resp = [thought; final]
             /\ step_type thought = THOUGHT
             /\ step_type final = FINAL_ANSWER
             /\ step_content final = resp_message resp
     end.
Proof.
  unfold execute, mbind, M_bind.
  destruct (session_id_or_fresh_world sid (snd (now w))) as (Hh & Hc & _).
  change (now w) with
    (clock_src w (clock_reads w),
     mkWorld (uuid_src w) (uuid_drawn w) (clock_src w) (S (clock_reads w)) (heap w)) in *.
  cbn [fst snd heap clock_reads] in *.
  destruct (session_id_or_fresh sid _) as [s w1]. cbn [fst snd] in *.
  unfold _run_react_loop, mbind, M_bind.
  rewrite WorldFacts.ExecutionStep_new_run.
  cbn [agent_run append_step set_session].
  destruct (agent_run self user_message) as [[content|]|e] eqn:Hrun; cbn [failure_of].
  - rewrite ExtractFacts.process_response_run.
    match goal with |- context [extract_all ?ms ?a ?b] =>
      destruct (ExtractFacts.extract_all_frame ms a b) as (F1 & _ & F3 & F4 & F5 & F6);
      destruct (ExtractFacts.extract_all_artifacts ms a b) as (created & Hcr & _ & _ & Hmd);
      destruct (extract_all ms a b) as [self1 w3] eqn:Hex
    end.
    cbn [fst snd execution_steps artifacts heap agent_run agent_run_stream] in *.
    rewrite WorldFacts.ExecutionStep_new_run.
    unfold mret, M_ret, now. cbn [append_step uuid_src uuid_drawn clock_src clock_reads heap].
    intros H. injection H as <- <- <-.
    cbn. rewrite F1.
    repeat split; try assumption; try reflexivity.
    + intros a d Ha. apply F5. cbn. now rewrite Hh.
    + cbn in F6. lia.
    + intros a Ha. apply Hmd. now rewrite Hcr in Ha.
    + eexists _, _, _. repeat split.
  - unfold ExecutionStep_new, now, uuid4, mbind, M_bind, mret, M_ret. cbn.
    intros H. injection H as <- <- <-. cbn.
    repeat split; try reflexivity.
    + intros a d Ha. now rewrite Hh.
    + lia.
    + intros a [].
    + eexists _, _. repeat split.
  - unfold ExecutionStep_new, now, uuid4, mbind, M_bind, mret, M_ret. cbn.
    intros H. injection H as <- <- <-. cbn.
    repeat split; try reflexivity.
    + intros a d Ha. now rewrite Hh.
    + lia.
    + intros a [].
    + eexists _, _. repeat split.
Qed.

End ExecuteFacts.

Example demo_turn :
  let '(_, resp, _) :=
    execute (sample_agent (Returns (Some demo_text)) (mkStream [] None))
            "hello" None sample_world in
  resp_success resp = true
  /\ resp_message resp = "before [Artifact created] after"
  /\ List.map step_type (resp_steps resp) = [THOUGHT; FINAL_ANSWER]
  /\ resp_iteration_count resp = 0%nat.
Proof. vm_compute. repeat split. Qed.

(** C3. Whatever the user message and the session id, when the
    delegation to the model raises, or the extraction does, [execute]
    returns a response (it does not raise): one with success false, whose
    message is [Error during execution: ] followed by the text of the
    error, and whose step list, which is also the step list left in the
    agent, is the steps recorded before the failure followed by one ERROR
    step holding the text of the error. *)
Theorem execute_catches_errors
        (self : BaseAgent) (user_message : string) (session_id : option string)
        (w : World) (e : Exn) :
  failure_of (agent_run self user_message) = Some e ->
  exists self' resp w' earlier err,
    execute self user_message session_id w = (self', resp, w')
    /\ resp_success resp = false
    /\ resp_message resp = "Error during execution: " ++ exn_text e
    /\ resp_steps resp = (earlier ++ [err])%list
    /\ step_type err = ERROR
    /\ step_content err = exn_text e
    /\ execution_steps self' = resp_steps resp.
Proof.
  intros He.
  destruct (execute self user_message session_id w) as [[self' resp] w'] eqn:Hex.
  destruct (ExecuteFacts.execute_spec _ _ _ _ _ _ _ Hex)
    as (H1 & _ & _ & _ & _ & _ & _ & _ & _ & H).
  rewrite He in H. destruct H as (Hs & Hm & _ & thought & err & Hst & _ & Hty & Hco).
  exists self', resp, w', [thought], err. repeat split; assumption.
Qed.

Lemma execute_catches_errors_witness :
  failure_of (agent_run (sample_agent (Raises (mkExn "boom")) (mkStream [] None)) "hi")
  = Some (mkExn "boom")
  /\ exists self' resp w' earlier err,
      execute (sample_agent (Raises (mkExn "boom")) (mkStream [] None))
              "hi" (Some "s1") sample_world = (self', resp, w')
      /\ resp_success resp = false
      /\ resp_message resp = "Error during execution: " ++ exn_text (mkExn "boom")
      /\ resp_steps resp = (earlier ++ [err])%list
      /\ step_type err = ERROR
      /\ step_content err = exn_text (mkExn "boom")
      /\ execution_steps self' = resp_steps resp.
Proof.
  split; [reflexivity|].
  exact (execute_catches_errors
           (sample_agent (Raises (mkExn "boom")) (mkStream [] None))
           "hi" (Some "s1") sample_world (mkExn "boom") eq_refl).
Defined.

(** A step list with two ACTION steps among four. *)
Example count_actions_counts :
  count_actions
    [mkStep "1" THOUGHT "plan" None None None 0 None;
     mkStep "2" ACTION "search" (Some "web") None None 1 None;
     mkStep "3" ACTION "read" (Some "file") None None 2 None;
     mkStep "4" FINAL_ANSWER "done" None None None 3 None]
  = 2%nat.
Proof. reflexivity. Qed.

(** C9. The expression that [execute] stores as the iteration count
    counts, for every step list, the steps of kind ACTION in it; and the
    iteration count of the response returned by [execute] is that
    expression applied to the step list of that very response, hence the
    number of ACTION steps recorded in it. This holds for every call, and
    so for every call that returns successfully. *)
Theorem iteration_count_counts_action_steps :
  (forall steps : list ExecutionStep,
     count_actions steps = List.length (action_steps steps))
  /\ (forall (self : BaseAgent) (user_message : string)
             (session_id : option string) (w : World),
        let resp := snd (fst (execute self user_message session_id w)) in
        resp_iteration_count resp = count_actions (resp_steps resp)
        /\ resp_iteration_count resp = List.length (action_steps (resp_steps resp))).
Proof.
  split; [exact ExecuteFacts.count_actions_spec|].
  intros self user_message session_id w.
  destruct (execute self user_message session_id w) as [[self' resp] w'] eqn:Hex.
  destruct (ExecuteFacts.execute_spec _ _ _ _ _ _ _ Hex)
    as (_ & _ & _ & _ & H & _).
  cbn [fst snd]. split; [exact H|].
  rewrite H. apply ExecuteFacts.count_actions_spec.
Qed.

(* ===================================================================== *)
(** * The streaming path *)
(* ===================================================================== *)

Module StreamFacts.

Lemma accumulate_from acc chunks :
  List.fold_left (fun a c => (a ++ c)%string) chunks acc
  = (acc ++ String.concat EmptyString chunks)%string.
Proof.
  revert acc. induction chunks as [|c chunks IH]; intros acc; simpl.
  - now rewrite StrFacts.app_nil_r.
  - rewrite IH. destruct chunks as [|d chunks].
    + simpl. now rewrite !StrFacts.app_nil_r.
    + rewrite StrFacts.app_assoc. reflexivity.
Qed.

Lemma accumulate_concat chunks :
  accumulate chunks = String.concat EmptyString chunks.
Proof. unfold accumulate. now rewrite accumulate_from. Qed.

Lemma precede_app p q l1 l2 :
  forallb (fun x => negb (q x)) l1 = true ->
  forallb (fun y => negb (p y)) l2 = true ->
  precede p q (l1 ++ l2)%list.
Proof.
  intros H1 H2 i j x y Hi Hj Hp Hq.
  rewrite forallb_forall in H1, H2.
  destruct (Nat.lt_ge_cases j (List.length l1)) as [Hlt|Hge].
  - rewrite nth_error_app1 in Hj by assumption.
    apply nth_error_In in Hj. apply H1 in Hj. rewrite Hq in Hj. discriminate.
  - destruct (Nat.lt_ge_cases i (List.length l1)) as [Hlt|Hge']; [lia|].
    rewrite nth_error_app2 in Hi by assumption.
    apply nth_error_In in Hi. apply H2 in Hi. rewrite Hp in Hi. discriminate.
Qed.

Lemma forallb_tokens q chunks :
  (forall c, q (EvToken c) = true) ->
  forallb q (List.map EvToken chunks) = true.
Proof. intros H. induction chunks; simpl; [reflexivity|]. now rewrite H. Qed.

Lemma forallb_artifacts q (l : list Artifact) :
  (forall a, q (EvArtifact a) = true) ->
  forallb q (List.map (fun a => EvArtifact (Artifact_to_dict a)) l) = true.
Proof. intros H. induction l; simpl; [reflexivity|]. now rewrite H. Qed.

Lemma token_contents_app l1 l2 :
  token_contents (l1 ++ l2)%list = (token_contents l1 ++ token_contents l2)%list.
Proof.
  induction l1 as [|e l1 IH]; [reflexivity|].
  destruct e; simpl; now rewrite IH.
Qed.

Lemma token_contents_tokens chunks : token_contents (List.map EvToken chunks) = chunks.
Proof. induction chunks; simpl; [reflexivity|]. now f_equal. Qed.

Lemma token_contents_artifacts (l : list Artifact) :
  token_contents (List.map (fun a => EvArtifact (Artifact_to_dict a)) l) = [].
Proof. induction l; simpl; [reflexivity|assumption]. Qed.

Lemma artifact_events_app l1 l2 :
  artifact_events (l1 ++ l2)%list = (artifact_events l1 ++ artifact_events l2)%list.
Proof.
  induction l1 as [|e l1 IH]; [reflexivity|].
  destruct e; simpl; now rewrite IH.
Qed.

Lemma artifact_events_tokens chunks : artifact_events (List.map EvToken chunks) = [].
Proof. induction chunks; simpl; [reflexivity|assumption]. Qed.

Lemma artifact_events_artifacts (l : list Artifact) :
  artifact_events (List.map (fun a => EvArtifact (Artifact_to_dict a)) l)
  = List.map Artifact_to_dict l.
Proof. induction l; simpl; [reflexivity|]. now f_equal. Qed.

(** The events of a turn, by the way the stream of the model ended. *)
Lemma stream_execute_spec self user_message sid w self' events w' :
  stream_execute self user_message sid w = (self', events, w') ->
  exists session started thought self1 w1,
    let chunks := fst (_stream_agent_response self user_message) in
    let opening := [EvStart session started; EvStep (ExecutionStep_to_dict thought)] in
    match snd (_stream_agent_response self user_message) with
    | Some e =>
        events = (opening ++ List.map EvToken chunks ++ [EvError (exn_text e)])%list
    | None =>
        exists self2 final_message w2 final duration,
          events =
            (opening ++ List.map EvToken chunks
             ++ List.map (fun a => EvArtifact (Artifact_to_dict a)) (artifacts self2)
             ++ [EvStep (ExecutionStep_to_dict final);
                 EvComplete session true duration])%list
          /\ _process_response self1 (String.concat EmptyString chunks) w1
             = (self2, final_message, w2)
          /\ step_type final = FINAL_ANSWER
          /\ step_content final = final_message
    end
    /\ step_type thought = THOUGHT
    /\ artifacts self1 = [].
Proof.
  unfold stream_execute, mbind, M_bind.
  change (now w) with
    (clock_src w (clock_reads w),
     mkWorld (uuid_src w) (uuid_drawn w) (clock_src w) (S (clock_reads w)) (heap w)).
  cbn [fst snd].
  destruct (session_id_or_fresh sid _) as [s w1].
  unfold now at 1. rewrite WorldFacts.ExecutionStep_new_run.
  change (_stream_agent_response (append_step (set_session self s) ?t) user_message)
    with (_stream_agent_response self user_message).
  destruct (_stream_agent_response self user_message) as [chunks [e|]] eqn:Hs;
    cbn [fst snd].
  - intros H. injection H as <- <- <-.
    eexists _, _, _, (set_session self s), w1.
    split; [reflexivity|]. split; reflexivity.
  - rewrite accumulate_concat.
    match goal with |- context [_process_response ?a ?b ?c] =>
      destruct (_process_response a b c) as [[self2 final_message] w2] eqn:Hp
    end.
    rewrite WorldFacts.ExecutionStep_new_run. unfold now, mret, M_ret.
    intros H. injection H as <- <- <-.
    eexists _, _, _, _, _.
    split; [eexists _, _, _, _, _; split; [reflexivity|]; split; [exact Hp|];
            split; reflexivity
           |split; reflexivity].
Qed.

End StreamFacts.

Module OrderFacts.

Lemma precede_none p q l :
  forallb (fun x => negb (q x)) l = true -> precede p q l.
Proof.
  intros H. rewrite <- (app_nil_r l). now apply StreamFacts.precede_app.
Qed.

Lemma thought_not_final thought :
  step_type thought = THOUGHT ->
  is_final_answer (EvStep (ExecutionStep_to_dict thought)) = false.
Proof. intros H. simpl. now rewrite H. Qed.

Lemma final_is_final final :
  step_type final = FINAL_ANSWER ->
  is_final_answer (EvStep (ExecutionStep_to_dict final)) = true.
Proof. intros H. simpl. now rewrite H. Qed.

End OrderFacts.

Example demo_stream :
  let '(_, events, _) :=
    stream_execute
      (sample_agent (Returns None)
         (mkStream [Some "before <arti"; None; Some EmptyString;
                    Some ("fact type=" ++ Py.DQ ++ "text" ++ Py.DQ ++ ">a</artifact>")]
                   None))
      "hello" (Some "s1") sample_world in
  List.map (fun e => match e with
                     | EvStart _ _ => "start"
                     | EvStep d => "step " ++ sd_type d
                     | EvToken _ => "token"
                     | EvArtifact _ => "artifact"
                     | EvComplete _ _ _ => "complete"
                     | EvError _ => "error"
                     end) events
  = ["start"; "step thought"; "token"; "token"; "artifact";
     "step final_answer"; "complete"].
Proof. vm_compute. reflexivity. Qed.

(** C4. In the events of one streaming turn, every token event comes
    before every artifact event, and every artifact event before the
    FINAL_ANSWER step event and before the complete event. When the
    stream of the model ends normally, the contents of the token events,
    concatenated in emission order, are the raw text on which the
    extraction is run: the artifact events carry the artifacts it finds
    and the FINAL_ANSWER step its cleaned message, followed by the
    complete event. When the stream raises, the events sent so far are
    followed by one error event and by nothing else: no artifact event,
    no FINAL_ANSWER step, no complete event. *)
Theorem stream_events_are_ordered
        (self : BaseAgent) (user_message : string) (session_id : option string)
        (w : World) :
  let events := snd (fst (stream_execute self user_message session_id w)) in
  precede is_token is_artifact events
  /\ precede is_artifact is_final_answer events
  /\ precede is_artifact is_complete events
  /\ token_contents events = fst (_stream_agent_response self user_message)
  /\ match snd (_stream_agent_response self user_message) with
     | None =>
         exists self1 w1 self2 final_message w2 before final done,
           artifacts self1 = []
           /\ _process_response self1
                (String.concat EmptyString (token_contents events)) w1
              = (self2, final_message, w2)
           /\ artifact_events events = List.map Artifact_to_dict (artifacts self2)
           /\ events = (before ++ [EvStep final; done])%list
           /\ sd_type final = StepType_value FINAL_ANSWER
           /\ sd_content final = final_message
           /\ is_complete done = true
           /\ forallb (fun x => negb (is_error x)) events = true
     | Some e =>
         exists before,
           events = (before ++ [EvError (exn_text e)])%list
           /\ forallb (fun x => negb (is_error x || is_artifact x
                                     || is_final_answer x || is_complete x))
                      before = true
     end.
Proof.
  destruct (stream_execute self user_message session_id w) as [[self' events] w'] eqn:Hex.
  cbn [fst snd].
  destruct (StreamFacts.stream_execute_spec _ _ _ _ _ _ _ Hex)
    as (session & started & thought & self1 & w1 & H & Hth & Hno).
  cbn zeta in H.
  pose proof (OrderFacts.thought_not_final thought Hth) as Htf.
  destruct (_stream_agent_response self user_message) as [chunks [e|]];
    cbn [fst snd] in *.
  - subst events.
    assert (forallb (fun x => negb (is_error x || is_artifact x
                                   || is_final_answer x || is_complete x))
              ([EvStart session started; EvStep (ExecutionStep_to_dict thought)]
               ++ List.map EvToken chunks)%list = true) as Hbefore.
    { rewrite forallb_app. cbn [forallb is_error is_artifact is_complete orb].
      rewrite Htf. cbn [negb andb orb].
      now apply StreamFacts.forallb_tokens. }
    repeat split.
    + apply OrderFacts.precede_none.
      rewrite !forallb_app. cbn. now rewrite StreamFacts.forallb_tokens.
    + apply OrderFacts.precede_none.
      rewrite !forallb_app. cbn [forallb]. rewrite Htf.
      cbn. now rewrite StreamFacts.forallb_tokens.
    + apply OrderFacts.precede_none.
      rewrite !forallb_app. cbn. now rewrite StreamFacts.forallb_tokens.
    + rewrite !StreamFacts.token_contents_app, StreamFacts.token_contents_tokens.
      cbn. now rewrite app_nil_r.
    + eexists. split; [|exact Hbefore]. now rewrite <- app_assoc.
  - destruct H as (self2 & final_message & w2 & final & duration & -> & Hp & Hfi & Hco).
    pose proof (OrderFacts.final_is_final final Hfi) as Hff.
    assert (token_contents
              ([EvStart session started; EvStep (ExecutionStep_to_dict thought)]
               ++ List.map EvToken chunks
               ++ List.map (fun a => EvArtifact (Artifact_to_dict a)) (artifacts self2)
               ++ [EvStep (ExecutionStep_to_dict final);
                   EvComplete session true duration])%list = chunks) as Htok.
    { rewrite !StreamFacts.token_contents_app, StreamFacts.token_contents_tokens,
        StreamFacts.token_contents_artifacts.
      cbn. now rewrite app_nil_r. }
    repeat split.
    + rewrite app_assoc. apply StreamFacts.precede_app.
      * rewrite forallb_app. cbn. now rewrite StreamFacts.forallb_tokens.
      * rewrite forallb_app. cbn. rewrite andb_true_r.
        now apply StreamFacts.forallb_artifacts.
    + rewrite !app_assoc. apply StreamFacts.precede_app.
      * rewrite !forallb_app. cbn [forallb]. rewrite Htf. cbn.
        rewrite StreamFacts.forallb_tokens by reflexivity.
        now rewrite StreamFacts.forallb_artifacts.
      * reflexivity.
    + rewrite !app_assoc. apply StreamFacts.precede_app.
      * rewrite !forallb_app. cbn.
        rewrite StreamFacts.forallb_tokens by reflexivity.
        now rewrite StreamFacts.forallb_artifacts.
      * reflexivity.
    + exact Htok.
    + exists self1, w1, self2, final_message, w2.
      eexists _, _, _. rewrite Htok.
      split; [exact Hno|]. split; [exact Hp|]. split; [|split].
      * rewrite !StreamFacts.artifact_events_app, StreamFacts.artifact_events_tokens,
          StreamFacts.artifact_events_artifacts.
        cbn. now rewrite app_nil_r.
      * rewrite !app_assoc. reflexivity.
      * cbn. rewrite Hfi. repeat split; [assumption|].
        rewrite !forallb_app. cbn.
        rewrite StreamFacts.forallb_tokens by reflexivity.
        now rewrite StreamFacts.forallb_artifacts.
Qed.

(* ===================================================================== *)
(** * The chat route *)
(* ===================================================================== *)

Module ChatFacts.

Lemma now_run w :
  now w = (clock_src w (clock_reads w),
           mkWorld (uuid_src w) (uuid_drawn w) (clock_src w) (S (clock_reads w)) (heap w)).
Proof. reflexivity. Qed.

(** What a turn of POST /chat does to the registry. *)
Lemma chat_spec srv message w srv' cr w' :
  chat srv message w = (srv', cr, w') ->
  let sid := fst (session_id_or_fresh (cm_session_id message) w) in
  exists created asked answered active w2 resp w3,
    let s0 := session_at_start srv sid created in
    execute (agent srv) (cm_content message) (Some sid) w2 = (agent srv', resp, w3)
    /\ heap w2 = heap w
    /\ heap w' = heap w3
    /\ (clock_reads w <= clock_reads w2)%nat
    /\ (clock_reads w3 <= clock_reads w')%nat
    /\ sessions srv' !! sid
       = Some (mkSession (sess_id s0) (sess_created_at s0)
                 (sess_messages s0
                  ++ [mkMessage "user" (cm_content message) asked;
                      mkMessage "assistant" (resp_message resp) answered])
                 (sess_artifacts s0 ++ List.map Artifact_to_dict (resp_artifacts resp))
                 (Some active))
    /\ (forall other, other <> sid -> sessions srv' !! other = sessions srv !! other)
    /\ cr = mkChatResponse sid (resp_message resp) (resp_success resp)
                           (List.map Artifact_to_dict (resp_artifacts resp))
                           (List.map ExecutionStep_to_dict (resp_steps resp))
                           (resp_total_duration_ms resp).
Proof.
  unfold chat, mbind, M_bind.
  destruct (ExecuteFacts.session_id_or_fresh_world (cm_session_id message) w)
    as (Hh0 & Hc0 & _).
  destruct (session_id_or_fresh (cm_session_id message) w) as [sid w0].
  cbn [fst snd] in *.
  set (ss1 := match sessions srv !! sid with
              | Some _ => mret (sessions srv)
              | None => _
              end).
  assert (exists created w1,
             ss1 w0 = (<[sid := session_at_start srv sid created]> (sessions srv), w1)
             /\ heap w1 = heap w0 /\ (clock_reads w0 <= clock_reads w1)%nat)
    as (created & w1 & -> & Hh1 & Hc1).
  { subst ss1. unfold session_at_start.
    destruct (sessions srv !! sid) as [s|] eqn:Hs.
    - exists 0%Z, w0. cbn. rewrite insert_id by assumption. auto.
    - unfold mbind, M_bind. rewrite now_run. eexists _, _.
      split; [reflexivity|]. cbn. split; [reflexivity|lia]. }
  rewrite now_run.
  set (w2 := mkWorld _ _ _ (S (clock_reads w1)) _).
  destruct (execute (agent srv) (cm_content message) (Some sid) w2)
    as [[agent' resp] w3] eqn:Hex.
  rewrite !now_run. unfold mret, M_ret. cbn [clock_src clock_reads uuid_src uuid_drawn heap].
  intros H. injection H as <- <- <-.
  exists created, (clock_src w1 (clock_reads w1)), (clock_src w3 (clock_reads w3)),
         (clock_src w3 (S (clock_reads w3))), w2, resp, w3.
  cbn [agent sessions heap clock_reads].
  split; [exact Hex|]. split; [subst w2; cbn; congruence|].
  split; [reflexivity|]. split; [subst w2; cbn; lia|]. split; [lia|].
  split; [|split; [|reflexivity]].
  - rewrite !lookup_alter_eq, lookup_insert_eq.
    cbn [fmap option_fmap option_map].
    unfold set_last_activity, add_artifacts, add_message.
    cbn [sess_id sess_created_at sess_messages sess_artifacts sess_last_activity].
    now rewrite <- app_assoc.
  - intros other Hne.
    rewrite !lookup_alter_ne, lookup_insert_ne by congruence. reflexivity.
Qed.

End ChatFacts.

(** C6. Two turns on the same session id see the same session: when a
    turn runs under the id of an earlier turn and finds under that id the
    record the earlier turn left, the record is fetched, not created
    again: after the second turn its [created_at] and its id are
    unchanged, and its message and artifact histories are those left by
    the first turn with the entries of the second turn appended. *)
Theorem session_is_fetched_not_recreated
        (srv srvA : Server) (message1 message2 : ChatMessage)
        (w wA : World) (X : string) :
  let r1 := chat srv message1 w in
  let r2 := chat srvA message2 wA in
  cr_session_id (snd (fst r1)) = X ->
  cr_session_id (snd (fst r2)) = X ->
  sessions srvA !! X = sessions (fst (fst r1)) !! X ->
  exists s1 s2 new_messages new_artifacts,
    sessions (fst (fst r1)) !! X = Some s1
    /\ sessions (fst (fst r2)) !! X = Some s2
    /\ sess_created_at s2 = sess_created_at s1
    /\ sess_id s2 = sess_id s1
    /\ sess_messages s2 = (sess_messages s1 ++ new_messages)%list
    /\ sess_artifacts s2 = (sess_artifacts s1 ++ new_artifacts)%list.
Proof.
  intros r1 r2. subst r1 r2.
  destruct (chat srv message1 w) as [[srv1 cr1] w1] eqn:H1.
  destruct (chat srvA message2 wA) as [[srv2 cr2] w2] eqn:H2.
  cbn [fst snd]. intros HX1 HX2 Hsame.
  apply ChatFacts.chat_spec in H1, H2.
  destruct H1 as (c1 & a1 & b1 & d1 & _ & r1 & _ & _ & _ & _ & _ & _ & L1 & _ & E1).
  destruct H2 as (c2 & a2 & b2 & d2 & _ & r2 & _ & _ & _ & _ & _ & _ & L2 & _ & E2).
  rewrite E1 in HX1. rewrite E2 in HX2. cbn [cr_session_id] in HX1, HX2.
  rewrite HX1 in L1. rewrite HX2 in L2.
  unfold session_at_start in L2. rewrite Hsame, L1 in L2. cbn in L2.
  eexists _, _, _, _. split; [exact L1|]. split; [exact L2|].
  repeat split.
Qed.

Lemma session_is_fetched_not_recreated_witness :
  let r1 := chat sample_server (mkChatMessage "hello" (Some "s1") None) sample_world in
  let r2 := chat (fst (fst r1)) (mkChatMessage "again" (Some "s1") None) (snd r1) in
  cr_session_id (snd (fst r1)) = "s1"
  /\ cr_session_id (snd (fst r2)) = "s1"
  /\ exists s1 s2 new_messages new_artifacts,
      sessions (fst (fst r1)) !! "s1" = Some s1
      /\ sessions (fst (fst r2)) !! "s1" = Some s2
      /\ sess_created_at s2 = sess_created_at s1
      /\ sess_id s2 = sess_id s1
      /\ sess_messages s2 = (sess_messages s1 ++ new_messages)%list
      /\ sess_artifacts s2 = (sess_artifacts s1 ++ new_artifacts)%list.
Proof.
  intros r1 r2.
  assert (cr_session_id (snd (fst r1)) = "s1") as H1 by (vm_compute; reflexivity).
  assert (cr_session_id (snd (fst r2)) = "s1") as H2 by (vm_compute; reflexivity).
  split; [exact H1|]. split; [exact H2|].
  exact (session_is_fetched_not_recreated
           sample_server (fst (fst r1))
           (mkChatMessage "hello" (Some "s1") None)
           (mkChatMessage "again" (Some "s1") None)
           sample_world (snd r1) "s1" H1 H2 eq_refl).
Defined.

Example second_turn_keeps_created_at :
  let '(srv1, _, w1) :=
    chat sample_server (mkChatMessage "hello" (Some "s1") None) sample_world in
  let '(srv2, _, _) := chat srv1 (mkChatMessage "again" (Some "s1") None) w1 in
  (sess_created_at <$> sessions srv1 !! "s1") = Some 1000%Z
  /\ (sess_created_at <$> sessions srv2 !! "s1") = Some 1000%Z
  /\ (List.length ∘ sess_messages <$> sessions srv2 !! "s1") = Some 4%nat
  /\ (List.length ∘ sess_artifacts <$> sessions srv2 !! "s1") = Some 2%nat.
Proof. vm_compute. repeat split. Qed.

(** C10. A request to POST /api/chat whose content is empty or longer
    than 10000 characters is answered with a validation error before the
    handler runs: the sessions, the agent and the world are what they
    were, whereas a call of [execute] always leaves a changed world. *)
Theorem oversized_or_empty_content_is_rejected
        (srv : Server) (body : ChatMessage) (w : World) :
  content_length body = 0%Z \/ (10000 < content_length body)%Z ->
  post_chat srv body w = (srv, UnprocessableEntity, w)
  /\ forall self user_message session_id,
      snd (execute self user_message session_id w) <> w.
Proof.
  intros Hlen. split.
  - unfold post_chat, ChatMessage_validate, content_min_length, content_max_length.
    destruct Hlen as [H0|Hbig].
    + rewrite H0. reflexivity.
    + replace (content_length body <=? 10000)%Z with false by (symmetry; lia).
      now rewrite andb_false_r.
  - intros self user_message session_id Heq.
    destruct (execute self user_message session_id w) as [[self' resp] w'] eqn:Hex.
    destruct (ExecuteFacts.execute_spec _ _ _ _ _ _ _ Hex)
      as (_ & _ & _ & _ & _ & _ & _ & Hclk & _).
    cbn in Heq. subst w'. lia.
Qed.

Lemma oversized_or_empty_content_is_rejected_witness :
  (content_length (mkChatMessage EmptyString (Some "s1") None) = 0%Z
   \/ (10000 < content_length (mkChatMessage EmptyString (Some "s1") None))%Z)
  /\ post_chat sample_server (mkChatMessage EmptyString (Some "s1") None) sample_world
     = (sample_server, UnprocessableEntity, sample_world).
Proof.
  split; [left; reflexivity|].
  exact (proj1 (oversized_or_empty_content_is_rejected
                  sample_server (mkChatMessage EmptyString (Some "s1") None)
                  sample_world (or_introl eq_refl))).
Defined.

Example content_bounds :
  ChatMessage_validate (mkChatMessage EmptyString None None) = false
  /\ ChatMessage_validate (mkChatMessage "a" None None) = true
  /\ ChatMessage_validate (mkChatMessage (filler (Z.to_nat 10000)) None None) = true
  /\ ChatMessage_validate (mkChatMessage (filler (Z.to_nat 10001)) None None) = false.
Proof. vm_compute. repeat split. Qed.

Example long_content_is_rejected :
  post_chat sample_server
            (mkChatMessage (filler (Z.to_nat 10001)) (Some "s1") None) sample_world
  = (sample_server, UnprocessableEntity, sample_world).
Proof.
  unfold post_chat.
  replace (ChatMessage_validate _) with false by (vm_compute; reflexivity).
  reflexivity.
Qed.

(* ===================================================================== *)
(** * Snapshots in the session history *)
(* ===================================================================== *)

Module SnapshotFacts.

Lemma read_extends w w' d v :
  heap_extends w w' -> read_snapshot w d = Some v -> read_snapshot w' d = Some v.
Proof.
  unfold read_snapshot, deref. intros Hext H.
  destruct (heap w !! ad_metadata d) as [md|] eqn:Hmd; [|discriminate].
  now rewrite (Hext _ _ Hmd).
Qed.

(** The snapshots a turn stores are readable, with empty metadata. *)
Lemma chat_snapshots srv message w srv' cr w' d :
  chat srv message w = (srv', cr, w') ->
  In d (cr_artifacts cr) ->
  (exists s, sessions srv' !! cr_session_id cr = Some s /\ In d (sess_artifacts s))
  /\ heap w' !! ad_metadata d = Some ∅.
Proof.
  intros Hc Hd. apply ChatFacts.chat_spec in Hc.
  destruct Hc as (c & a & b & e & w2 & resp & w3 & Hex & _ & Hh & _ & _ & Hl & _ & ->).
  cbn [cr_session_id cr_artifacts] in *.
  split.
  - eexists. split; [exact Hl|]. cbn. apply in_or_app. now right.
  - apply in_map_iff in Hd as (x & <- & Hx).
    destruct (ExecuteFacts.execute_spec _ _ _ _ _ _ _ Hex)
      as (_ & _ & _ & _ & _ & _ & _ & _ & Hmd & _).
    rewrite Hh. exact (Hmd x Hx).
Qed.

End SnapshotFacts.

Lemma demo_turn_stores_snapshot :
  cr_artifacts (snd (fst after_demo_turn)) = [demo_snapshot]
  /\ artifacts (agent (fst (fst after_demo_turn))) = [demo_artifact]
  /\ (sess_artifacts <$> sessions (fst (fst after_demo_turn)) !! "s1")
     = Some [demo_snapshot].
Proof. vm_compute. repeat split. Qed.

(** The snapshot stored by a turn follows an update made inside the
    metadata dict of the artifact it was taken from: the claim that no
    later update of the artifact, metadata included, changes the stored
    snapshot fails. *)
Lemma snapshot_follows_metadata_update :
  let w1 := snd after_demo_turn in
  let w2 := snd (apply_update (UpdateMetadata {[ "k" := VStr "v" ]}) demo_artifact w1) in
  In demo_snapshot (cr_artifacts (snd (fst after_demo_turn)))
  /\ (sv_metadata <$> read_snapshot w1 demo_snapshot) = Some ∅
  /\ (sv_metadata <$> read_snapshot w2 demo_snapshot) = Some {[ "k" := VStr "v" ]}
  /\ read_snapshot w2 demo_snapshot <> read_snapshot w1 demo_snapshot.
Proof.
  cbv zeta.
  set (r1 := read_snapshot (snd after_demo_turn) demo_snapshot).
  set (r2 := read_snapshot _ demo_snapshot).
  assert ((sv_metadata <$> r1) = Some ∅) as H1 by (vm_compute; reflexivity).
  assert ((sv_metadata <$> r2) = Some ({[ "k" := VStr "v" ]} : Dict)) as H2
    by (vm_compute; reflexivity).
  assert (In demo_snapshot (cr_artifacts (snd (fst after_demo_turn)))) as H0
    by (rewrite (proj1 demo_turn_stores_snapshot); now left).
  clearbody r1 r2.
  split; [exact H0|]. split; [exact H1|]. split; [exact H2|].
  intros Heq. subst r2. rewrite H1 in H2.
  apply (f_equal (fun o : option Dict =>
                    match o with Some m => m !! "k" | None => None end)) in H2.
  vm_compute in H2. discriminate H2.
Qed.

(** C5, as the code has it. A snapshot that a turn stores in the history
    of its session can be read back, and no later update that binds an
    attribute of an artifact to another value (its type, title, content
    or language, or its metadata to another dict) changes what is read;
    the metadata dict itself is shared between the artifact and its
    snapshot, so that an update made inside it is what the snapshot then
    shows. *)
Theorem snapshot_unchanged_by_attribute_updates
        (srv : Server) (message : ChatMessage) (w : World)
        (a : Artifact) (u : ArtifactUpdate) (d : ArtifactDict) :
  let srv1 := fst (fst (chat srv message w)) in
  let cr := snd (fst (chat srv message w)) in
  let w1 := snd (chat srv message w) in
  In d (cr_artifacts cr) ->
  (exists s, sessions srv1 !! cr_session_id cr = Some s /\ In d (sess_artifacts s))
  /\ (exists v, read_snapshot w1 d = Some v /\ sv_metadata v = ∅)
  /\ (in_place u = false ->
      read_snapshot (snd (apply_update u a w1)) d = read_snapshot w1 d)
  /\ (forall m, ad_metadata d = art_metadata a ->
      sv_metadata <$> read_snapshot (snd (apply_update (UpdateMetadata m) a w1)) d
      = Some m).
Proof.
  destruct (chat srv message w) as [[srv1 cr] w1] eqn:Hc. cbn [fst snd].
  intros Hd.
  destruct (SnapshotFacts.chat_snapshots _ _ _ _ _ _ _ Hc Hd) as (Hs & Hmd).
  split; [exact Hs|].
  assert (read_snapshot w1 d
          = Some (mkView (ad_id d) (ad_type d) (ad_title d) (ad_content d)
                         (ad_language d) ∅ (ad_created_at d))) as Hread.
  { unfold read_snapshot, deref. now rewrite Hmd. }
  split; [eexists; split; [exact Hread|reflexivity]|].
  split.
  - intros Hu. rewrite Hread.
    destruct u as [v|v|v|v|md|md]; try discriminate Hu; try exact Hread.
    apply (SnapshotFacts.read_extends w1); [|exact Hread].
    unfold apply_update, mbind, M_bind.
    pose proof (WorldFacts.new_dict_extends md w1) as Hext.
    now destruct (new_dict md w1).
  - intros m Ha. unfold read_snapshot, deref.
    change (heap (snd (apply_update (UpdateMetadata m) a w1)))
      with (alter (fun x : Dict => m ∪ x) (art_metadata a) (heap w1)).
    rewrite <- Ha, lookup_alter_eq, Hmd.
    cbn [fmap option_fmap option_map sv_metadata].
    now rewrite (right_id_L ∅ (∪)).
Qed.

Lemma snapshot_unchanged_by_attribute_updates_witness :
  In demo_snapshot (cr_artifacts (snd (fst after_demo_turn)))
  /\ in_place (SetTitle "Renamed") = false
  /\ read_snapshot (snd (apply_update (SetTitle "Renamed") demo_artifact
                                      (snd after_demo_turn))) demo_snapshot
     = read_snapshot (snd after_demo_turn) demo_snapshot.
Proof.
  assert (In demo_snapshot (cr_artifacts (snd (fst after_demo_turn)))) as H
    by (rewrite (proj1 demo_turn_stores_snapshot); now left).
  split; [exact H|]. split; [reflexivity|].
  exact (proj1 (proj2 (proj2
           (snapshot_unchanged_by_attribute_updates
              sample_server (mkChatMessage "hello" (Some "s1") None) sample_world
              demo_artifact (SetTitle "Renamed") demo_snapshot H)))
         eq_refl).
Defined.

(* ===================================================================== *)
(** * The artifact store *)
(* ===================================================================== *)

Module DictFacts.
Section Ops.
Context {V : Type}.
Implicit Types (d : list (string * V)).

Lemma get_set_eq k v d : OrderedDict.get k (OrderedDict.set k v d) = Some v.
Proof.
  induction d as [|[k' v'] d IH]; simpl.
  - now rewrite String.eqb_refl.
  - destruct (String.eqb k k') eqn:E; simpl; [now rewrite String.eqb_refl|].
    now rewrite E.
Qed.

Lemma get_set_ne k k' v d :
  k <> k' -> OrderedDict.get k' (OrderedDict.set k v d) = OrderedDict.get k' d.
Proof.
  intros Hne. induction d as [|[k0 v0] d IH]; simpl.
  - destruct (String.eqb_spec k' k); [congruence|reflexivity].
  - destruct (String.eqb_spec k k0) as [->|]; simpl.
    + destruct (String.eqb_spec k' k0); [congruence|reflexivity].
    + now rewrite IH.
Qed.

(** Writing under a key that is there keeps every key where it is. *)
Lemma keys_set k v d x :
  OrderedDict.get k d = Some x ->
  List.map fst (OrderedDict.set k v d) = List.map fst d.
Proof.
  induction d as [|[k0 v0] d IH]; simpl; [discriminate|].
  destruct (String.eqb_spec k k0) as [->|]; simpl; [reflexivity|].
  intros H. now rewrite IH.
Qed.

End Ops.
End DictFacts.

Module SortFacts.
Section Sort.
Context {A : Type} (key : A -> Z).

Lemma insert_desc_perm x l : Permutation (insert_desc key x l) (x :: l).
Proof.
  induction l as [|y l IH]; simpl; [reflexivity|].
  destruct (key x <? key y)%Z; [|reflexivity].
  rewrite IH. apply perm_swap.
Qed.

Lemma sorted_reverse_perm l : Permutation (sorted_reverse key l) l.
Proof.
  induction l as [|x l IH]; simpl; [reflexivity|].
  rewrite insert_desc_perm. now constructor.
Qed.

Lemma insert_desc_sorted x l :
  StronglySorted (fun a b => (key b <= key a)%Z) l ->
  StronglySorted (fun a b => (key b <= key a)%Z) (insert_desc key x l).
Proof.
  induction 1 as [|y l Hs IH Hall]; simpl.
  - repeat constructor.
  - destruct (Z.ltb_spec (key x) (key y)).
    + constructor; [exact IH|].
      rewrite List.Forall_forall in *. intros z Hz.
      apply (Permutation_in _ (insert_desc_perm x l)) in Hz.
      destruct Hz as [<-|Hz]; [lia|now apply Hall].
    + constructor; [now constructor|].
      constructor; [assumption|].
      rewrite List.Forall_forall in *. intros z Hz.
      specialize (Hall z Hz). lia.
Qed.

Lemma sorted_reverse_sorted l :
  StronglySorted (fun a b => (key b <= key a)%Z) (sorted_reverse key l).
Proof.
  induction l as [|x l IH]; simpl; [constructor|].
  now apply insert_desc_sorted.
Qed.

End Sort.
End SortFacts.

Example update_merges_metadata :
  let '(store, w) := stocked in
  let id := "id-0" in
  let '(store', returned, w') :=
    ArtifactManager.update store id None (Some "Renamed")
                           (Some {[ "k" := VStr "v" ]}) w in
  (data_title <$> ArtifactManager.get store' id) = Some "Renamed"
  /\ (data_content <$> ArtifactManager.get store' id) = Some "x = 1"
  /\ ArtifactManager.get store' id = returned
  /\ (ArtifactManager.get store' id ≫= fun a => deref w' (data_metadata a))
     = Some ({[ "k" := VStr "v"; "author" := VStr "atlas" ]} : Dict).
Proof. vm_compute. repeat split. Qed.

(** C7. For an id that is in the store, [update] returns the artifact it
    leaves under that id: its content and its title are the ones given,
    or the former ones where none is given; its [updated_at] is the
    reading of the clock taken by the call; its other attributes are the
    former ones; the metadata given are merged key by key into its
    metadata dict, the keys that are not given keeping their values; and
    the other artifacts and the order of the store are untouched. For an
    id that is not in the store, [update] returns None and changes
    neither the store nor the world. *)
Theorem update_merges_and_replaces
        (self : ArtifactManager.t) (artifact_id : string)
        (content title : option string) (metadata : option Dict) (w : World) :
  let r := ArtifactManager.update self artifact_id content title metadata w in
  match ArtifactManager.get self artifact_id with
  | None => r = (self, None, w)
  | Some old =>
      exists new,
        snd (fst r) = Some new
        /\ ArtifactManager.get (fst (fst r)) artifact_id = Some new
        /\ data_content new = default (data_content old) content
        /\ data_title new = default (data_title old) title
        /\ data_updated_at new = clock_src w (clock_reads w)
        /\ (data_id new, data_type new, data_language new, data_session_id new,
            data_metadata new, data_created_at new)
           = (data_id old, data_type old, data_language old, data_session_id old,
              data_metadata old, data_created_at old)
        /\ (forall before,
              deref w (data_metadata old) = Some before ->
              exists after,
                deref (snd r) (data_metadata new) = Some after
                /\ match metadata with
                   | Some m => merged m before after
                   | None => after = before
                   end)
        /\ (forall other, other <> artifact_id ->
              ArtifactManager.get (fst (fst r)) other = ArtifactManager.get self other)
        /\ List.map fst (fst (fst r)) = List.map fst self
  end.
Proof.
  unfold ArtifactManager.update, ArtifactManager.get.
  destruct (OrderedDict.get artifact_id self) as [old|] eqn:Hget; [|reflexivity].
  unfold mbind, M_bind.
  exists (ArtifactManager.with_updated_at
            match title with
            | Some x =>
                ArtifactManager.with_title
                  match content with
                  | Some c => ArtifactManager.with_content old c
                  | None => old
                  end x
            | None =>
                match content with
                | Some c => ArtifactManager.with_content old c
                | None => old
                end
            end (clock_src w (clock_reads w))).
  cbn zeta.
  split; [destruct metadata; reflexivity|].
  split; [destruct metadata; cbn; apply DictFacts.get_set_eq|].
  split; [destruct content, title; reflexivity|].
  split; [destruct content, title; reflexivity|].
  split; [destruct metadata; reflexivity|].
  split; [destruct content, title; reflexivity|].
  split; [|split].
  - intros before Hb. unfold deref in *.
    destruct metadata as [m|].
    + exists (m ∪ before). split.
      * destruct content, title; cbn; rewrite lookup_alter_eq, Hb; reflexivity.
      * intros k. rewrite lookup_union.
        destruct (m !! k), (before !! k); reflexivity.
    + exists before. split; [|reflexivity].
      destruct content, title; cbn; exact Hb.
  - intros other Hne. destruct metadata; cbn; now apply DictFacts.get_set_ne.
  - destruct metadata; cbn; eapply DictFacts.keys_set; eassumption.
Qed.

Lemma update_merges_and_replaces_witness :
  ArtifactManager.get tiny_store "a1" = Some tiny_artifact
  /\ deref tiny_world 0 = Some ({[ "author" := VStr "atlas" ]} : Dict)
  /\ exists new after,
      snd (fst (ArtifactManager.update tiny_store "a1" None (Some "Renamed")
                                       (Some {[ "k" := VStr "v" ]}) tiny_world))
      = Some new
      /\ data_title new = "Renamed"
      /\ data_content new = "x = 1"
      /\ deref (snd (ArtifactManager.update tiny_store "a1" None (Some "Renamed")
                                            (Some {[ "k" := VStr "v" ]}) tiny_world))
               (data_metadata new) = Some after
      /\ merged {[ "k" := VStr "v" ]} {[ "author" := VStr "atlas" ]} after.
Proof.
  split; [reflexivity|]. split; [reflexivity|].
  destruct (update_merges_and_replaces tiny_store "a1" None (Some "Renamed")
              (Some {[ "k" := VStr "v" ]}) tiny_world)
    as (new & Hret & _ & Hc & Ht & _ & _ & Hmd & _).
  destruct (Hmd {[ "author" := VStr "atlas" ]} eq_refl) as (after & Ha & Hm).
  exists new, after. repeat split; assumption.
Defined.

Example export_of_a_session :
  let e := fst (ArtifactManager.export_session tiny_store "s1" tiny_world) in
  session_id e = "s1" /\ artifact_count e = 1%nat
  /\ List.map dd_id (exported_artifacts e) = ["a1"] /\ exported_at e = 100%Z.
Proof. vm_compute. repeat split. Qed.

(** The empty string is read by [list_all] as no session id: with it
    [export_session] counts every artifact of the store, where
    [clear_session], which compares by equality, finds none to remove. *)
Lemma export_of_empty_id_counts_every_artifact :
  artifact_count (fst (ArtifactManager.export_session tiny_store EmptyString tiny_world))
  = 1%nat
  /\ List.length (of_session tiny_store EmptyString) = 0%nat
  /\ artifact_count
       (fst (ArtifactManager.export_session tiny_store EmptyString tiny_world))
     <> List.length (of_session tiny_store EmptyString).
Proof.
  split; [reflexivity|]. split; [reflexivity|].
  vm_compute. discriminate.
Qed.

Example clear_of_empty_id_removes_nothing :
  ArtifactManager.clear_session tiny_store EmptyString = (tiny_store, 0%nat).
Proof. reflexivity. Qed.

(** The dict returned by [export_session] has no field named count: the
    number of artifacts is under the key artifact_count, so the fields
    are not the four that the claim names. *)
Lemma export_has_no_field_named_count :
  let e := fst (ArtifactManager.export_session tiny_store "s1" tiny_world) in
  List.map fst (SessionExport_items e)
  = ["session_id"; "artifact_count"; "artifacts"; "exported_at"]
  /\ OrderedDict.get "count" (SessionExport_items e) = None
  /\ ~ (forall k, In k (List.map fst (SessionExport_items e))
                  <-> In k ["session_id"; "count"; "artifacts"; "exported_at"]).
Proof.
  cbn zeta. split; [reflexivity|]. split; [reflexivity|].
  intros H. destruct (H "count") as [_ Hc].
  assert (Hin : In "count" ["session_id"; "count"; "artifacts"; "exported_at"])
    by (right; now left).
  apply Hc in Hin. cbn in Hin.
  destruct Hin as [E|[E|[E|[E|[]]]]]; discriminate E.
Qed.

(** C8, as the code has it. For a session id that is not empty,
    [export_session] returns a dict with exactly the keys session_id,
    artifact_count, artifacts and exported_at: the id it was given, the
    number of artifacts of the store whose session id is that id, those
    artifacts with the latest created first, and the instant of the
    export. *)
Theorem export_lists_the_session_newest_first
        (self : ArtifactManager.t) (sid : string) (w : World) :
  Py.truthy sid = true ->
  let e := fst (ArtifactManager.export_session self sid w) in
  List.map fst (SessionExport_items e)
  = ["session_id"; "artifact_count"; "artifacts"; "exported_at"]
  /\ OrderedDict.get "session_id" (SessionExport_items e) = Some (ESessionId sid)
  /\ OrderedDict.get "artifact_count" (SessionExport_items e)
     = Some (ECount (List.length (of_session self sid)))
  /\ OrderedDict.get "exported_at" (SessionExport_items e)
     = Some (EInstant (clock_src w (clock_reads w)))
  /\ exists listed,
      OrderedDict.get "artifacts" (SessionExport_items e)
      = Some (EArtifacts (List.map ArtifactData_to_dict listed))
      /\ Permutation listed (of_session self sid)
      /\ newest_first listed.
Proof.
  intros Hsid.
  unfold ArtifactManager.export_session, ArtifactManager.list_all, of_session,
    mbind, M_bind.
  rewrite Hsid.
  cbn [fst snd now SessionExport_items OrderedDict.get
       session_id artifact_count exported_at exported_artifacts].
  split; [reflexivity|]. split; [reflexivity|]. split; [|split; [reflexivity|]].
  - cbn. do 2 f_equal. apply Permutation_length, SortFacts.sorted_reverse_perm.
  - eexists. split; [reflexivity|]. split.
    + apply SortFacts.sorted_reverse_perm.
    + apply SortFacts.sorted_reverse_sorted.
Qed.

Lemma export_lists_the_session_newest_first_witness :
  Py.truthy "s1" = true
  /\ OrderedDict.get "artifact_count"
       (SessionExport_items (fst (ArtifactManager.export_session shelf "s1" tiny_world)))
     = Some (ECount (List.length (of_session shelf "s1"))).
Proof.
  split; [reflexivity|].
  exact (proj1 (proj2 (proj2
           (export_lists_the_session_newest_first shelf "s1" tiny_world eq_refl)))).
Defined.

(* ===================================================================== *)
(** * Further properties of the artifact store *)
(* ===================================================================== *)

Module StoreFacts.

Section Dict.
Context {V : Type}.
Implicit Types (d : list (string * V)).

Lemma get_In k v d : OrderedDict.get k d = Some v -> In (k, v) d.
Proof.
  induction d as [|[k0 v0] d IH]; simpl; [discriminate|].
  destruct (String.eqb_spec k k0) as [->|].
  - intros [= ->]. now left.
  - intros H. right. now apply IH.
Qed.

Lemma get_None k d : OrderedDict.get k d = None <-> ~ In k (List.map fst d).
Proof.
  induction d as [|[k0 v0] d IH]; simpl; [tauto|].
  destruct (String.eqb_spec k k0) as [->|]; split.
  - discriminate.
  - intros H. exfalso. apply H. now left.
  - intros H [E|Hin]; [congruence|]. now apply IH.
  - intros H. apply IH. tauto.
Qed.

Lemma In_get k v d : List.NoDup (List.map fst d) -> In (k, v) d -> OrderedDict.get k d = Some v.
Proof.
  induction d as [|[k0 v0] d IH]; simpl; [tauto|].
  intros Hnd [E|Hin].
  - injection E as -> ->. now rewrite String.eqb_refl.
  - apply NoDup_cons_iff in Hnd as [Hk0 Hnd].
    destruct (String.eqb_spec k k0) as [->|]; [|now apply IH].
    exfalso. apply Hk0. now apply (in_map fst) in Hin.
Qed.

(** Writing under a key that is not there appends it. *)
Lemma set_new k v d :
  OrderedDict.get k d = None -> OrderedDict.set k v d = (d ++ [(k, v)])%list.
Proof.
  induction d as [|[k0 v0] d IH]; simpl; [reflexivity|].
  destruct (String.eqb_spec k k0); [discriminate|].
  intros H. now rewrite IH.
Qed.

Lemma keys_set_new k v d :
  OrderedDict.get k d = None ->
  List.map fst (OrderedDict.set k v d) = (List.map fst d ++ [k])%list.
Proof. intros H. rewrite set_new by assumption. now rewrite map_app. Qed.

Lemma In_set k v d item :
  In item (OrderedDict.set k v d) -> item = (k, v) \/ In item d.
Proof.
  induction d as [|[k0 v0] d IH]; simpl.
  - intros [<-|[]]. now left.
  - destruct (String.eqb_spec k k0) as [->|]; simpl.
    + intros [<-|H]; [now left|right; now right].
    + intros [<-|H]; [right; now left|].
      destruct (IH H); [now left|right; now right].
Qed.

(** With no key twice, deleting a key is filtering it out. *)
Lemma del_filter k d :
  List.NoDup (List.map fst d) ->
  OrderedDict.del k d = List.filter (fun item => negb (String.eqb k (fst item))) d.
Proof.
  induction d as [|[k0 v0] d IH]; simpl; [reflexivity|].
  intros Hnd. apply NoDup_cons_iff in Hnd as [Hk0 Hnd].
  destruct (String.eqb_spec k k0) as [->|]; simpl.
  - symmetry. apply List.forallb_filter_id. apply forallb_forall.
    intros [k1 v1] Hin. simpl.
    destruct (String.eqb_spec k0 k1) as [->|]; [|reflexivity].
    exfalso. apply Hk0. now apply (in_map fst) in Hin.
  - now rewrite IH.
Qed.

Lemma keys_filter_NoDup (P : string * V -> bool) d :
  List.NoDup (List.map fst d) -> List.NoDup (List.map fst (List.filter P d)).
Proof.
  induction d as [|item d IH]; simpl; [constructor|].
  intros Hnd. apply NoDup_cons_iff in Hnd as [Hk Hnd].
  destruct (P item); simpl; [|now apply IH].
  constructor; [|now apply IH].
  intros Hin. apply Hk. apply in_map_iff in Hin as (x & <- & Hx).
  apply filter_In in Hx as [Hx _]. now apply in_map.
Qed.

Lemma filter_twice (P Q : string * V -> bool) d :
  List.filter Q (List.filter P d) = List.filter (fun item => P item && Q item) d.
Proof.
  induction d as [|item d IH]; simpl; [reflexivity|].
  destruct (P item); simpl; [destruct (Q item)|]; now rewrite IH.
Qed.

Lemma del_all_filter ks d :
  List.NoDup (List.map fst d) ->
  List.fold_left (fun d k => OrderedDict.del k d) ks d
  = List.filter (fun item => negb (existsb (String.eqb (fst item)) ks)) d.
Proof.
  revert d. induction ks as [|k ks IH]; intros d Hnd; simpl.
  - symmetry. apply List.forallb_filter_id. now apply forallb_forall.
  - rewrite del_filter by assumption.
    rewrite IH by now apply keys_filter_NoDup.
    rewrite filter_twice. apply List.filter_ext. intros [k1 v1]. simpl.
    rewrite (String.eqb_sym k1 k).
    destruct (String.eqb k k1), (existsb (String.eqb k1) ks); reflexivity.
Qed.

Lemma get_del_ne k k' d :
  k <> k' -> OrderedDict.get k' (OrderedDict.del k d) = OrderedDict.get k' d.
Proof.
  intros Hne. induction d as [|[k0 v0] d IH]; simpl; [reflexivity|].
  destruct (String.eqb_spec k k0) as [->|]; simpl.
  - destruct (String.eqb_spec k' k0); [congruence|reflexivity].
  - now rewrite IH.
Qed.

Lemma get_filter_out k (P : string * V -> bool) d :
  (forall v, P (k, v) = false) -> OrderedDict.get k (List.filter P d) = None.
Proof.
  intros HP. apply get_None. intros Hin.
  apply in_map_iff in Hin as ([k0 v0] & E & Hin). simpl in E. subst k0.
  apply filter_In in Hin as [_ Hin]. rewrite HP in Hin. discriminate.
Qed.

End Dict.

Lemma filter_values (P : ArtifactData -> bool) (Q : string * ArtifactData -> bool) self :
  (forall item, In item self -> Q item = P (snd item)) ->
  OrderedDict.values (List.filter Q self) = List.filter P (OrderedDict.values self).
Proof.
  unfold OrderedDict.values.
  induction self as [|item self IH]; simpl; [reflexivity|].
  intros H. rewrite (H item) by now left.
  destruct (P (snd item)); simpl; rewrite IH; auto.
Qed.

Lemma store_ok_nil : store_ok [].
Proof. split; constructor. Qed.

Lemma store_ok_set v self :
  store_ok self -> store_ok (OrderedDict.set (data_id v) v self).
Proof.
  intros [Hnd Hall]. split.
  - destruct (OrderedDict.get (data_id v) self) eqn:E.
    + erewrite DictFacts.keys_set by eassumption. assumption.
    + rewrite keys_set_new by assumption.
      apply (Permutation_NoDup (Permutation_cons_append _ _)).
      constructor; [now apply get_None|assumption].
  - apply List.Forall_forall. intros item Hin.
    apply In_set in Hin as [->|Hin]; [reflexivity|].
    rewrite List.Forall_forall in Hall. now apply Hall.
Qed.

Lemma store_ok_filter (P : string * ArtifactData -> bool) self :
  store_ok self -> store_ok (List.filter P self).
Proof.
  intros [Hnd Hall]. split; [now apply keys_filter_NoDup|].
  rewrite List.Forall_forall in *. intros item Hin.
  apply filter_In in Hin as [Hin _]. now apply Hall.
Qed.

(** In a well-formed store, an entry is selected by its key exactly when
    it is by the id of its artifact. *)
Lemma key_is_id self item : store_ok self -> In item self -> fst item = data_id (snd item).
Proof. intros [_ Hall]. rewrite List.Forall_forall in Hall. apply Hall. Qed.

Lemma metadata_or_new_run metadata w :
  let r := ArtifactManager.metadata_or_new metadata w in
  uuid_src (snd r) = uuid_src w /\ uuid_drawn (snd r) = uuid_drawn w
  /\ clock_src (snd r) = clock_src w /\ clock_reads (snd r) = clock_reads w
  /\ match kept_metadata metadata w with
     | Some md => fst r = md /\ snd r = w
     | None =>
         heap w !! fst r = None
         /\ heap (snd r) = <[fst r := ∅]> (heap w)
     end.
Proof.
  unfold ArtifactManager.metadata_or_new, kept_metadata.
  assert (Hnew : let r := new_dict ∅ w in
            uuid_src (snd r) = uuid_src w /\ uuid_drawn (snd r) = uuid_drawn w
            /\ clock_src (snd r) = clock_src w /\ clock_reads (snd r) = clock_reads w
            /\ heap w !! fst r = None
            /\ heap (snd r) = <[fst r := ∅]> (heap w)).
  { simpl. repeat split. apply WorldFacts.fresh_unused. }
  destruct metadata as [a|]; [|exact Hnew].
  destruct (deref w a) as [d|]; [|exact Hnew].
  destruct (decide (d = ∅)); [exact Hnew|].
  simpl. repeat split.
Qed.

(** What [update] leaves of a known artifact. *)
Lemma update_shape self artifact_id content title metadata w old :
  OrderedDict.get artifact_id self = Some old ->
  exists new,
    fst (fst (ArtifactManager.update self artifact_id content title metadata w))
    = OrderedDict.set artifact_id new self
    /\ data_id new = data_id old
    /\ data_session_id new = data_session_id old
    /\ data_created_at new = data_created_at old
    /\ data_type new = data_type old.
Proof.
  intros Hget. unfold ArtifactManager.update. rewrite Hget.
  unfold mbind, M_bind.
  destruct metadata, content, title; cbn; eexists; split; try reflexivity; cbn; auto.
Qed.

Section Sort.
Context {A : Type} (key : A -> Z).

(** The sort is stable: it keeps apart only elements with different
    keys. *)
Lemma insert_desc_stable z x l :
  List.filter (fun a => (key a =? z)%Z) (insert_desc key x l)
  = List.filter (fun a => (key a =? z)%Z) (x :: l).
Proof.
  induction l as [|y l IH]; [reflexivity|].
  cbn [insert_desc]. destruct (Z.ltb_spec (key x) (key y)); [|reflexivity].
  cbn [List.filter] in *. rewrite IH.
  destruct (Z.eqb_spec (key x) z), (Z.eqb_spec (key y) z); try reflexivity. lia.
Qed.

Lemma sorted_reverse_stable z l :
  List.filter (fun a => (key a =? z)%Z) (sorted_reverse key l)
  = List.filter (fun a => (key a =? z)%Z) l.
Proof.
  induction l as [|x l IH]; [reflexivity|].
  cbn [sorted_reverse List.fold_right]. rewrite insert_desc_stable.
  cbn [List.filter]. fold (sorted_reverse key l). now rewrite IH.
Qed.

(** Changing the elements without changing their keys commutes with the
    sort. *)
Lemma insert_desc_map (f : A -> A) x l :
  key (f x) = key x ->
  (forall a, In a l -> key (f a) = key a) ->
  insert_desc key (f x) (List.map f l) = List.map f (insert_desc key x l).
Proof.
  intros Hx Hf. induction l as [|y l IH]; [reflexivity|].
  cbn [insert_desc List.map]. rewrite Hx, (Hf y) by now left.
  destruct (key x <? key y)%Z; [|reflexivity].
  cbn [List.map]. rewrite IH; [reflexivity|]. intros a Ha. apply Hf. now right.
Qed.

Lemma sorted_reverse_map (f : A -> A) l :
  (forall a, In a l -> key (f a) = key a) ->
  sorted_reverse key (List.map f l) = List.map f (sorted_reverse key l).
Proof.
  induction l as [|x l IH]; intros Hf; [reflexivity|].
  cbn [sorted_reverse List.fold_right List.map].
  fold (sorted_reverse key (List.map f l)). fold (sorted_reverse key l).
  rewrite IH by (intros a Ha; apply Hf; now right).
  apply insert_desc_map; [apply Hf; now left|].
  intros a Ha. apply Hf. right.
  exact (Permutation_in _ (SortFacts.sorted_reverse_perm key l) Ha).
Qed.

End Sort.

Lemma filter_map_commute {A : Type} (P : A -> bool) (f : A -> A) l :
  (forall a, In a l -> P (f a) = P a) ->
  List.filter P (List.map f l) = List.map f (List.filter P l).
Proof.
  induction l as [|x l IH]; intros Hf; [reflexivity|].
  cbn [List.filter List.map]. rewrite (Hf x) by now left.
  rewrite IH by (intros a Ha; apply Hf; now right).
  destruct (P x); reflexivity.
Qed.

(** In a well-formed store, writing under a key that is there changes
    the one artifact with that id. *)
Lemma values_set k new self old :
  store_ok self ->
  OrderedDict.get k self = Some old ->
  OrderedDict.values (OrderedDict.set k new self)
  = List.map (fun a => if String.eqb k (data_id a) then new else a)
             (OrderedDict.values self).
Proof.
  unfold OrderedDict.values. intros [Hnd Hall].
  induction self as [|[k0 v0] self IH]; [discriminate|].
  apply NoDup_cons_iff in Hnd as [Hk0 Hnd].
  apply Forall_cons_iff in Hall as [Hid Hall]. simpl in Hid. subst k0.
  cbn [OrderedDict.get OrderedDict.set List.map snd].
  destruct (String.eqb_spec k (data_id v0)) as [->|Hne]; intros Hget.
  - cbn [List.map snd]. f_equal.
    rewrite <- (List.map_id (List.map snd self)) at 1.
    rewrite !List.map_map. apply List.map_ext_in. intros [k1 v1] Hin.
    cbn [snd].
    destruct (String.eqb_spec (data_id v0) (data_id v1)) as [E|]; [|reflexivity].
    exfalso. apply Hk0. rewrite E.
    rewrite List.Forall_forall in Hall.
    pose proof (Hall _ Hin) as Hk. simpl in Hk. subst k1.
    now apply (in_map fst) in Hin.
  - cbn [List.map snd]. f_equal. now apply IH.
Qed.

End StoreFacts.

Lemma store_ok_shelf : store_ok shelf.
Proof.
  split.
  - repeat constructor; simpl; intuition discriminate.
  - repeat constructor.
Qed.

Module ExtensionFacts.

Lemma lower_char_idem c : Py.lower_char (Py.lower_char c) = Py.lower_char c.
Proof. destruct c as [[] [] [] [] [] [] [] []]; vm_compute; reflexivity. Qed.

Lemma lower_idem s : Py.lower (Py.lower s) = Py.lower s.
Proof. induction s as [|c s IH]; simpl; [reflexivity|]. now rewrite lower_char_idem, IH. Qed.

Lemma code_extension_dot language :
  Py.startswith "." (ArtifactManager._get_code_extension language) = true.
Proof.
  unfold ArtifactManager._get_code_extension.
  generalize (match language with
              | Some l => if Py.truthy l then Py.lower l else ""
              | None => ""
              end).
  intros key. unfold ArtifactManager.code_extensions.
  cbn [OrderedDict.get].
  repeat (destruct (String.eqb key _); [reflexivity|]).
  reflexivity.
Qed.

End ExtensionFacts.

(* ===================================================================== *)
(** * Further properties of turns *)
(* ===================================================================== *)

Module StripFacts.

Lemma lstrip_stops s : stops Py.is_space (Py.lstrip s).
Proof.
  induction s as [|c s IH]; simpl; [exact I|].
  destruct (Py.is_space c) eqn:E; [exact IH|exact E].
Qed.

Lemma lstrip_id s : stops Py.is_space s -> Py.lstrip s = s.
Proof. destruct s as [|c s]; simpl; [reflexivity|]. now intros ->. Qed.

Lemma rstrip_stops s : stops Py.is_space s -> stops Py.is_space (Py.rstrip s).
Proof.
  destruct s as [|c s]; simpl; [trivial|]. intros E.
  destruct (Py.rstrip s); [rewrite E|]; exact E.
Qed.

Lemma rstrip_idem s : Py.rstrip (Py.rstrip s) = Py.rstrip s.
Proof.
  induction s as [|c s IH]; simpl; [reflexivity|].
  destruct (Py.rstrip s) as [|d r] eqn:E.
  - destruct (Py.is_space c) eqn:Ec; simpl; [reflexivity|now rewrite Ec].
  - cbn [Py.rstrip]. cbn [Py.rstrip] in IH. now rewrite IH.
Qed.

(** Stripping a stripped text changes nothing. *)
Lemma strip_idem s : Py.strip (Py.strip s) = Py.strip s.
Proof.
  unfold Py.strip.
  rewrite (lstrip_id (Py.rstrip (Py.lstrip s)))
    by apply rstrip_stops, lstrip_stops.
  apply rstrip_idem.
Qed.

End StripFacts.

Module TagFacts.

Lemma startswith_app p s : Py.startswith p (p ++ s) = true.
Proof. induction p as [|a p IH]; simpl; [reflexivity|]. now rewrite Ascii.eqb_refl. Qed.

Lemma contains_app p a b : Py.contains p (a ++ p ++ b) = true.
Proof.
  induction a as [|c a IH].
  - change (EmptyString ++ p ++ b)%string with (p ++ b)%string.
    destruct (p ++ b)%string eqn:E; simpl; rewrite <- E, startswith_app; reflexivity.
  - change (String c a ++ p ++ b)%string with (String c (a ++ p ++ b)).
    cbn [Py.contains]. rewrite IH. apply orb_true_r.
Qed.

Lemma contains_tail p c s : Py.contains p (String c s) = false -> Py.contains p s = false.
Proof. cbn [Py.contains]. intros H. now apply orb_false_elim in H as [_ H]. Qed.

Lemma render_closing t tail : exists x, render t tail = (x ++ "</artifact>" ++ tail)%string.
Proof.
  unfold render, render_attribute.
  exists ("<artifact" ++ tag_space t ++ "type" ++ "=" ++ Py.DQ ++ tag_type t ++ Py.DQ
          ++ render_optional "language" (tag_language t)
               (render_optional "title" (tag_title t) (">" ++ tag_body t)))%string.
  rewrite !StrFacts.app_assoc. do 7 f_equal.
  destruct (tag_language t) as [[sp1 v1]|], (tag_title t) as [[sp2 v2]|];
    unfold render_optional, render_attribute;
    rewrite ?StrFacts.app_assoc; reflexivity.
Qed.

Lemma render_opening t tail : exists x, render t tail = ("<artifact" ++ x)%string.
Proof. unfold render. eexists. reflexivity. Qed.

(** A match holds the text that opens a tag and the text that closes
    it. *)
Lemma match_has_both s g rest :
  artifact_pattern s = Some (g, rest) ->
  Py.contains "<artifact" s = true /\ Py.contains "</artifact>" s = true.
Proof.
  intros H. apply PatternFacts.match_sound in H as (t & _ & -> & _). split.
  - destruct (render_opening t rest) as (x & ->).
    exact (contains_app "<artifact" EmptyString x).
  - destruct (render_closing t rest) as (x & ->). apply contains_app.
Qed.

Lemma no_tag_no_match p s :
  (forall x g rest, artifact_pattern x = Some (g, rest) -> Py.contains p x = true) ->
  Py.contains p s = false ->
  Re.findall artifact_pattern s = []
  /\ Re.sub artifact_pattern placeholder s = s.
Proof.
  intros Hp. induction s as [|c s IH]; intros H.
  - split; reflexivity.
  - assert (artifact_pattern (String c s) = None) as Hm.
    { destruct (artifact_pattern (String c s)) as [[g rest]|] eqn:E; [|reflexivity].
      apply Hp in E. congruence. }
    destruct (PassFacts.scan_step c s Hm) as [-> ->].
    destruct (IH (contains_tail _ _ _ H)) as [-> ->]. split; reflexivity.
Qed.

End TagFacts.

Module TurnFacts.

Lemma extract_one_run self m w :
  extract_one self m w
  = (append_artifact self
       (mkArtifact (uuid_src w (uuid_drawn w)) (g_type m)
          (Py.str_or (g_title m)
             ("Artifact " ++ Py.str_of_nat (List.length (artifacts self) + 1)))
          (Py.strip (g_content m))
          (if Py.truthy (g_language m) then Some (g_language m) else None)
          (fresh (dom (heap w))) (clock_src w (clock_reads w))),
     mkWorld (uuid_src w) (S (uuid_drawn w)) (clock_src w) (S (clock_reads w))
             (<[fresh (dom (heap w)) := ∅]> (heap w))).
Proof. reflexivity. Qed.

(** What the artifacts of the loop say depends on the captures and on
    the number of artifacts before them, and on nothing else. *)
Lemma extract_all_said ms : forall self w,
  List.map said (artifacts (fst (extract_all ms self w)))
  = (List.map said (artifacts self) ++ announced (List.length (artifacts self)) ms)%list.
Proof.
  induction ms as [|m ms IH]; intros self w.
  - simpl. now rewrite app_nil_r.
  - cbn [extract_all]. unfold mbind, M_bind. rewrite extract_one_run.
    rewrite IH. cbn [append_artifact artifacts announced].
    rewrite map_app, length_app, <- app_assoc. reflexivity.
Qed.

(** The metadata dicts of the loop are new objects, one per artifact, and
    the loop makes no other. *)
Lemma extract_all_fresh ms : forall self w,
  exists created,
    artifacts (fst (extract_all ms self w)) = (artifacts self ++ created)%list
    /\ List.NoDup (List.map art_metadata created)
    /\ (forall a, In a created -> heap w !! art_metadata a = None)
    /\ (forall addr d, heap (snd (extract_all ms self w)) !! addr = Some d ->
          heap w !! addr = Some d
          \/ (d = ∅ /\ In addr (List.map art_metadata created))).
Proof.
  induction ms as [|m ms IH]; intros self w.
  - exists []. simpl. rewrite app_nil_r. repeat split; [constructor|easy|auto].
  - cbn [extract_all]. unfold mbind, M_bind. rewrite extract_one_run.
    match goal with |- context [extract_all ms ?a ?b] =>
      destruct (IH a b) as (created & Hc & Hnd & Hnew & Hall) end.
    cbn [append_artifact artifacts heap] in *.
    eexists (_ :: created). rewrite Hc, <- app_assoc.
    split; [reflexivity|]. cbn [List.map art_metadata]. split; [|split].
    + constructor; [|assumption]. intros Hin.
      apply in_map_iff in Hin as (a & Ea & Ha). apply Hnew in Ha.
      rewrite Ea, lookup_insert_eq in Ha. discriminate.
    + intros a [<-|Ha]; [apply WorldFacts.fresh_unused|].
      apply Hnew in Ha.
      destruct (decide (art_metadata a = fresh (dom (heap w)))) as [E|Hne].
      * rewrite E, lookup_insert_eq in Ha. discriminate.
      * rewrite lookup_insert_ne in Ha by congruence. exact Ha.
    + intros addr d Hd. apply Hall in Hd as [Hd|[-> Hin]].
      * destruct (decide (addr = fresh (dom (heap w)))) as [->|Hne].
        -- rewrite lookup_insert_eq in Hd. injection Hd as <-.
           right. split; [reflexivity|now left].
        -- rewrite lookup_insert_ne in Hd by congruence. now left.
      * right. split; [reflexivity|now right].
Qed.

Lemma announced_tidy n ms a :
  Forall (fun m => exists t, well_formed t = true /\ m = groups_of t) ms ->
  In (said a) (announced n ms) -> tidy a.
Proof.
  revert n. induction ms as [|m ms IH]; intros n Hms Hin; [destruct Hin|].
  apply Forall_cons_iff in Hms as [(t & Hwf & ->) Hms].
  destruct Hin as [E|Hin]; [|now apply (IH (n + 1)%nat)].
  unfold said in E. injection E as E1 E2 E3 E4.
  unfold well_formed in Hwf.
  do 4 (apply andb_prop in Hwf as [Hwf ?]).
  apply AttrFacts.attr_value_inv in H2 as [Hty _].
  unfold tidy. rewrite <- E1, <- E2, <- E3, <- E4. cbn [groups_of g_type g_title g_language g_content].
  split; [exact Hty|]. split; [|split; [apply StripFacts.strip_idem|]].
  - unfold Py.str_or.
    destruct (Py.truthy (default EmptyString (optional_value (tag_title t)))) eqn:Et;
      [exact Et|reflexivity].
  - destruct (Py.truthy (default EmptyString (optional_value (tag_language t)))) eqn:El;
      [exact El|exact I].
Qed.

(** What a turn says, whatever the agent held before it. *)
Lemma execute_says self user_message sid w :
  let resp := snd (fst (execute self user_message sid w)) in
  List.map step_said (resp_steps resp)
  = [opening_thought user_message;
     match failure_of (agent_run self user_message) with
     | Some e => (ERROR, exn_text e)
     | None => (FINAL_ANSWER, resp_message resp)
     end]
  /\ List.map said (resp_artifacts resp)
     = match agent_run self user_message with
       | Returns (Some content) => announced 0 (Re.findall artifact_pattern content)
       | _ => []
       end
  /\ resp_message resp
     = match agent_run self user_message with
       | Returns (Some content) => Re.sub artifact_pattern placeholder content
       | Returns None =>
           ("Error during execution: " ++ exn_text TypeError_not_a_string)%string
       | Raises e => ("Error during execution: " ++ exn_text e)%string
       end.
Proof.
  unfold execute, mbind, M_bind.
  change (now w) with
    (clock_src w (clock_reads w),
     mkWorld (uuid_src w) (uuid_drawn w) (clock_src w) (S (clock_reads w)) (heap w)).
  cbn [fst snd].
  destruct (session_id_or_fresh sid _) as [s w1].
  unfold _run_react_loop, mbind, M_bind.
  rewrite WorldFacts.ExecutionStep_new_run.
  cbn [agent_run append_step set_session].
  destruct (agent_run self user_message) as [[content|]|e]; cbn [failure_of].
  - rewrite ExtractFacts.process_response_run.
    match goal with |- context [extract_all ?ms ?a ?b] =>
      pose proof (extract_all_said ms a b) as Hsaid;
      destruct (ExtractFacts.extract_all_frame ms a b) as (F1 & _);
      destruct (extract_all ms a b) as [self1 w3]
    end.
    cbn [fst snd execution_steps artifacts List.map List.length app] in *.
    rewrite WorldFacts.ExecutionStep_new_run.
    unfold mret, M_ret, now. cbn. rewrite F1. cbn. split; [reflexivity|].
    split; [exact Hsaid|reflexivity].
  - unfold ExecutionStep_new, now, uuid4, mbind, M_bind, mret, M_ret. cbn.
    repeat split.
  - unfold ExecutionStep_new, now, uuid4, mbind, M_bind, mret, M_ret. cbn.
    repeat split.
Qed.

(** What the agent holds after a streamed turn. *)
Lemma stream_execute_says self user_message sid w self' events w' :
  stream_execute self user_message sid w = (self', events, w') ->
  let text := accumulate (fst (_stream_agent_response self user_message)) in
  match snd (_stream_agent_response self user_message) with
  | Some e =>
      List.map step_said (execution_steps self') = [opening_thought user_message]
      /\ artifacts self' = []
      /\ heap w' = heap w
  | None =>
      List.map step_said (execution_steps self')
      = [opening_thought user_message;
         (FINAL_ANSWER, Re.sub artifact_pattern placeholder text)]
      /\ List.map said (artifacts self')
         = announced 0 (Re.findall artifact_pattern text)
  end.
Proof.
  unfold stream_execute, mbind, M_bind.
  change (now w) with
    (clock_src w (clock_reads w),
     mkWorld (uuid_src w) (uuid_drawn w) (clock_src w) (S (clock_reads w)) (heap w)).
  cbn [fst snd].
  destruct (ExecuteFacts.session_id_or_fresh_world sid
              (mkWorld (uuid_src w) (uuid_drawn w) (clock_src w) (S (clock_reads w))
                       (heap w))) as (Hh & _).
  destruct (session_id_or_fresh sid _) as [s w1]. cbn [fst snd heap] in Hh.
  unfold now at 1. rewrite WorldFacts.ExecutionStep_new_run.
  change (_stream_agent_response (append_step (set_session self s) ?t) user_message)
    with (_stream_agent_response self user_message).
  destruct (_stream_agent_response self user_message) as [chunks [e|]];
    cbn [fst snd].
  - intros H. injection H as <- <- <-. cbn. repeat split. exact Hh.
  - rewrite ExtractFacts.process_response_run.
    match goal with |- context [extract_all ?ms ?a ?b] =>
      pose proof (extract_all_said ms a b) as Hsaid;
      destruct (ExtractFacts.extract_all_frame ms a b) as (F1 & _);
      destruct (extract_all ms a b) as [self1 w3]
    end.
    cbn [fst snd execution_steps artifacts List.map List.length app
         append_step set_session] in *.
    rewrite WorldFacts.ExecutionStep_new_run. unfold now, mret, M_ret.
    intros H. injection H as <- <- <-.
    cbn. rewrite F1. cbn. split; [reflexivity|exact Hsaid].
Qed.

End TurnFacts.

Module RouteFacts.

Lemma snapshot_said_to_dict l :
  List.map snapshot_said (List.map Artifact_to_dict l) = List.map said l.
Proof. rewrite List.map_map. reflexivity. Qed.

(** What a turn of POST /chat leaves under the id it ran under. *)
Lemma chat_record srv message w srv' cr w' :
  chat srv message w = (srv', cr, w') ->
  exists resp w2 w3 created asked answered active,
    execute (agent srv) (cm_content message) (Some (cr_session_id cr)) w2
    = (agent srv', resp, w3)
    /\ cr = mkChatResponse (cr_session_id cr) (resp_message resp) (resp_success resp)
                           (List.map Artifact_to_dict (resp_artifacts resp))
                           (List.map ExecutionStep_to_dict (resp_steps resp))
                           (resp_total_duration_ms resp)
    /\ sessions srv' !! cr_session_id cr
       = Some (let s0 := session_at_start srv (cr_session_id cr) created in
               mkSession (sess_id s0) (sess_created_at s0)
                 (sess_messages s0
                  ++ [mkMessage "user" (cm_content message) asked;
                      mkMessage "assistant" (cr_message cr) answered])
                 (sess_artifacts s0 ++ cr_artifacts cr)
                 (Some active))
    /\ (forall other, other <> cr_session_id cr ->
          sessions srv' !! other = sessions srv !! other).
Proof.
  intros Hc. apply ChatFacts.chat_spec in Hc.
  destruct Hc as (c & a & b & e & w2 & resp & w3 & Hex & _ & _ & _ & _ & Hl & Hfr & ->).
  cbn [cr_session_id cr_artifacts cr_message] in *.
  exists resp, w2, w3, c, a, b, e. repeat split; assumption.
Qed.

Lemma history_at_start srv sid c :
  sess_messages (session_at_start srv sid c) = sess_messages (session_at_start srv sid 0)
  /\ sess_artifacts (session_at_start srv sid c)
     = sess_artifacts (session_at_start srv sid 0).
Proof. unfold session_at_start. destruct (sessions srv !! sid); split; reflexivity. Qed.

Lemma find_artifact_sound aid l d :
  find_artifact aid l = Some d -> In d l /\ ad_id d = aid.
Proof.
  induction l as [|a l IH]; simpl; [discriminate|].
  destruct (String.eqb_spec (ad_id a) aid) as [E|].
  - intros [= <-]. split; [now left|assumption].
  - intros H. destruct (IH H). split; [now right|assumption].
Qed.

Lemma find_artifact_none aid l :
  find_artifact aid l = None -> forall d, In d l -> ad_id d <> aid.
Proof.
  induction l as [|a l IH]; simpl; [intros _ d []|].
  destruct (String.eqb_spec (ad_id a) aid) as [E|Hne]; [discriminate|].
  intros H d [<-|Hd]; [assumption|now apply IH].
Qed.

End RouteFacts.

(* ===================================================================== *)
(** * More about turns *)
(* ===================================================================== *)

(** X1. A turn reports itself and nothing else. Whatever steps and
    artifacts the agent held before [execute], the response has exactly
    two steps, the thought that opens the turn and then the final answer
    carrying the message of the response, or the error carrying the text
    of the exception; its artifacts are the ones announced by the tags of
    the reply, numbered from 1, and there are none when the turn failed;
    and the agent is left holding these same steps and artifacts. *)
Theorem execute_reports_this_turn_only
        (self : BaseAgent) (user_message : string) (sid : option string) (w : World) :
  let r := execute self user_message sid w in
  let resp := snd (fst r) in
  List.map step_said (resp_steps resp)
  = [opening_thought user_message;
     match failure_of (agent_run self user_message) with
     | Some e => (ERROR, exn_text e)
     | None => (FINAL_ANSWER, resp_message resp)
     end]
  /\ List.map said (resp_artifacts resp)
     = match agent_run self user_message with
       | Returns (Some content) => announced 0 (Re.findall artifact_pattern content)
       | _ => []
       end
  /\ execution_steps (fst (fst r)) = resp_steps resp
  /\ artifacts (fst (fst r)) = resp_artifacts resp.
Proof.
  destruct (TurnFacts.execute_says self user_message sid w) as (Hs & Ha & _).
  destruct (execute self user_message sid w) as [[self' resp] w'] eqn:E.
  destruct (ExecuteFacts.execute_spec _ _ _ _ _ _ _ E) as (H1 & H2 & _).
  cbn [fst snd] in *. repeat split; assumption.
Qed.

(** X2. Every artifact that [_process_response] appends has a type and
    a title that are not empty, a content with no whitespace left at
    either end, and a language that is absent or not empty. *)
Theorem extracted_artifacts_are_tidy
        (self : BaseAgent) (response : string) (w : World) :
  exists created,
    artifacts (fst (fst (_process_response self response w)))
    = (artifacts self ++ created)%list
    /\ Forall tidy created.
Proof.
  rewrite ExtractFacts.process_response_run. cbn [fst].
  destruct (ScanFacts.scan_exists response) as (ps & Hscan & _ & Hfind & _).
  pose proof (PassFacts.scanned_well_formed _ _ Hscan) as Hwf.
  pose proof (TurnFacts.extract_all_said
                (Re.findall artifact_pattern response) self w) as Hsaid.
  destruct (ExtractFacts.extract_all_artifacts
              (Re.findall artifact_pattern response) self w) as (created & Hc & _).
  exists created. split; [exact Hc|].
  rewrite Hc, map_app in Hsaid. apply app_inv_head in Hsaid.
  apply List.Forall_forall. intros a Ha.
  apply (TurnFacts.announced_tidy (List.length (artifacts self))
                                  (Re.findall artifact_pattern response)).
  - rewrite Hfind. apply List.Forall_forall. intros m Hm.
    apply in_map_iff in Hm as (t & <- & Ht).
    exists t. split; [|reflexivity].
    rewrite List.Forall_forall in Hwf. now apply Hwf.
  - rewrite <- Hsaid. now apply in_map.
Qed.

(** X3. Every artifact that [_process_response] appends has a metadata
    dict of its own: an object that did not exist before the call, empty
    after it, and shared with no other artifact of the call. The call
    makes no other dict object and changes none that existed. *)
Theorem extracted_artifacts_own_their_metadata
        (self : BaseAgent) (response : string) (w : World) :
  let r := _process_response self response w in
  exists created,
    artifacts (fst (fst r)) = (artifacts self ++ created)%list
    /\ List.NoDup (List.map art_metadata created)
    /\ (forall a, In a created ->
          heap w !! art_metadata a = None
          /\ heap (snd r) !! art_metadata a = Some ∅)
    /\ (forall addr d, heap (snd r) !! addr = Some d ->
          heap w !! addr = Some d
          \/ (d = ∅ /\ In addr (List.map art_metadata created))).
Proof.
  cbn zeta. rewrite ExtractFacts.process_response_run. cbn [fst snd].
  destruct (TurnFacts.extract_all_fresh
              (Re.findall artifact_pattern response) self w)
    as (created & Hc & Hnd & Hnew & Hall).
  destruct (ExtractFacts.extract_all_artifacts
              (Re.findall artifact_pattern response) self w)
    as (created' & Hc' & _ & _ & Hmd).
  assert (created' = created) as ->
    by (rewrite Hc in Hc'; now apply app_inv_head in Hc').
  exists created. repeat split; auto.
Qed.

(** X4. A text in which the opening of a tag or the closing tag never
    occurs goes through [_process_response] untouched: the message is the
    text itself, no artifact is appended, and no identifier, clock
    reading or dict object is consumed. *)
Theorem text_without_a_tag_is_returned_unchanged
        (self : BaseAgent) (response : string) (w : World) :
  Py.contains "<artifact" response = false
  \/ Py.contains "</artifact>" response = false ->
  _process_response self response w = (self, response, w).
Proof.
  intros H. rewrite ExtractFacts.process_response_run.
  assert (Re.findall artifact_pattern response = []
          /\ Re.sub artifact_pattern placeholder response = response) as [-> ->].
  { destruct H as [H|H].
    - apply (TagFacts.no_tag_no_match "<artifact"); [|exact H].
      intros x g rest Hx. now apply TagFacts.match_has_both in Hx.
    - apply (TagFacts.no_tag_no_match "</artifact>"); [|exact H].
      intros x g rest Hx. now apply TagFacts.match_has_both in Hx. }
  reflexivity.
Qed.

Lemma text_without_a_tag_is_returned_unchanged_witness :
  Py.contains "</artifact>" "an <artifact that is never closed" = false
  /\ _process_response (sample_agent (Returns None) (mkStream [] None))
                       "an <artifact that is never closed" sample_world
     = (sample_agent (Returns None) (mkStream [] None),
        "an <artifact that is never closed", sample_world).
Proof.
  split; [reflexivity|].
  apply text_without_a_tag_is_returned_unchanged. right. reflexivity.
Defined.

(** X5. The streaming path and the plain path agree. When the model
    returns a text, and its stream ends without failure with chunks that
    concatenate to the same text, the agent after [stream_execute] holds
    artifacts and steps that say the same as those of the response of
    [execute]. *)
Theorem streamed_and_plain_turns_agree
        (self : BaseAgent) (user_message content : string)
        (sid1 sid2 : option string) (w1 w2 : World) :
  agent_run self user_message = Returns (Some content) ->
  snd (_stream_agent_response self user_message) = None ->
  accumulate (fst (_stream_agent_response self user_message)) = content ->
  let resp := snd (fst (execute self user_message sid1 w1)) in
  let self' := fst (fst (stream_execute self user_message sid2 w2)) in
  List.map said (artifacts self') = List.map said (resp_artifacts resp)
  /\ List.map step_said (execution_steps self') = List.map step_said (resp_steps resp).
Proof.
  intros Hrun Hok Htext.
  destruct (TurnFacts.execute_says self user_message sid1 w1) as (Hs & Ha & Hm).
  destruct (stream_execute self user_message sid2 w2) as [[self' events] w'] eqn:E.
  pose proof (TurnFacts.stream_execute_says _ _ _ _ _ _ _ E) as Hstream.
  cbn zeta in *. rewrite Hok, Htext in Hstream. destruct Hstream as [Hs' Ha'].
  rewrite Hrun in Hs, Ha, Hm. cbn [failure_of] in Hs.
  cbn [fst snd]. rewrite Hs, Ha, Hs', Ha', Hm. split; reflexivity.
Qed.

Lemma streamed_and_plain_turns_agree_witness :
  let self := sample_agent (Returns (Some (demo_text ++ " end")%string))
                           (mkStream [Some demo_text; None; Some " end"] None) in
  agent_run self "hello" = Returns (Some (demo_text ++ " end")%string)
  /\ snd (_stream_agent_response self "hello") = None
  /\ accumulate (fst (_stream_agent_response self "hello")) = (demo_text ++ " end")%string
  /\ List.map said (artifacts (fst (fst (stream_execute self "hello" None sample_world))))
     = List.map said (resp_artifacts
                        (snd (fst (execute self "hello" (Some "s1") sample_world)))).
Proof.
  cbn zeta. split; [reflexivity|]. split; [reflexivity|].
  split; [vm_compute; reflexivity|].
  refine (proj1 (streamed_and_plain_turns_agree
                   (sample_agent (Returns (Some (demo_text ++ " end")%string))
                                 (mkStream [Some demo_text; None; Some " end"] None))
                   "hello" (demo_text ++ " end")%string
                   (Some "s1") None sample_world sample_world eq_refl eq_refl _)).
  vm_compute. reflexivity.
Defined.

(** X6. When the stream of the model fails, [stream_execute] leaves the
    agent with the opening thought as its only step: no error step is
    recorded (unlike [execute]), no artifact is built from the tokens
    received so far, and no dict object is made. *)
Theorem failed_stream_records_no_error_step
        (self : BaseAgent) (user_message : string) (sid : option string) (w : World)
        (e : Exn) :
  stream_failure (agent_run_stream self user_message) = Some e ->
  let r := stream_execute self user_message sid w in
  List.map step_said (execution_steps (fst (fst r))) = [opening_thought user_message]
  /\ artifacts (fst (fst r)) = []
  /\ heap (snd r) = heap w.
Proof.
  intros Hfail. cbn zeta.
  destruct (stream_execute self user_message sid w) as [[self' events] w'] eqn:E.
  pose proof (TurnFacts.stream_execute_says _ _ _ _ _ _ _ E) as Hstream.
  cbn zeta in Hstream. unfold _stream_agent_response in Hstream at 1.
  cbn [snd] in Hstream. rewrite Hfail in Hstream. exact Hstream.
Qed.

Lemma failed_stream_records_no_error_step_witness :
  let self := sample_agent (Returns None)
                           (mkStream [Some demo_text] (Some (mkExn "connection lost"))) in
  stream_failure (agent_run_stream self "hello") = Some (mkExn "connection lost")
  /\ artifacts (fst (fst (stream_execute self "hello" None sample_world))) = [].
Proof.
  cbn zeta. split; [reflexivity|].
  exact (proj1 (proj2 (failed_stream_records_no_error_step
                         (sample_agent (Returns None)
                            (mkStream [Some demo_text] (Some (mkExn "connection lost"))))
                         "hello" None sample_world (mkExn "connection lost") eq_refl))).
Defined.

(** X7. [add_artifact] appends the artifact it returns after the
    artifacts the agent holds, with type, title, content and language as
    given (the content is not stripped), and leaves the steps alone. A
    metadata dict that is passed in and not empty is kept as the very
    object, shared with the caller; otherwise the artifact gets a new
    empty dict, also when the caller passed an empty one. *)
Theorem add_artifact_appends_and_shares_metadata
        (self : BaseAgent) (artifact_type title content : string)
        (language : option string) (metadata : option nat) (w : World) :
  let r := add_artifact self artifact_type title content language metadata w in
  let self' := fst (fst r) in
  let a := snd (fst r) in
  artifacts self' = (artifacts self ++ [a])%list
  /\ execution_steps self' = execution_steps self
  /\ said a = (artifact_type, title, language, content)
  /\ match kept_metadata metadata w with
     | Some md => art_metadata a = md /\ heap (snd r) = heap w
     | None =>
         heap w !! art_metadata a = None
         /\ heap (snd r) = <[art_metadata a := ∅]> (heap w)
     end.
Proof.
  pose proof (StoreFacts.metadata_or_new_run metadata w) as Hmd.
  unfold add_artifact, mbind, M_bind.
  destruct (ArtifactManager.metadata_or_new metadata w) as [md w1].
  cbn in Hmd. destruct Hmd as (_ & _ & _ & _ & Hmd). cbn.
  repeat split.
  destruct (kept_metadata metadata w); [destruct Hmd as [-> ->]; now split|exact Hmd].
Qed.

(* ===================================================================== *)
(** * The session routes *)
(* ===================================================================== *)

(** X8. A turn of POST /chat touches one session. Every session under
    another id is left as it was. The artifacts of the response are those
    announced by the reply of this turn, numbered from 1, whatever the
    shared agent did before, for whichever session; the session of the
    turn gets exactly these artifacts appended to its artifact history,
    and the user message and the message of the response appended to its
    message history. *)
Theorem chat_keeps_sessions_and_turns_apart
        (srv : Server) (message : ChatMessage) (w : World) :
  let r := chat srv message w in
  let srv' := fst (fst r) in
  let cr := snd (fst r) in
  (forall other, other <> cr_session_id cr ->
     sessions srv' !! other = sessions srv !! other)
  /\ List.map snapshot_said (cr_artifacts cr)
     = match agent_run (agent srv) (cm_content message) with
       | Returns (Some content) => announced 0 (Re.findall artifact_pattern content)
       | _ => []
       end
  /\ exists s,
       sessions srv' !! cr_session_id cr = Some s
       /\ sess_artifacts s
          = (sess_artifacts (session_at_start srv (cr_session_id cr) 0)
             ++ cr_artifacts cr)%list
       /\ List.map spoken (sess_messages s)
          = (List.map spoken (sess_messages (session_at_start srv (cr_session_id cr) 0))
             ++ [("user", cm_content message); ("assistant", cr_message cr)])%list.
Proof.
  cbn zeta. destruct (chat srv message w) as [[srv' cr] w'] eqn:Hc. cbn [fst snd].
  destruct (RouteFacts.chat_record _ _ _ _ _ _ Hc)
    as (resp & w2 & w3 & c & a & b & e & Hex & Hcr & Hl & Hfr).
  destruct (TurnFacts.execute_says (agent srv) (cm_content message)
              (Some (cr_session_id cr)) w2) as (_ & Hsaid & _).
  rewrite Hex in Hsaid. cbn [fst snd] in Hsaid.
  destruct (RouteFacts.history_at_start srv (cr_session_id cr) c) as [Hm Ha].
  split; [exact Hfr|]. split.
  - rewrite Hcr. cbn [cr_artifacts]. now rewrite RouteFacts.snapshot_said_to_dict.
  - eexists. split; [exact Hl|]. cbn [sess_artifacts sess_messages].
    rewrite Ha, Hm. split; [reflexivity|]. now rewrite map_app.
Qed.

(** X9. A failed turn is answered, and recorded, like any other. When
    the model raises (or returns no content), POST /chat still returns a
    response: success is false, the message is the text Error during
    execution followed by the text of the exception, there are no
    artifacts and the steps are a thought and an error; the session keeps
    its artifacts and has the user message and that error message, as an
    assistant message, appended to its history. *)
Theorem chat_answers_failed_turns
        (srv : Server) (message : ChatMessage) (w : World) (e : Exn) :
  failure_of (agent_run (agent srv) (cm_content message)) = Some e ->
  let r := chat srv message w in
  let srv' := fst (fst r) in
  let cr := snd (fst r) in
  cr_success cr = false
  /\ cr_message cr = ("Error during execution: " ++ exn_text e)%string
  /\ cr_artifacts cr = []
  /\ List.map sd_type (cr_steps cr) = ["thought"; "error"]
  /\ exists s,
       sessions srv' !! cr_session_id cr = Some s
       /\ sess_artifacts s = sess_artifacts (session_at_start srv (cr_session_id cr) 0)
       /\ List.map spoken (sess_messages s)
          = (List.map spoken (sess_messages (session_at_start srv (cr_session_id cr) 0))
             ++ [("user", cm_content message);
                 ("assistant", ("Error during execution: " ++ exn_text e)%string)])%list.
Proof.
  intros Hfail. cbn zeta.
  destruct (chat srv message w) as [[srv' cr] w'] eqn:Hc. cbn [fst snd].
  destruct (RouteFacts.chat_record _ _ _ _ _ _ Hc)
    as (resp & w2 & w3 & c & a & b & d & Hex & Hcr & Hl & Hfr).
  destruct (ExecuteFacts.execute_spec _ _ _ _ _ _ _ Hex)
    as (_ & _ & _ & _ & _ & _ & _ & _ & _ & Hout).
  rewrite Hfail in Hout.
  destruct Hout as (Hs & Hm & Ha & thought & err & Hsteps & Ht & He & _).
  destruct (RouteFacts.history_at_start srv (cr_session_id cr) c) as [Hm0 Ha0].
  assert (Hmsg : cr_message cr = ("Error during execution: " ++ exn_text e)%string)
    by (rewrite Hcr; cbn [cr_message]; exact Hm).
  assert (Hart : cr_artifacts cr = [])
    by (rewrite Hcr; cbn [cr_artifacts]; now rewrite Ha).
  split; [rewrite Hcr; exact Hs|]. split; [exact Hmsg|]. split; [exact Hart|].
  split.
  - rewrite Hcr. cbn [cr_steps]. rewrite Hsteps. cbn. now rewrite Ht, He.
  - eexists. split; [exact Hl|]. cbn [sess_artifacts sess_messages].
    rewrite Hart, app_nil_r, Ha0, Hm0, Hmsg. split; [reflexivity|].
    now rewrite map_app.
Qed.

Lemma chat_answers_failed_turns_witness :
  let srv := mkServer ∅ (sample_agent (Raises (mkExn "boom")) (mkStream [] None)) in
  let message := mkChatMessage "hello" (Some "s1") None in
  failure_of (agent_run (agent srv) (cm_content message)) = Some (mkExn "boom")
  /\ cr_message (snd (fst (chat srv message sample_world)))
     = "Error during execution: boom".
Proof.
  cbn zeta. split; [reflexivity|].
  exact (proj1 (proj2 (chat_answers_failed_turns
           (mkServer ∅ (sample_agent (Raises (mkExn "boom")) (mkStream [] None)))
           (mkChatMessage "hello" (Some "s1") None) sample_world (mkExn "boom")
           eq_refl))).
Defined.

(** X10. DELETE /sessions/id answers not found for an unknown id and
    changes nothing; for a known id it answers deleted with the id.
    Afterwards the three read routes answer Session not found for that
    id, and answer for every other id what they answered before; the
    agent is untouched. *)
Theorem delete_session_forgets_one_session (srv : Server) (session_id : string) :
  let r := delete_session srv session_id in
  match sessions srv !! session_id with
  | None => r = (srv, NotFound "Session not found")
  | Some _ => snd r = Found ("deleted", session_id)
  end
  /\ get_session (fst r) session_id = NotFound "Session not found"
  /\ get_session_artifacts (fst r) session_id = NotFound "Session not found"
  /\ (forall artifact_id,
        get_artifact (fst r) session_id artifact_id = NotFound "Session not found")
  /\ (forall other, other <> session_id ->
        get_session (fst r) other = get_session srv other
        /\ get_session_artifacts (fst r) other = get_session_artifacts srv other
        /\ forall artifact_id,
             get_artifact (fst r) other artifact_id = get_artifact srv other artifact_id)
  /\ agent (fst r) = agent srv.
Proof.
  cbn zeta.
  assert (Hgone : sessions (fst (delete_session srv session_id)) !! session_id = None).
  { unfold delete_session. destruct (sessions srv !! session_id) eqn:E; cbn.
    - apply lookup_delete_eq.
    - exact E. }
  assert (Hkept : forall other, other <> session_id ->
            sessions (fst (delete_session srv session_id)) !! other
            = sessions srv !! other).
  { intros other Hne. unfold delete_session.
    destruct (sessions srv !! session_id); cbn; [|reflexivity].
    now apply lookup_delete_ne. }
  split; [|split; [|split; [|split; [|split]]]].
  - unfold delete_session. now destruct (sessions srv !! session_id).
  - unfold get_session. now rewrite Hgone.
  - unfold get_session_artifacts. now rewrite Hgone.
  - intros aid. unfold get_artifact. now rewrite Hgone.
  - intros other Hne. unfold get_session, get_session_artifacts, get_artifact.
    rewrite (Hkept other Hne). repeat split.
  - unfold delete_session. now destruct (sessions srv !! session_id).
Qed.

(** X11. A turn under the id of a deleted session starts the session
    anew: whatever its history was before the deletion, after the turn
    the session holds exactly the two messages of the turn and exactly
    the artifacts of its response. *)
Theorem chat_after_delete_starts_anew
        (srv : Server) (message : ChatMessage) (w : World) (session_id : string) :
  cm_session_id message = Some session_id ->
  Py.truthy session_id = true ->
  let r := chat (fst (delete_session srv session_id)) message w in
  let cr := snd (fst r) in
  cr_session_id cr = session_id
  /\ exists s,
       sessions (fst (fst r)) !! session_id = Some s
       /\ sess_id s = session_id
       /\ List.map spoken (sess_messages s)
          = [("user", cm_content message); ("assistant", cr_message cr)]
       /\ sess_artifacts s = cr_artifacts cr.
Proof.
  intros Hsid Htruthy. cbn zeta.
  assert (Hgone : sessions (fst (delete_session srv session_id)) !! session_id = None).
  { unfold delete_session. destruct (sessions srv !! session_id) eqn:E; cbn.
    - apply lookup_delete_eq.
    - exact E. }
  destruct (chat (fst (delete_session srv session_id)) message w)
    as [[srv' cr] w'] eqn:Hc. cbn [fst snd].
  pose proof (ChatFacts.chat_spec _ _ _ _ _ _ Hc) as Hspec.
  rewrite Hsid, (ExecuteFacts.session_id_or_fresh_given _ _ Htruthy) in Hspec.
  cbn [fst] in Hspec.
  destruct Hspec as (c & a & b & e & w2 & resp & w3 & _ & _ & _ & _ & _ & Hl & _ & ->).
  cbn [cr_session_id cr_message cr_artifacts].
  split; [reflexivity|]. eexists. split; [exact Hl|].
  unfold session_at_start. rewrite Hgone. cbn. repeat split.
Qed.

Lemma chat_after_delete_starts_anew_witness :
  cm_session_id (mkChatMessage "again" (Some "s1") None) = Some "s1"
  /\ Py.truthy "s1" = true
  /\ cr_session_id
       (snd (fst (chat (fst (delete_session (fst (fst after_demo_turn)) "s1"))
                       (mkChatMessage "again" (Some "s1") None) sample_world)))
     = "s1".
Proof.
  split; [reflexivity|]. split; [reflexivity|].
  exact (proj1 (chat_after_delete_starts_anew (fst (fst after_demo_turn))
                  (mkChatMessage "again" (Some "s1") None) sample_world "s1"
                  eq_refl eq_refl)).
Defined.

(** X12. Every artifact of a chat response can be fetched: right after
    the turn, GET /sessions/sid/artifacts/id under the id of each
    artifact of the response finds an artifact with that id, and GET
    /sessions/sid/artifacts lists the earlier artifacts followed by those
    of the response. Whatever [get_artifact] finds has the id asked for
    and is in the history of the session asked for. *)
Theorem get_artifact_finds_what_chat_stored
        (srv : Server) (message : ChatMessage) (w : World) :
  let r := chat srv message w in
  let srv' := fst (fst r) in
  let cr := snd (fst r) in
  (forall d, In d (cr_artifacts cr) ->
     exists d', get_artifact srv' (cr_session_id cr) (ad_id d) = Found d'
                /\ ad_id d' = ad_id d)
  /\ (forall session_id artifact_id d,
        get_artifact srv' session_id artifact_id = Found d ->
        ad_id d = artifact_id
        /\ exists s, sessions srv' !! session_id = Some s /\ In d (sess_artifacts s))
  /\ get_session_artifacts srv' (cr_session_id cr)
     = Found (sess_artifacts (session_at_start srv (cr_session_id cr) 0)
              ++ cr_artifacts cr)%list.
Proof.
  cbn zeta. destruct (chat srv message w) as [[srv' cr] w'] eqn:Hc. cbn [fst snd].
  destruct (RouteFacts.chat_record _ _ _ _ _ _ Hc)
    as (resp & w2 & w3 & c & a & b & e & _ & _ & Hl & _).
  destruct (RouteFacts.history_at_start srv (cr_session_id cr) c) as [_ Ha].
  split; [|split].
  - intros d Hd. unfold get_artifact. rewrite Hl. cbn [sess_artifacts].
    destruct (find_artifact (ad_id d) _) as [d'|] eqn:Hf.
    + exists d'. split; [reflexivity|]. now apply RouteFacts.find_artifact_sound in Hf.
    + exfalso. apply (RouteFacts.find_artifact_none _ _ Hf d); [|reflexivity].
      apply in_or_app. now right.
  - intros sid aid d. unfold get_artifact.
    destruct (sessions srv' !! sid) as [s|]; [|discriminate].
    destruct (find_artifact aid (sess_artifacts s)) as [d'|] eqn:Hf; [|discriminate].
    intros [= <-]. apply RouteFacts.find_artifact_sound in Hf as [Hin Hid].
    split; [exact Hid|]. now exists s.
  - unfold get_session_artifacts. rewrite Hl. cbn [sess_artifacts]. now rewrite Ha.
Qed.

(* ===================================================================== *)
(** * The artifact store *)
(* ===================================================================== *)

(** X13. [create] stores the artifact it returns under the id drawn for
    it: [get] with that id gives it back, and gives for any other id what
    it gave before. The artifact has the type, title, content, language
    and session id passed in. A metadata dict that is passed in and not
    empty is kept as the very object; otherwise the artifact gets a new
    empty dict. An id not yet in the store goes to the end of it. *)
Theorem create_stores_a_retrievable_artifact
        (self : ArtifactManager.t) (artifact_type title content : string)
        (language session_id : option string) (metadata : option nat) (w : World) :
  let r := ArtifactManager.create self artifact_type title content language
                                  session_id metadata w in
  let self' := fst (fst r) in
  let a := snd (fst r) in
  ArtifactManager.get self' (data_id a) = Some a
  /\ (forall other, other <> data_id a ->
        ArtifactManager.get self' other = ArtifactManager.get self other)
  /\ data_id a = uuid_src w (uuid_drawn w)
  /\ (data_type a, data_title a, data_content a, data_language a, data_session_id a)
     = (artifact_type, title, content, language, session_id)
  /\ match kept_metadata metadata w with
     | Some md => data_metadata a = md /\ heap (snd r) = heap w
     | None =>
         heap w !! data_metadata a = None
         /\ heap (snd r) = <[data_metadata a := ∅]> (heap w)
     end
  /\ match ArtifactManager.get self (data_id a) with
     | None => ids self' = (ids self ++ [data_id a])%list
     | Some _ => ids self' = ids self
     end.
Proof.
  pose proof (StoreFacts.metadata_or_new_run metadata w) as Hmd.
  unfold ArtifactManager.create, ArtifactManager.get, mbind, M_bind, ids.
  destruct (ArtifactManager.metadata_or_new metadata w) as [md w1].
  cbn in Hmd. destruct Hmd as (Hu & Hd & _ & _ & Hmd).
  cbn. rewrite Hu, Hd.
  split; [apply DictFacts.get_set_eq|].
  split; [intros other Hne; apply DictFacts.get_set_ne; congruence|].
  split; [reflexivity|]. split; [reflexivity|].
  split.
  - destruct (kept_metadata metadata w); [destruct Hmd as [-> ->]; now split|exact Hmd].
  - destruct (OrderedDict.get _ self) eqn:E.
    + eapply DictFacts.keys_set; eassumption.
    + now apply StoreFacts.keys_set_new.
Qed.

(** X14. In a store with no id twice, [delete] answers whether the id
    was there; afterwards [get] finds nothing under it and finds under
    every other id what it found before, and the artifacts left are the
    others, in the order they had. *)
Theorem delete_removes_one_artifact (self : ArtifactManager.t) (artifact_id : string) :
  store_ok self ->
  let r := ArtifactManager.delete self artifact_id in
  snd r = match ArtifactManager.get self artifact_id with
          | Some _ => true
          | None => false
          end
  /\ ArtifactManager.get (fst r) artifact_id = None
  /\ (forall other, other <> artifact_id ->
        ArtifactManager.get (fst r) other = ArtifactManager.get self other)
  /\ OrderedDict.values (fst r)
     = List.filter (fun a => negb (String.eqb artifact_id (data_id a)))
                   (OrderedDict.values self).
Proof.
  intros Hok. pose proof Hok as [Hnd Hall].
  unfold ArtifactManager.delete, ArtifactManager.get.
  destruct (OrderedDict.get artifact_id self) as [a|] eqn:Hget; cbn.
  - split; [reflexivity|].
    rewrite StoreFacts.del_filter by assumption.
    split; [|split].
    + apply StoreFacts.get_filter_out. intros v. simpl. now rewrite String.eqb_refl.
    + intros other Hne. rewrite <- StoreFacts.del_filter by assumption.
      apply StoreFacts.get_del_ne. congruence.
    + apply StoreFacts.filter_values. intros item Hin.
      now rewrite (StoreFacts.key_is_id self item Hok Hin).
  - split; [reflexivity|]. split; [assumption|]. split; [reflexivity|].
    symmetry. apply List.forallb_filter_id. apply forallb_forall.
    intros a Hin. unfold OrderedDict.values in Hin.
    apply in_map_iff in Hin as (item & <- & Hin).
    destruct (String.eqb_spec artifact_id (data_id (snd item))) as [E|]; [|reflexivity].
    exfalso. apply (proj1 (StoreFacts.get_None artifact_id self) Hget).
    rewrite E, <- (StoreFacts.key_is_id self item Hok Hin). now apply in_map.
Qed.

Lemma delete_removes_one_artifact_witness :
  store_ok shelf
  /\ snd (ArtifactManager.delete shelf "a2") = true
  /\ ArtifactManager.get (fst (ArtifactManager.delete shelf "a2")) "a2" = None
  /\ List.map data_id (OrderedDict.values (fst (ArtifactManager.delete shelf "a2")))
     = ["a1"; "a3"].
Proof.
  split; [exact store_ok_shelf|].
  destruct (delete_removes_one_artifact shelf "a2" store_ok_shelf) as (H1 & H2 & _ & H4).
  split; [exact H1|]. split; [exact H2|]. rewrite H4. reflexivity.
Defined.

(** X15. In a store with no id twice, [clear_session] returns the number
    of artifacts of the session and removes exactly them, keeping the
    others (those without a session too) in their order: the session has
    no artifact left, every other session has the ones it had, and for a
    non-empty id the export of the session is empty. *)
Theorem clear_session_removes_the_session (self : ArtifactManager.t) (session_id : string) :
  store_ok self ->
  let r := ArtifactManager.clear_session self session_id in
  snd r = List.length (of_session self session_id)
  /\ OrderedDict.values (fst r)
     = List.filter (fun a => negb (ArtifactManager.in_session session_id a))
                   (OrderedDict.values self)
  /\ of_session (fst r) session_id = []
  /\ (forall other, other <> session_id ->
        of_session (fst r) other = of_session self other)
  /\ (Py.truthy session_id = true ->
      forall w,
        let e := fst (ArtifactManager.export_session (fst r) session_id w) in
        artifact_count e = 0%nat /\ exported_artifacts e = []).
Proof.
  intros Hok. pose proof Hok as [Hnd Hall].
  unfold ArtifactManager.clear_session. cbn [fst snd].
  rewrite StoreFacts.del_all_filter by assumption.
  set (self' := List.filter (fun item => negb (existsb _ _)) self).
  assert (Hvalues :
    OrderedDict.values self'
    = List.filter (fun a => negb (ArtifactManager.in_session session_id a))
                  (OrderedDict.values self)).
  { subst self'. apply StoreFacts.filter_values. intros item Hin. cbn beta. f_equal.
    destruct (ArtifactManager.in_session session_id (snd item)) eqn:E.
    - apply existsb_exists. exists (fst item). split; [|apply String.eqb_refl].
      apply in_map. apply filter_In. now split.
    - destruct (existsb _ _) eqn:Ex; [|reflexivity].
      apply existsb_exists in Ex as (k & Hk & Ek).
      apply String.eqb_eq in Ek. subst k.
      apply in_map_iff in Hk as (item' & Ek & Hin').
      apply filter_In in Hin' as [Hin' Es].
      assert (item' = item) as ->; [|congruence].
      destruct item as [k v], item' as [k' v']. simpl in Ek. subst k'.
      f_equal. apply (StoreFacts.In_get _ _ _ Hnd) in Hin, Hin'. congruence. }
  assert (Hnone : of_session self' session_id = []).
  { unfold of_session. rewrite Hvalues. generalize (OrderedDict.values self).
    intros l. induction l as [|a l IH]; simpl; [reflexivity|].
    destruct (ArtifactManager.in_session session_id a) eqn:E; simpl; [assumption|].
    now rewrite E. }
  split; [|split; [exact Hvalues|split; [exact Hnone|split]]].
  - rewrite length_map. unfold of_session, OrderedDict.values.
    clear. induction self as [|item self IH]; simpl; [reflexivity|].
    destruct (ArtifactManager.in_session session_id (snd item)); simpl; now rewrite IH.
  - intros other Hne. unfold of_session. rewrite Hvalues.
    generalize (OrderedDict.values self).
    intros l. induction l as [|a l IH]; simpl; [reflexivity|].
    destruct (ArtifactManager.in_session session_id a) eqn:E; simpl.
    + rewrite IH. unfold ArtifactManager.in_session in *.
      destruct (data_session_id a) as [x|]; [|reflexivity].
      apply String.eqb_eq in E. subst x.
      destruct (String.eqb_spec session_id other); [congruence|reflexivity].
    + now rewrite IH.
  - intros Ht w. unfold ArtifactManager.export_session, ArtifactManager.list_all,
      mbind, M_bind.
    rewrite Ht. fold (of_session self' session_id). rewrite Hnone.
    split; reflexivity.
Qed.

Lemma clear_session_removes_the_session_witness :
  store_ok shelf
  /\ snd (ArtifactManager.clear_session shelf "s1") = 2%nat
  /\ List.map data_id (OrderedDict.values (fst (ArtifactManager.clear_session shelf "s1")))
     = ["a2"].
Proof.
  split; [exact store_ok_shelf|].
  destruct (clear_session_removes_the_session shelf "s1" store_ok_shelf) as (H1 & H2 & _).
  split; [rewrite H1|rewrite H2]; reflexivity.
Defined.

(** X16. The store stays a dict of artifacts by id: if no id occurs
    twice and every artifact is stored under its own id, the same holds
    after [create], [update], [delete] and [clear_session]. *)
Theorem store_stays_well_formed (self : ArtifactManager.t) :
  store_ok self ->
  (forall artifact_type title content language session_id metadata w,
     store_ok (fst (fst (ArtifactManager.create self artifact_type title content
                                                language session_id metadata w))))
  /\ (forall artifact_id content title metadata w,
        store_ok (fst (fst (ArtifactManager.update self artifact_id content title
                                                   metadata w))))
  /\ (forall artifact_id, store_ok (fst (ArtifactManager.delete self artifact_id)))
  /\ (forall session_id, store_ok (fst (ArtifactManager.clear_session self session_id))).
Proof.
  intros Hok. split; [|split; [|split]].
  - intros artifact_type title content language sid metadata w.
    unfold ArtifactManager.create, mbind, M_bind.
    destruct (ArtifactManager.metadata_or_new metadata w) as [md w1]. cbn.
    exact (StoreFacts.store_ok_set
             (mkData (uuid_src w1 (uuid_drawn w1)) artifact_type title content
                     language sid md (clock_src w1 (clock_reads w1))
                     (clock_src w1 (S (clock_reads w1)))) self Hok).
  - intros artifact_id content title metadata w.
    destruct (OrderedDict.get artifact_id self) as [old|] eqn:Hget.
    + destruct (StoreFacts.update_shape self artifact_id content title metadata w old Hget)
        as (new & -> & Hid & _).
      assert (artifact_id = data_id new) as ->; [|now apply StoreFacts.store_ok_set].
      rewrite Hid. apply StoreFacts.get_In in Hget.
      exact (StoreFacts.key_is_id self _ Hok Hget).
    + unfold ArtifactManager.update. now rewrite Hget.
  - intros artifact_id. unfold ArtifactManager.delete.
    destruct (OrderedDict.get artifact_id self); [|assumption]. cbn.
    rewrite StoreFacts.del_filter by apply Hok. now apply StoreFacts.store_ok_filter.
  - intros sid. unfold ArtifactManager.clear_session. cbn.
    rewrite StoreFacts.del_all_filter by apply Hok. now apply StoreFacts.store_ok_filter.
Qed.

Lemma store_stays_well_formed_witness :
  store_ok shelf
  /\ store_ok (fst (ArtifactManager.delete shelf "a2"))
  /\ store_ok (fst (ArtifactManager.clear_session shelf "s1")).
Proof.
  split; [exact store_ok_shelf|].
  destruct (store_stays_well_formed shelf store_ok_shelf) as (_ & _ & Hd & Hc).
  split; [apply Hd|apply Hc].
Defined.

(** X17. [list_all] returns the selected artifacts (those of the
    session, or all of them when the id is None or empty), each once,
    later ones first, and artifacts created at the same instant in the
    order in which the store holds them. *)
Theorem list_all_keeps_insertion_order_of_ties
        (self : ArtifactManager.t) (session_id : option string) (z : Z) :
  created_at_instant z (ArtifactManager.list_all self session_id)
  = created_at_instant z (selected self session_id)
  /\ Permutation (ArtifactManager.list_all self session_id) (selected self session_id)
  /\ newest_first (ArtifactManager.list_all self session_id)
  /\ ArtifactManager.list_all self None = ArtifactManager.list_all self (Some "").
Proof.
  assert (E : ArtifactManager.list_all self session_id
              = sorted_reverse data_created_at (selected self session_id)).
  { unfold ArtifactManager.list_all, selected, of_session.
    destruct session_id as [x|]; [destruct (Py.truthy x)|]; reflexivity. }
  rewrite E. split; [apply StoreFacts.sorted_reverse_stable|].
  split; [apply SortFacts.sorted_reverse_perm|].
  split; [apply SortFacts.sorted_reverse_sorted|reflexivity].
Qed.

(** X18. [update] moves nothing: in a store with no id twice, the
    ids listed by [list_all], for any session, and by [list_by_type], for
    any type, are the same, in the same order, after an update as before
    it. *)
Theorem update_keeps_every_listing
        (self : ArtifactManager.t) (artifact_id : string)
        (content title : option string) (metadata : option Dict) (w : World)
        (session_id : option string) :
  store_ok self ->
  let self' := fst (fst (ArtifactManager.update self artifact_id content title
                                                metadata w)) in
  List.map data_id (ArtifactManager.list_all self' session_id)
  = List.map data_id (ArtifactManager.list_all self session_id)
  /\ (forall artifact_type,
        List.map data_id (ArtifactManager.list_by_type self' artifact_type)
        = List.map data_id (ArtifactManager.list_by_type self artifact_type)).
Proof.
  intros Hok. cbn zeta.
  destruct (OrderedDict.get artifact_id self) as [old|] eqn:Hget;
    [|unfold ArtifactManager.update; rewrite Hget; split; reflexivity].
  destruct (StoreFacts.update_shape self artifact_id content title metadata w old Hget)
    as (new & -> & Hid & Hsid & Hcr & Hty).
  pose proof (StoreFacts.get_In _ _ _ Hget) as Hin.
  pose proof (StoreFacts.key_is_id self _ Hok Hin) as Hkey. simpl in Hkey.
  set (f := fun a => if String.eqb artifact_id (data_id a) then new else a).
  assert (Hold : forall a, In a (OrderedDict.values self) ->
                           String.eqb artifact_id (data_id a) = true -> a = old).
  { intros a Ha Ea. apply String.eqb_eq in Ea.
    unfold OrderedDict.values in Ha. apply in_map_iff in Ha as ([k v] & <- & Hv).
    pose proof (StoreFacts.key_is_id self _ Hok Hv) as Hk. simpl in Hk, Ea.
    rewrite <- Hk in Ea. subst k.
    apply (StoreFacts.In_get _ _ _ (proj1 Hok)) in Hv. simpl. congruence. }
  assert (Hvalues : OrderedDict.values (OrderedDict.set artifact_id new self)
                    = List.map f (OrderedDict.values self))
    by (eapply StoreFacts.values_set; eassumption).
  assert (Hf : forall a, In a (OrderedDict.values self) ->
            data_id (f a) = data_id a
            /\ data_session_id (f a) = data_session_id a
            /\ data_created_at (f a) = data_created_at a
            /\ data_type (f a) = data_type a).
  { intros a Ha. unfold f.
    destruct (String.eqb artifact_id (data_id a)) eqn:Ea; [|now repeat split].
    rewrite (Hold a Ha Ea). now repeat split. }
  assert (Hids : forall l, (forall a, In a l -> In a (OrderedDict.values self)) ->
            List.map data_id (List.map f l) = List.map data_id l).
  { intros l Hl. rewrite List.map_map. apply List.map_ext_in.
    intros a Ha. now apply Hf, Hl. }
  unfold ArtifactManager.list_all, ArtifactManager.list_by_type.
  rewrite Hvalues. split.
  - assert (Hsel : forall x,
              List.filter (ArtifactManager.in_session x)
                          (List.map f (OrderedDict.values self))
              = List.map f (List.filter (ArtifactManager.in_session x)
                                        (OrderedDict.values self))).
    { intros x. apply StoreFacts.filter_map_commute. intros a Ha.
      unfold ArtifactManager.in_session. now rewrite (proj1 (proj2 (Hf a Ha))). }
    assert (Hsort : forall l, (forall a, In a l -> In a (OrderedDict.values self)) ->
              List.map data_id (sorted_reverse data_created_at (List.map f l))
              = List.map data_id (sorted_reverse data_created_at l)).
    { intros l Hl. rewrite StoreFacts.sorted_reverse_map
        by (intros a Ha; now apply Hf, Hl).
      apply Hids. intros a Ha. apply Hl.
      exact (Permutation_in _ (SortFacts.sorted_reverse_perm _ l) Ha). }
    destruct session_id as [x|]; [destruct (Py.truthy x)|].
    + rewrite Hsel. apply Hsort. intros a Ha. now apply filter_In in Ha.
    + now apply Hsort.
    + now apply Hsort.
  - intros artifact_type.
    rewrite StoreFacts.filter_map_commute.
    + apply Hids. intros a Ha. now apply filter_In in Ha.
    + intros a Ha. unfold ArtifactManager.has_type.
      now rewrite (proj2 (proj2 (proj2 (Hf a Ha)))).
Qed.

Lemma update_keeps_every_listing_witness :
  store_ok shelf
  /\ List.map data_id
       (ArtifactManager.list_all
          (fst (fst (ArtifactManager.update shelf "a1" (Some "x = 2") None None
                                            tiny_world))) (Some "s1"))
     = ["a1"; "a3"].
Proof.
  split; [exact store_ok_shelf|].
  rewrite (proj1 (update_keeps_every_listing shelf "a1" (Some "x = 2") None None
                    tiny_world (Some "s1") store_ok_shelf)).
  reflexivity.
Defined.

(** X19. The extension [save_to_file] gives to an artifact starts with
    a dot; the extension of a language does not depend on the case of its
    letters; and for an artifact that is not of type code the extension
    does not depend on the language. *)
Theorem extension_starts_with_a_dot_and_ignores_case (a : ArtifactData) :
  Py.startswith "." (ArtifactManager.extension_of a) = true
  /\ (forall l, ArtifactManager._get_code_extension (Some (Py.lower l))
                = ArtifactManager._get_code_extension (Some l))
  /\ (forall b, data_type b = data_type a -> data_type a <> "code" ->
                ArtifactManager.extension_of b = ArtifactManager.extension_of a).
Proof.
  split; [|split].
  - unfold ArtifactManager.extension_of, ArtifactManager.extensions.
    cbn [OrderedDict.get].
    destruct (String.eqb (data_type a) "code"); [apply ExtensionFacts.code_extension_dot|].
    repeat (destruct (String.eqb (data_type a) _); [reflexivity|]).
    reflexivity.
  - intros l. unfold ArtifactManager._get_code_extension.
    replace (Py.truthy (Py.lower l)) with (Py.truthy l) by (now destruct l).
    destruct (Py.truthy l); [now rewrite ExtensionFacts.lower_idem|reflexivity].
  - intros b Hb Hne. unfold ArtifactManager.extension_of, ArtifactManager.extensions.
    rewrite Hb. cbn [OrderedDict.get].
    destruct (String.eqb_spec (data_type a) "code"); [contradiction|reflexivity].
Qed.

(** X20. [save_to_file] changes at most one file. For an unknown id it
    returns None and writes nothing; when the file cannot be opened the
    exception leaves every file as it was; otherwise it returns the path,
    made of the storage directory and the file name of the artifact, the
    file at that path holds the content of the artifact, every other file
    is unchanged, and saving again changes nothing more. *)
Theorem save_to_file_changes_at_most_one_file
        (storage_dir : string) (self : ArtifactManager.t) (artifact_id : string)
        (fs : FileSystem) :
  let r := save_to_file storage_dir self artifact_id fs in
  match fst r with
  | inr None => ArtifactManager.get self artifact_id = None /\ snd r = fs
  | inl e =>
      snd r = fs
      /\ exists a, ArtifactManager.get self artifact_id = Some a
           /\ fs_refused fs (Py.path_join storage_dir (ArtifactManager.filename_of a))
              = Some e
  | inr (Some path) =>
      exists a, ArtifactManager.get self artifact_id = Some a
        /\ path = Py.path_join storage_dir (ArtifactManager.filename_of a)
        /\ fs_files (snd r) !! path = Some (data_content a)
        /\ (forall other, other <> path ->
              fs_files (snd r) !! other = fs_files fs !! other)
        /\ save_to_file storage_dir self artifact_id (snd r) = r
  end.
Proof.
  unfold save_to_file, write_file.
  destruct (ArtifactManager.get self artifact_id) as [a|] eqn:Hget; [|now split].
  destruct (fs_refused fs _) as [e|] eqn:Href; cbn.
  - split; [reflexivity|]. now exists a.
  - exists a. split; [reflexivity|]. split; [reflexivity|].
    split; [apply lookup_insert_eq|].
    split; [intros other Hne; now apply lookup_insert_ne|].
    rewrite Href. now rewrite insert_insert_eq.
Qed.

(* ===================================================================== *)
(** * The connection manager *)
(* ===================================================================== *)

(** X21. The connection manager keeps one socket and one agent per
    session id (for sockets that accept and send without raising). After
    a second connection under the same id, the session has the agent made
    for the second connection, a message for the session goes to the
    second socket and to no other, and the registrations of other ids are
    untouched; after [disconnect], whichever socket caused it, a message
    for the session is sent to nobody and the agent is gone. *)
Theorem reconnection_replaces_the_socket
        {F : Type} (m : ConnectionManager) (net : Network F) (session_id : string)
        (ws1 ws2 : nat) (agent1 agent2 : BaseAgent) (message : F) :
  let m1 := fst (connect m ws1 session_id agent1 net) in
  let net1 := snd (connect m ws1 session_id agent1 net) in
  let m2 := fst (connect m1 ws2 session_id agent2 net1) in
  let net2 := snd (connect m1 ws2 session_id agent2 net1) in
  let net3 := send_message m2 session_id message net2 in
  outbox net3 !! ws2 = Some (default [] (outbox net !! ws2) ++ [message])%list
  /\ (forall ws, ws <> ws2 -> outbox net3 !! ws = outbox net !! ws)
  /\ agents m2 !! session_id = Some agent2
  /\ accepted net3 = (accepted net ++ [ws1; ws2])%list
  /\ (forall other, other <> session_id ->
        active_connections m2 !! other = active_connections m !! other
        /\ agents m2 !! other = agents m !! other)
  /\ send_message (disconnect m2 session_id) session_id message net2 = net2
  /\ agents (disconnect m2 session_id) !! session_id = None.
Proof.
  cbn zeta. unfold send_message, connect, disconnect, send_json.
  cbn [fst snd active_connections agents accepted outbox].
  rewrite lookup_insert_eq. cbn [accepted outbox].
  split; [apply lookup_insert_eq|].
  split; [intros ws Hws; now apply lookup_insert_ne|].
  split; [apply lookup_insert_eq|].
  split; [now rewrite <- app_assoc|].
  split.
  - intros other Ho. rewrite !lookup_insert_ne by congruence. now split.
  - rewrite !lookup_delete_eq. now split.
Qed.
